(** * SemanticAim: the enrichment engine of [semantic_enricher.py]

    A shallow embedding of [SemanticEnricher] (the situational, spatial,
    temporal and composite annotators and the [enrich] pipeline) and the
    properties of its specification.

    Modelling conventions.
    - A pandas [DataFrame] is a list of column names and a list of rows; a
      row carries its index label and its cells.  Index labels are the
      labels pandas uses for [df.loc] and [df.at]; [sort_values] permutes
      rows and keeps their labels.
    - Python [int] and [float] cells are exact rationals ([Q]); rounding and
      infinities of binary64 are outside the model.  A missing cell (NaN or
      [None]) is [VNone]: it compares false with everything, as NaN does.
    - A Python exception ([KeyError] for an absent column, [TypeError] for a
      string where a number is needed, [ValueError] for a threshold that
      does not parse) is the result [None].
    - [float] (the parser of thresholds), [math.sqrt] and the sort of
      [sort_values] are library functions; they are the fields of
      [PyRuntime].  Of the sort only what [PySort] states is assumed:
      rows with equal keys come back in no particular order. *)

From Stdlib Require Import List String Ascii ZArith QArith Lia Bool.
From Stdlib Require Import Permutation Sorted.
From Stdlib Require Import Lqa.
From Stdlib Require DecimalString.
Import ListNotations.

Local Open Scope string_scope.
Local Open Scope list_scope.

(** ** Cell values *)

Inductive value : Type :=
| VNum (q : Q)
| VStr (s : string)
| VBool (b : bool)
| VNone.

(** The number a cell stands for in arithmetic and comparisons: Python's
    [bool] is a subtype of [int]. *)
Definition num_of (v : value) : option Q :=
  match v with
  | VNum q => Some q
  | VBool true => Some 1%Q
  | VBool false => Some 0%Q
  | _ => None
  end.

(** Python's [==] as pandas applies it to a cell: numbers by value, strings
    by content, a missing cell equal to nothing (not even itself). *)
Definition value_eqb (a b : value) : bool :=
  match a, b with
  | VStr s, VStr t => String.eqb s t
  | _, _ =>
      match num_of a, num_of b with
      | Some x, Some y => Qeq_bool x y
      | _, _ => false
      end
  end.

(** Sameness as [Series.unique] and [Series.isin] see it: like [==], but
    two missing values are the same. *)
Definition value_same (a b : value) : bool :=
  match a, b with
  | VNone, VNone => true
  | _, _ => value_eqb a b
  end.

Definition Qlt_bool (x y : Q) : bool := negb (Qle_bool y x).

(** [Series.unique()]: the distinct values, in order of first appearance. *)
Fixpoint unique (l : list value) : list value :=
  match l with
  | [] => []
  | v :: l' => v :: filter (fun u => negb (value_same v u)) (unique l')
  end.

(** ** Data frames *)

Record Row : Type := mkRow { idx : nat; cells : string -> value }.

Record DataFrame : Type := mkDF { columns : list string; rows : list Row }.

Definition index (df : DataFrame) : list nat := map idx (rows df).

(** [c in df.columns] *)
Definition has_column (df : DataFrame) (c : string) : bool :=
  existsb (String.eqb c) (columns df).

Definition set_cell (c : string) (v : value) (r : Row) : Row :=
  mkRow (idx r) (fun c' => if String.eqb c' c then v else cells r c').

Definition add_column (cols : list string) (c : string) : list string :=
  if existsb (String.eqb c) cols then cols else cols ++ [c].

(** [df[c] = v] for a scalar [v]: the column is created or overwritten. *)
Definition assign (df : DataFrame) (c : string) (v : value) : DataFrame :=
  mkDF (add_column (columns df) c) (map (set_cell c v) (rows df)).

(** [df[c]]: a [KeyError] when the column is absent. *)
Definition column (df : DataFrame) (c : string) : option (list value) :=
  if has_column df c then Some (map (fun r => cells r c) (rows df)) else None.

(** [df.loc[i]]: the row labelled [i]. *)
Definition loc (df : DataFrame) (i : nat) : option Row :=
  find (fun r => Nat.eqb (idx r) i) (rows df).

(** [df.at[i, c] = v] *)
Definition at_set (df : DataFrame) (i : nat) (c : string) (v : value)
  : DataFrame :=
  mkDF (add_column (columns df) c)
       (map (fun r => if Nat.eqb (idx r) i then set_cell c v r else r)
            (rows df)).

(** [row.get(c, default)] on a row of [df]: the cell when the column
    exists, the default otherwise. *)
Definition row_get (df : DataFrame) (r : Row) (c : string) (default : value)
  : value :=
  if has_column df c then cells r c else default.

(** [df[mask].index]: the labels of the rows selected by a predicate. *)
Definition index_where (p : Row -> bool) (df : DataFrame) : list nat :=
  map idx (filter p (rows df)).

(** The error monad of the embedding. *)
Definition bind {A B : Type} (x : option A) (f : A -> option B) : option B :=
  match x with
  | Some a => f a
  | None => None
  end.

Notation "x <- e ;; k" := (bind e (fun x => k))
  (at level 61, e at next level, right associativity).

(** ** Metric definitions *)

Record Bounds : Type := mkBounds {
  x_min : option Q;
  x_max : option Q;
  y_min : option Q;
  y_max : option Q
}.

(** The value of one entry of [conditions]: a YAML list or a YAML scalar. *)
Inductive cond_value : Type :=
| CList (vs : list value)
| CScalar (v : value).

Record Metric : Type := mkMetric {
  metric_name : string;
  metric_type : string;
  bounds : option Bounds;
  map_name : option string;
  conditions : list (string * cond_value)
}.

(** The library functions the engine calls: [float(s)] ([None] is its
    [ValueError]), [math.sqrt], and the sort of [df.sort_values] on the
    rows of a frame (pandas sorts with quicksort unless told otherwise,
    which leaves rows with equal keys in no particular order). *)
Class PyRuntime : Type := {
  py_float : string -> option Q;
  math_sqrt : Q -> Q;
  sort_rows : string -> list Row -> list Row
}.

(** ** Situational metrics *)

(** [str(n)] for a Python [int]. *)
Definition str_of_int (n : Z) : string := DecimalString.NilZero.string_of_int (Z.to_int n).

(** Lines 101 to 109: the counters after the event. *)
Definition update_alive (df : DataFrame) (event : Row)
  (team_alive enemy_alive : Z) : Z * Z :=
  if value_eqb (row_get df event "eventType" VNone) (VStr "kill") then
    let victim_team := row_get df event "victimTeam" (VStr "") in
    if value_eqb victim_team (VStr "Team A")
    then ((team_alive - 1)%Z, enemy_alive)
    else if value_eqb victim_team (VStr "Team B")
    then (team_alive, (enemy_alive - 1)%Z)
    else (team_alive, enemy_alive)
  else (team_alive, enemy_alive).

(** Lines 111 to 127, on the cells of the row: the counters, the advantage
    and the label, the clutch label written over the generic one. *)
Definition stamp (team_alive enemy_alive : Z) (r : Row) : Row :=
  let r := set_cell "players_alive_team" (VNum (inject_Z team_alive)) r in
  let r := set_cell "players_alive_enemy" (VNum (inject_Z enemy_alive)) r in
  let r := set_cell "player_advantage"
                    (VNum (inject_Z (team_alive - enemy_alive))) r in
  let advantage := (team_alive - enemy_alive)%Z in
  let r :=
    if (advantage =? 0)%Z then set_cell "situation_type" (VStr "Even") r
    else if (advantage >? 0)%Z
    then set_cell "situation_type"
                  (VStr ("Advantage +" ++ str_of_int advantage)%string) r
    else set_cell "situation_type"
                  (VStr ("Disadvantage " ++ str_of_int advantage)%string) r in
  if ((team_alive =? 1)%Z && (enemy_alive >? 1)%Z)%bool
  then set_cell "situation_type"
                (VStr ("Clutch 1v" ++ str_of_int enemy_alive)%string) r
  else r.

(** The same lines as [df.at[idx, ...] = ...] on the frame. *)
Definition record_state (df : DataFrame) (i : nat)
  (team_alive enemy_alive : Z) : DataFrame :=
  let df := at_set df i "players_alive_team" (VNum (inject_Z team_alive)) in
  let df := at_set df i "players_alive_enemy" (VNum (inject_Z enemy_alive)) in
  let df := at_set df i "player_advantage"
                   (VNum (inject_Z (team_alive - enemy_alive))) in
  let advantage := (team_alive - enemy_alive)%Z in
  let df :=
    if (advantage =? 0)%Z then at_set df i "situation_type" (VStr "Even")
    else if (advantage >? 0)%Z
    then at_set df i "situation_type"
                (VStr ("Advantage +" ++ str_of_int advantage)%string)
    else at_set df i "situation_type"
                (VStr ("Disadvantage " ++ str_of_int advantage)%string) in
  if ((team_alive =? 1)%Z && (enemy_alive >? 1)%Z)%bool
  then at_set df i "situation_type"
              (VStr ("Clutch 1v" ++ str_of_int enemy_alive)%string)
  else df.

(** The body of the [for idx in round_events.index] loop: the state is the
    frame and the two counters. *)
Definition situational_event (i : nat) (s : DataFrame * Z * Z)
  : option (DataFrame * Z * Z) :=
  let '(df, team_alive, enemy_alive) := s in
  event <- loc df i ;;
  let '(team_alive, enemy_alive) :=
    update_alive df event team_alive enemy_alive in
  Some (record_state df i team_alive enemy_alive, team_alive, enemy_alive).

(** One iteration of [for round_num in df['roundNumber'].unique()]. *)
Definition situational_round (round_num : value) (df : DataFrame)
  : option DataFrame :=
  let round_index :=
    index_where (fun r => value_eqb (cells r "roundNumber") round_num) df in
  s <- fold_left (fun s i => s <- s ;; situational_event i s)
                 round_index (Some (df, 5%Z, 5%Z)) ;;
  Some (fst (fst s)).

Definition _apply_situational (df : DataFrame) (metric : Metric)
  : option DataFrame :=
  if String.eqb (metric_name metric) "Clutch_Situations" then
    let df := assign df "players_alive_team" (VNum 0) in
    let df := assign df "players_alive_enemy" (VNum 0) in
    let df := assign df "situation_type" (VStr "Unknown") in
    let df := assign df "player_advantage" (VNum 0) in
    round_numbers <- column df "roundNumber" ;;
    fold_left (fun s round_num => df <- s ;; situational_round round_num df)
              (unique round_numbers) (Some df)
  else Some df.

(** ** Python string helpers *)

(** [str.lower()] on ASCII letters. *)
Definition lower_char (c : ascii) : ascii :=
  let n := nat_of_ascii c in
  if (Nat.leb 65 n && Nat.leb n 90)%bool then ascii_of_nat (n + 32) else c.

Fixpoint lower (s : string) : string :=
  match s with
  | EmptyString => EmptyString
  | String c s' => String (lower_char c) (lower s')
  end.

(** [s.replace(' ', '_')] *)
Fixpoint replace_space (s : string) : string :=
  match s with
  | EmptyString => EmptyString
  | String c s' =>
      String (if Ascii.eqb c " "%char then "_"%char else c) (replace_space s')
  end.

(** [s.startswith(c)] for a one-character prefix. *)
Definition startswith (s : string) (c : ascii) : bool :=
  match s with
  | String c' _ => Ascii.eqb c' c
  | EmptyString => false
  end.

(** [s[1:]] *)
Definition tail (s : string) : string :=
  match s with
  | String _ s' => s'
  | EmptyString => EmptyString
  end.

(** The ASCII characters [str.strip()] removes: tab to carriage return,
    the four separators 28 to 31, and space. *)
Definition is_space (c : ascii) : bool :=
  let n := nat_of_ascii c in
  ((Nat.leb 9 n && Nat.leb n 13) || (Nat.leb 28 n && Nat.leb n 32))%bool.

Fixpoint lstrip (s : string) : string :=
  match s with
  | String c s' => if is_space c then lstrip s' else s
  | EmptyString => EmptyString
  end.

Fixpoint rstrip (s : string) : string :=
  match s with
  | String c s' =>
      match rstrip s' with
      | EmptyString => if is_space c then EmptyString else String c EmptyString
      | t => String c t
      end
  | EmptyString => EmptyString
  end.

Definition strip (s : string) : string := rstrip (lstrip s).

(** ** Spatial metrics *)

(** [column >= bound] on one cell, the bound defaulting to minus infinity:
    false on a missing cell, a [TypeError] on a string. *)
Definition cell_ge (v : value) (bound : option Q) : option bool :=
  match v with
  | VStr _ => None
  | _ =>
      match num_of v, bound with
      | Some x, Some b => Some (Qle_bool b x)
      | Some _, None => Some true
      | None, _ => Some false
      end
  end.

(** [column <= bound], the bound defaulting to plus infinity. *)
Definition cell_le (v : value) (bound : option Q) : option bool :=
  match v with
  | VStr _ => None
  | _ =>
      match num_of v, bound with
      | Some x, Some b => Some (Qle_bool x b)
      | Some _, None => Some true
      | None, _ => Some false
      end
  end.

(** A vectorised test: one boolean per row, or the exception of the first
    cell that raises. *)
Fixpoint mask_of (p : Row -> option bool) (rs : list Row)
  : option (list bool) :=
  match rs with
  | [] => Some []
  | r :: rs' => b <- p r ;; bs <- mask_of p rs' ;; Some (b :: bs)
  end.

(** [df.loc[mask, c] = v] *)
Fixpoint set_where (mask : list bool) (c : string) (v : value)
  (rs : list Row) : list Row :=
  match mask, rs with
  | b :: mask', r :: rs' =>
      (if b then set_cell c v r else r) :: set_where mask' c v rs'
  | _, _ => rs
  end.

Definition option_default (d : Q) (o : option Q) : Q :=
  match o with
  | Some q => q
  | None => d
  end.

Section Engine.

Context {rt : PyRuntime}.

(** [_calculate_distance]: NaN when a coordinate is missing, a [TypeError]
    on a string. *)
Definition _calculate_distance (x1 y1 x2 y2 : value) : option value :=
  match x1, y1, x2, y2 with
  | VStr _, _, _, _ | _, VStr _, _, _ | _, _, VStr _, _ | _, _, _, VStr _ =>
      None
  | _, _, _, _ =>
      match num_of x1, num_of y1, num_of x2, num_of y2 with
      | Some a1, Some b1, Some a2, Some b2 =>
          Some (VNum (math_sqrt ((a2 - a1) ^ 2 + (b2 - b1) ^ 2)))
      | _, _, _, _ => Some VNone
      end
  end.

Definition zone_column (zone_name : string) : string :=
  "in_zone_" ++ replace_space (lower zone_name).

Definition distance_column (zone_name : string) : string :=
  "distance_to_" ++ lower zone_name.

(** The test of one row against the zone. *)
Definition in_zone (map_label : string) (b : Bounds) (r : Row) : option bool :=
  let on_map := value_eqb (cells r "map") (VStr map_label) in
  bx1 <- cell_ge (cells r "playerX") (x_min b) ;;
  bx2 <- cell_le (cells r "playerX") (x_max b) ;;
  by1 <- cell_ge (cells r "playerY") (y_min b) ;;
  by2 <- cell_le (cells r "playerY") (y_max b) ;;
  Some (on_map && bx1 && bx2 && by1 && by2)%bool.

(** The lambda of [df.apply(..., axis=1)]. *)
Definition zone_distance (df : DataFrame) (center_x center_y : Q) (r : Row)
  : option value :=
  match row_get df r "playerX" VNone with
  | VNone => Some VNone
  | _ =>
      _calculate_distance (row_get df r "playerX" (VNum 0))
                          (row_get df r "playerY" (VNum 0))
                          (VNum center_x) (VNum center_y)
  end.

(** [df[c] = series]: the column is created or overwritten cell by cell. *)
Fixpoint set_column_rows (c : string) (vs : list value) (rs : list Row)
  : list Row :=
  match vs, rs with
  | v :: vs', r :: rs' => set_cell c v r :: set_column_rows c vs' rs'
  | _, _ => rs
  end.

Fixpoint map_rows (f : Row -> option value) (rs : list Row)
  : option (list value) :=
  match rs with
  | [] => Some []
  | r :: rs' => v <- f r ;; vs <- map_rows f rs' ;; Some (v :: vs)
  end.

Definition _apply_spatial (df : DataFrame) (metric : Metric)
  : option DataFrame :=
  match bounds metric with
  | Some b =>
      let map_label :=
        match map_name metric with
        | Some m => m
        | None => "Unknown"
        end in
      let zone_name := metric_name metric in
      let column_name := zone_column zone_name in
      let df := assign df column_name (VBool false) in
      if (has_column df "playerX" && has_column df "playerY")%bool then
        _ <- column df "map" ;;
        mask <- mask_of (in_zone map_label b) (rows df) ;;
        let df :=
          mkDF (columns df) (set_where mask column_name (VBool true) (rows df))
        in
        let center_x :=
          ((option_default 0 (x_min b) + option_default 0 (x_max b)) / 2)%Q in
        let center_y :=
          ((option_default 0 (y_min b) + option_default 0 (y_max b)) / 2)%Q in
        ds <- map_rows (zone_distance df center_x center_y) (rows df) ;;
        Some (mkDF (add_column (columns df) (distance_column zone_name))
                   (set_column_rows (distance_column zone_name) ds (rows df)))
      else Some df
  | None => Some df
  end.

(** ** Temporal metrics *)

(** The order of [sort_values] on the cells of the key column: numbers
    ascending, missing values last. *)
Definition key_leb (a b : value) : bool :=
  match num_of b with
  | None => true
  | Some y =>
      match num_of a with
      | None => false
      | Some x => Qle_bool x y
      end
  end.

(** Insertion keeps rows with equal keys in their arrival order. *)
Fixpoint insert_row (c : string) (r : Row) (rs : list Row) : list Row :=
  match rs with
  | [] => [r]
  | r' :: rs' =>
      if key_leb (cells r c) (cells r' c) then r :: rs
      else r' :: insert_row c r rs'
  end.

Definition stable_sort (c : string) (rs : list Row) : list Row :=
  fold_right (insert_row c) [] rs.

Definition is_str (v : value) : bool :=
  match v with
  | VStr _ => true
  | _ => false
  end.

(** [df.sort_values(c)]: a [KeyError] when the column is absent, a
    [TypeError] when it holds a string beside numbers (a column of
    strings only is outside the model and counts as raising too);
    otherwise the rows in the order the library's sort gives. *)
Definition sort_values (df : DataFrame) (c : string) : option DataFrame :=
  if has_column df c then
    if existsb (fun r => is_str (cells r c)) (rows df) then None
    else Some (mkDF (columns df) (sort_rows c (rows df)))
  else None.

(** [a < b] and [a >= b] on numbers, false when either is missing. *)
Definition num_ltb (a b : value) : bool :=
  match num_of a, num_of b with
  | Some x, Some y => Qlt_bool x y
  | _, _ => false
  end.

Definition num_geb (a b : value) : bool :=
  match num_of a, num_of b with
  | Some x, Some y => Qle_bool y x
  | _, _ => false
  end.

(** [a - b] on numbers, NaN when either is missing. *)
Definition num_sub (a b : value) : value :=
  match num_of a, num_of b with
  | Some x, Some y => VNum (x - y)
  | _, _ => VNone
  end.

(** [distance <= 15.0], false on NaN. *)
Definition num_leb (a b : value) : bool :=
  match num_of a, num_of b with
  | Some x, Some y => Qle_bool x y
  | _, _ => false
  end.

(** The mask of [recent_deaths]. *)
Definition recent_death (killer_team kill_time : value) (r : Row) : bool :=
  (value_eqb (cells r "eventType") (VStr "kill")
   && value_eqb (cells r "victimTeam") killer_team
   && num_ltb (cells r "gameTime") kill_time
   && num_geb (cells r "gameTime") (num_sub kill_time (VNum 3)))%bool.

(** The body of [for idx in kill_events.index]. *)
Definition temporal_kill (i : nat) (df : DataFrame) : option DataFrame :=
  kill_event <- loc df i ;;
  let killer_team := row_get df kill_event "killerTeam" VNone in
  let kill_time := row_get df kill_event "gameTime" (VNum 0) in
  let kill_x := row_get df kill_event "killerX" (VNum 0) in
  let kill_y := row_get df kill_event "killerY" (VNum 0) in
  _ <- column df "victimTeam" ;;
  let recent_deaths := filter (recent_death killer_team kill_time) (rows df) in
  match List.rev recent_deaths with
  | [] => Some df
  | last_death :: _ =>
      let death_x := row_get df last_death "victimX" (VNum 0) in
      let death_y := row_get df last_death "victimY" (VNum 0) in
      distance <- _calculate_distance kill_x kill_y death_x death_y ;;
      let time_diff :=
        num_sub kill_time (row_get df last_death "gameTime" (VNum 0)) in
      let df := at_set df i "time_since_teammate_death" time_diff in
      let df := at_set df i "distance_to_teammate_death" distance in
      if num_leb distance (VNum 15)
      then Some (at_set df i "is_trade_kill" (VBool true))
      else Some df
  end.

Definition _apply_temporal (df : DataFrame) (metric : Metric)
  : option DataFrame :=
  if String.eqb (metric_name metric) "Trade_Efficiency" then
    let df := assign df "is_trade_kill" (VBool false) in
    let df := assign df "time_since_teammate_death" VNone in
    let df := assign df "distance_to_teammate_death" VNone in
    df <- sort_values df "gameTime" ;;
    _ <- column df "eventType" ;;
    let kill_index :=
      index_where (fun r => value_eqb (cells r "eventType") (VStr "kill")) df
    in
    fold_left (fun s i => df <- s ;; temporal_kill i df) kill_index (Some df)
  else Some df.

(** ** Composite metrics *)

Definition flag_column (name : string) : string :=
  "is_" ++ replace_space (lower name).

(** [column > threshold] and [column < threshold] on one cell: false on a
    missing cell, a [TypeError] on a string. *)
Definition cell_gt (v : value) (threshold : Q) : option bool :=
  match v with
  | VStr _ => None
  | _ =>
      match num_of v with
      | Some x => Some (Qlt_bool threshold x)
      | None => Some false
      end
  end.

Definition cell_lt (v : value) (threshold : Q) : option bool :=
  match v with
  | VStr _ => None
  | _ =>
      match num_of v with
      | Some x => Some (Qlt_bool x threshold)
      | None => Some false
      end
  end.

(** [series.isin(values)] on one cell. *)
Definition isin (v : value) (values : list value) : bool :=
  existsb (value_same v) values.

(** The series a condition is tested on, [df.get(key, pd.Series())], and
    the test itself.  When the column is absent the default is the empty
    series: its test is empty too, and [&=] aligns it with the index of the
    frame, an absent label counting as [False]. *)
Definition condition_mask (df : DataFrame) (condition_key : string)
  (condition_value : cond_value) : option (list bool) :=
  let series (p : value -> option bool) :=
    if has_column df condition_key
    then mask_of (fun r => p (cells r condition_key)) (rows df)
    else Some (map (fun _ => false) (rows df)) in
  match condition_value with
  | CList values => series (fun v => Some (isin v values))
  | CScalar (VStr s) =>
      if startswith s ">"%char then
        threshold <- py_float (strip (tail s)) ;;
        series (fun v => cell_gt v threshold)
      else if startswith s "<"%char then
        threshold <- py_float (strip (tail s)) ;;
        series (fun v => cell_lt v threshold)
      else series (fun v => Some (value_eqb v (VStr s)))
  | CScalar lit => series (fun v => Some (value_eqb v lit))
  end.

Definition cell_bool (v : value) : bool :=
  match v with
  | VBool b => b
  | _ => false
  end.

(** [df[c] &= mask] *)
Fixpoint and_column (c : string) (mask : list bool) (rs : list Row)
  : list Row :=
  match mask, rs with
  | b :: mask', r :: rs' =>
      set_cell c (VBool (cell_bool (cells r c) && b)) r
      :: and_column c mask' rs'
  | _, _ => rs
  end.

Definition composite_condition (column_name : string) (df : DataFrame)
  (cond : string * cond_value) : option DataFrame :=
  mask <- condition_mask df (fst cond) (snd cond) ;;
  Some (mkDF (columns df) (and_column column_name mask (rows df))).

Definition _apply_composite (df : DataFrame) (metric : Metric)
  : option DataFrame :=
  let column_name := flag_column (metric_name metric) in
  let df := assign df column_name (VBool true) in
  fold_left (fun s cond => df <- s ;; composite_condition column_name df cond)
            (conditions metric) (Some df).

(** ** The pipeline *)

Definition apply_metric (df : DataFrame) (metric : Metric)
  : option DataFrame :=
  let metric_type := metric_type metric in
  if String.eqb metric_type "situational" then _apply_situational df metric
  else if String.eqb metric_type "spatial" then _apply_spatial df metric
  else if String.eqb metric_type "temporal" then _apply_temporal df metric
  else if String.eqb metric_type "composite" then _apply_composite df metric
  else Some df.

(** [enrich], over the list [definitions['metrics']]. *)
Definition enrich (metrics : list Metric) (df : DataFrame)
  : option DataFrame :=
  fold_left (fun s metric => df <- s ;; apply_metric df metric)
            metrics (Some df).

End Engine.

(** ** Building a frame from decoded events *)

Fixpoint lookup (event : list (string * value)) (c : string) : value :=
  match event with
  | [] => VNone
  | (k, v) :: event' => if String.eqb c k then v else lookup event' c
  end.

Definition event_columns (events : list (list (string * value)))
  : list string :=
  fold_left (fun cols event => fold_left add_column (map fst event) cols)
            events [].

Fixpoint number_rows (i : nat) (events : list (list (string * value)))
  : list Row :=
  match events with
  | [] => []
  | event :: events' => mkRow i (lookup event) :: number_rows (S i) events'
  end.

(** [pd.DataFrame(events)] of [load_match_data]: the columns are the keys
    met, the index is [0 .. n-1], a key an event lacks is a missing cell. *)
Definition DataFrame_of (events : list (list (string * value))) : DataFrame :=
  mkDF (event_columns events) (number_rows 0 events).

(** The cell of column [c] in the row labelled [i]. *)
Definition cell (df : DataFrame) (i : nat) (c : string) : option value :=
  r <- loc df i ;; Some (cells r c).

(** A runtime to evaluate examples with: thresholds written as an optional
    sign and decimal digits, and the square root of a perfect square. *)
Definition digit_of (c : ascii) : option Z :=
  let n := nat_of_ascii c in
  if (Nat.leb 48 n && Nat.leb n 57)%bool then Some (Z.of_nat (n - 48))
  else None.

Fixpoint digits_value (s : string) (acc : Z) : option Z :=
  match s with
  | EmptyString => Some acc
  | String c s' => d <- digit_of c ;; digits_value s' (10 * acc + d)%Z
  end.

Definition integer_float (s : string) : option Q :=
  match s with
  | EmptyString => None
  | String "-"%char (String c s') =>
      n <- digits_value (String c s') 0%Z ;; Some (inject_Z (- n))
  | String "+"%char (String c s') =>
      n <- digits_value (String c s') 0%Z ;; Some (inject_Z n)
  | _ => n <- digits_value s 0%Z ;; Some (inject_Z n)
  end.

Definition exact_sqrt (q : Q) : Q :=
  Qmake (Z.sqrt (Qnum q * Zpos (Qden q))) (Qden q).

Definition example_runtime : PyRuntime :=
  {| py_float := integer_float; math_sqrt := exact_sqrt;
     sort_rows := stable_sort |}.

(** ** The alive-count state machine *)

Inductive side : Type := Reference | Opposing.

(** [event.get('eventType') == 'kill'] *)
Definition is_kill (df : DataFrame) (r : Row) : bool :=
  value_eqb (row_get df r "eventType" VNone) (VStr "kill").

(** The victim-team test of the source. *)
Definition victim_side (df : DataFrame) (r : Row) : option side :=
  let victim_team := row_get df r "victimTeam" (VStr "") in
  if value_eqb victim_team (VStr "Team A") then Some Reference
  else if value_eqb victim_team (VStr "Team B") then Some Opposing
  else None.

Definition decrement (s : option side) (st : Z * Z) : Z * Z :=
  match s with
  | Some Reference => (fst st - 1, snd st)%Z
  | Some Opposing => (fst st, snd st - 1)%Z
  | None => st
  end.

(** The transition of the source on one event. *)
Definition alive_step (df : DataFrame) (st : Z * Z) (r : Row) : Z * Z :=
  update_alive df r (fst st) (snd st).

(** The run of a counter machine over a list of events: each event with the
    counters before it and after it. *)
Fixpoint machine (step : Z * Z -> Row -> Z * Z) (st : Z * Z)
  (events : list Row) : list (Row * (Z * Z) * (Z * Z)) :=
  match events with
  | [] => []
  | e :: events' => (e, st, step st e) :: machine step (step st e) events'
  end.

Definition in_round (round_num : value) (r : Row) : bool :=
  value_eqb (cells r "roundNumber") round_num.

(** The events of a round, in table row order. *)
Definition round_events (df : DataFrame) (round_num : value) : list Row :=
  filter (in_round round_num) (rows df).

(** The machine of the source: the events of a round in row order. *)
Definition round_trace (df : DataFrame) (round_num : value)
  : list (Row * (Z * Z) * (Z * Z)) :=
  machine (alive_step df) (5, 5)%Z (round_events df round_num).

(** The reference machine of the specification: the events of a round in
    ascending [gameTime], ties in arrival order; the victim's side given by
    a two-valued role of the team identifier; no decrement when the
    identifier is absent. *)
Definition reference_step (role : string -> side) (df : DataFrame)
  (st : Z * Z) (r : Row) : Z * Z :=
  if is_kill df r then
    match row_get df r "victimTeam" VNone with
    | VStr team => decrement (Some (role team)) st
    | _ => st
    end
  else st.

Definition reference_trace (role : string -> side) (df : DataFrame)
  (round_num : value) : list (Row * (Z * Z) * (Z * Z)) :=
  machine (reference_step role df) (5, 5)%Z
          (stable_sort "gameTime" (round_events df round_num)).

(** The enriched frame [df'] carries, on every event of a trace, the
    counters after the event. *)
Definition stamped_as (df' : DataFrame)
  (trace : list (Row * (Z * Z) * (Z * Z))) : Prop :=
  forall e before after,
    In (e, before, after) trace ->
    cell df' (idx e) "players_alive_team" = Some (VNum (inject_Z (fst after)))
    /\ cell df' (idx e) "players_alive_enemy"
       = Some (VNum (inject_Z (snd after))).

(** The label the source writes for a pair of counters. *)
Definition situation_label (st : Z * Z) : string :=
  let team_alive := fst st in
  let enemy_alive := snd st in
  let advantage := (team_alive - enemy_alive)%Z in
  if ((team_alive =? 1)%Z && (enemy_alive >? 1)%Z)%bool
  then "Clutch 1v" ++ str_of_int enemy_alive
  else if (advantage =? 0)%Z then "Even"
  else if (advantage >? 0)%Z then "Advantage +" ++ str_of_int advantage
  else "Disadvantage " ++ str_of_int advantage.

(** One pass of the source over the frame, for one round. *)
Fixpoint stamp_round (df : DataFrame) (round_num : value) (st : Z * Z)
  (rs : list Row) : list Row :=
  match rs with
  | [] => []
  | r :: rs' =>
      if in_round round_num r
      then stamp (fst (alive_step df st r)) (snd (alive_step df st r)) r
           :: stamp_round df round_num (alive_step df st r) rs'
      else r :: stamp_round df round_num st rs'
  end.

(** The columns the situational metric writes. *)
Definition stamp_columns (cols : list string) : Prop :=
  existsb (String.eqb "players_alive_team") cols = true
  /\ existsb (String.eqb "players_alive_enemy") cols = true
  /\ existsb (String.eqb "player_advantage") cols = true
  /\ existsb (String.eqb "situation_type") cols = true.

(** Two rows with one label that agree on every column outside [X]. *)
Definition agree_row (X : string -> Prop) (r r' : Row) : Prop :=
  idx r = idx r' /\ forall c, ~ X c -> cells r c = cells r' c.

Definition stamp_names (c : string) : Prop :=
  In c ["players_alive_team"; "players_alive_enemy"; "player_advantage";
        "situation_type"].

(** The passes of the outer loop, on the rows. *)
Definition stamp_rounds (df : DataFrame) (round_numbers : list value)
  (rs : list Row) : list Row :=
  fold_left (fun rs round_num => stamp_round df round_num (5, 5)%Z rs)
            round_numbers rs.

(** A row of the frame carries the four cells of [stamp] for the event. *)
Definition stamped_row (rs : list Row) (e : Row) (st : Z * Z) : Prop :=
  exists r, In r rs /\ idx r = idx e
            /\ forall c, stamp_names c ->
                         cells r c = cells (stamp (fst st) (snd st) e) c.

(** The frame the round loop starts from: the four columns reset. *)
Definition reset_stamps (df : DataFrame) : DataFrame :=
  assign (assign (assign (assign df "players_alive_team" (VNum 0))
                         "players_alive_enemy" (VNum 0))
                 "situation_type" (VStr "Unknown"))
         "player_advantage" (VNum 0).

(** The claim of the specification on one frame: some two-valued role makes
    the stamps those of the reference machine. *)
Definition follows_reference (df : DataFrame) (metric : Metric) : Prop :=
  exists role : string -> side,
    forall df', _apply_situational df metric = Some df' ->
    forall round_num, stamped_as df' (reference_trace role df round_num).

(** The event of an entry of a trace. *)
Definition event_of (t : Row * (Z * Z) * (Z * Z)) : Row := fst (fst t).

(** [lower <= x] and [x <= upper] for optional bounds: an omitted bound is
    minus or plus infinity. *)
Definition above (lower : option Q) (x : Q) : Prop :=
  match lower with
  | Some b => (b <= x)%Q
  | None => True
  end.

Definition below (x : Q) (upper : option Q) : Prop :=
  match upper with
  | Some b => (x <= b)%Q
  | None => True
  end.

(** The zone of the specification's example and a definition on it. *)
Definition market_bounds : Bounds :=
  mkBounds (Some 500%Q) (Some 800%Q) (Some 1200%Q) (Some 1500%Q).

Definition market_metric : Metric :=
  mkMetric "Market" "spatial" (Some market_bounds) (Some "Ascent") [].

Definition position_event (x y : Q) : list (string * value) :=
  [("eventType", VStr "damage"); ("map", VStr "Ascent");
   ("playerX", VNum x); ("playerY", VNum y)].

Definition market_positions : DataFrame :=
  DataFrame_of [position_event 500 1200; position_event 499 1200;
                position_event 800 1500].

(** A definition of a kind the engine does not know. *)
Definition unknown_metric : Metric :=
  mkMetric "Heatmap" "statistical" None None [].

(** ** The rule language of composite metrics *)

Definition is_comparison (lit : value) : bool :=
  match lit with
  | VStr s => (startswith s ">"%char || startswith s "<"%char)%bool
  | _ => false
  end.

Section Rules.

Context {rt : PyRuntime}.

(** The test of one condition on one cell of the referenced column. *)
Definition condition_test (v : value) (condition_value : cond_value)
  : option bool :=
  match condition_value with
  | CList values => Some (isin v values)
  | CScalar (VStr s) =>
      if startswith s ">"%char then
        threshold <- py_float (strip (tail s)) ;; cell_gt v threshold
      else if startswith s "<"%char then
        threshold <- py_float (strip (tail s)) ;; cell_lt v threshold
      else Some (value_eqb v (VStr s))
  | CScalar lit => Some (value_eqb v lit)
  end.

(** The test of one condition on one row: false when the frame has no
    such column. *)
Definition row_test (df : DataFrame) (condition_key : string)
  (condition_value : cond_value) (r : Row) : option bool :=
  if has_column df condition_key
  then condition_test (cells r condition_key) condition_value
  else Some false.

(** The threshold of a comparison parses. *)
Definition threshold_ok (condition_value : cond_value) : Prop :=
  match condition_value with
  | CScalar (VStr s) =>
      if (startswith s ">"%char || startswith s "<"%char)%bool
      then py_float (strip (tail s)) <> None
      else True
  | _ => True
  end.

(** The conjunction of the conditions on a row read with its flag set. *)
Definition row_flag (df : DataFrame) (flag : string)
  (conds : list (string * cond_value)) (r : Row) : bool :=
  forallb (fun kc =>
             match row_test df (fst kc) (snd kc)
                            (set_cell flag (VBool true) r) with
             | Some true => true
             | _ => false
             end) conds.

(** What the specification says of one condition: a list is membership,
    a string that begins with [>] or [<] a strict comparison with the
    parsed threshold, any other literal equality. *)
Inductive condition_holds (v : value) : cond_value -> Prop :=
| holds_member (values : list value) :
    (exists u, In u values /\ value_same v u = true) ->
    condition_holds v (CList values)
| holds_greater (s : string) (threshold x : Q) :
    startswith s ">"%char = true ->
    py_float (strip (tail s)) = Some threshold ->
    num_of v = Some x ->
    (threshold < x)%Q ->
    condition_holds v (CScalar (VStr s))
| holds_less (s : string) (threshold x : Q) :
    startswith s ">"%char = false ->
    startswith s "<"%char = true ->
    py_float (strip (tail s)) = Some threshold ->
    num_of v = Some x ->
    (x < threshold)%Q ->
    condition_holds v (CScalar (VStr s))
| holds_equal (lit : value) :
    is_comparison lit = false ->
    value_eqb v lit = true ->
    condition_holds v (CScalar lit).

(** The composite evaluation raises nothing: every threshold parses, and
    no comparison meets a string in a column of the table. *)
Definition evaluable (df : DataFrame) (metric : Metric) : Prop :=
  forall k cv,
    In (k, cv) (conditions metric) ->
    threshold_ok cv
    /\ (is_comparison (match cv with CScalar lit => lit | _ => VNone end)
        = true ->
        k <> flag_column (metric_name metric) ->
        has_column df k = true ->
        forall r, In r (rows df) -> is_str (cells r k) = false).

End Rules.

(** The state of the loop over the conditions: the flag of a row is the
    conjunction [acc] of the conditions met so far. *)
Definition composite_state (flag : string) (acc : Row -> bool) (r rc : Row)
  : Prop :=
  idx r = idx rc
  /\ (forall c, c <> flag -> cells rc c = cells r c)
  /\ cells rc flag = VBool (acc r).

(** The rule of the specification's example, and a rule on a field the
    table lacks. *)
Definition rule_metric : Metric :=
  mkMetric "Exit Frag" "composite" None None
           [("a", CList [VNum 1; VNum 2]); ("b", CScalar (VStr ">3"))].

Definition absent_field_metric : Metric :=
  mkMetric "Exit Frag" "composite" None None
           [("a", CList [VNum 1; VNum 2]); ("c", CScalar (VStr "kill"))].

Definition rule_table : DataFrame :=
  DataFrame_of [[("a", VNum 1); ("b", VNum 4)];
                [("a", VNum 3); ("b", VNum 5)];
                [("a", VNum 2); ("b", VNum 3)]].

(** ** The trade-kill pass in closed form *)

Definition trade_names (c : string) : Prop :=
  In c ["is_trade_kill"; "time_since_teammate_death";
        "distance_to_teammate_death"].

Definition trade_columns (cols : list string) : Prop :=
  existsb (String.eqb "is_trade_kill") cols = true
  /\ existsb (String.eqb "time_since_teammate_death") cols = true
  /\ existsb (String.eqb "distance_to_teammate_death") cols = true.

(** The frame the temporal pass sorts: the three columns reset. *)
Definition reset_trades (df : DataFrame) : DataFrame :=
  assign (assign (assign df "is_trade_kill" (VBool false))
                 "time_since_teammate_death" VNone)
         "distance_to_teammate_death" VNone.

(** [df['eventType'] == 'kill'] on one row. *)
Definition kill_row (r : Row) : bool :=
  value_eqb (cells r "eventType") (VStr "kill").

Section TradeRows.

Context {rt : PyRuntime}.

(** What the loop body computes for a kill: [None] is an exception,
    [Some None] is no recent death, otherwise the time since the last
    recent death and the distance to it. *)
Definition trade_values (df : DataFrame) (rs : list Row) (kill_event : Row)
  : option (option (value * value)) :=
  let killer_team := row_get df kill_event "killerTeam" VNone in
  let kill_time := row_get df kill_event "gameTime" (VNum 0) in
  let kill_x := row_get df kill_event "killerX" (VNum 0) in
  let kill_y := row_get df kill_event "killerY" (VNum 0) in
  if has_column df "victimTeam" then
    match List.rev (filter (recent_death killer_team kill_time) rs) with
    | [] => Some None
    | last_death :: _ =>
        let death_x := row_get df last_death "victimX" (VNum 0) in
        let death_y := row_get df last_death "victimY" (VNum 0) in
        distance <- _calculate_distance kill_x kill_y death_x death_y ;;
        Some (Some (num_sub kill_time
                            (row_get df last_death "gameTime" (VNum 0)),
                    distance))
    end
  else None.

(** The cells the loop body writes on the kill. *)
Definition trade_write (tv : option (value * value)) (r : Row) : Row :=
  match tv with
  | None => r
  | Some (time_diff, distance) =>
      let r := set_cell "time_since_teammate_death" time_diff r in
      let r := set_cell "distance_to_teammate_death" distance r in
      if num_leb distance (VNum 15)
      then set_cell "is_trade_kill" (VBool true) r
      else r
  end.

(** The loop over the kills, on the rows: every kill is written with the
    values computed on the rows [all] of the sorted frame. *)
Fixpoint trade_rows (df : DataFrame) (all rs : list Row)
  : option (list Row) :=
  match rs with
  | [] => Some []
  | r :: rs' =>
      if kill_row r then
        tv <- trade_values df all r ;;
        rest <- trade_rows df all rs' ;;
        Some (trade_write tv r :: rest)
      else
        rest <- trade_rows df all rs' ;;
        Some (r :: rest)
  end.

End TradeRows.

(** A row is a recent death for a kill of side [team] at time [t]: a kill
    event whose victim is of that side, at a time in [t - 3, t). *)
Definition qualifies (team : value) (t : value) (v : Row) : Prop :=
  value_eqb (cells v "eventType") (VStr "kill") = true
  /\ value_eqb (cells v "victimTeam") team = true
  /\ exists tv tk,
       num_of (cells v "gameTime") = Some tv
       /\ num_of t = Some tk
       /\ (tk - 3 <= tv)%Q /\ (tv < tk)%Q.

(** The order of [sort_values] as a relation on rows. *)
Definition key_le (c : string) (a b : Row) : Prop :=
  key_leb (cells a c) (cells b c) = true.

(** What the program relies on from the library's sort: the rows come
    back permuted, in ascending order of the key with missing values
    last, and the permutation is chosen from the keys alone. *)
Class PySort (rt : PyRuntime) : Prop := {
  sort_rows_perm : forall c rs, Permutation (sort_rows c rs) rs;
  sort_rows_sorted : forall c rs, StronglySorted (key_le c) (sort_rows c rs);
  sort_rows_map :
    forall c (f : Row -> Row) rs,
      (forall r, cells (f r) c = cells r c) ->
      sort_rows c (map f rs) = map f (sort_rows c rs)
}.

(** The number [row.get(c, 0)] stands for: 0 when the table has no such
    column, none when the cell is missing. *)
Definition coordinate (df : DataFrame) (r : Row) (c : string) : option Q :=
  if has_column df c then num_of (cells r c) else Some 0%Q.

(** The columns the temporal pass reads. *)
Definition temporal_reads : list string :=
  ["eventType"; "victimTeam"; "gameTime"; "killerTeam"; "killerX";
   "killerY"; "victimX"; "victimY"].

(** No column of [reads] is in [X]; two frames hold the same columns of
    [reads]. *)
Definition outside (X : string -> Prop) (reads : list string) : Prop :=
  forall c, In c reads -> ~ X c.

Definition same_presence (df df' : DataFrame) (reads : list string) : Prop :=
  forall c, In c reads -> has_column df c = has_column df' c.

(** The row as the temporal pass resets it. *)
Definition reset_row (r : Row) : Row :=
  set_cell "distance_to_teammate_death" VNone
    (set_cell "time_since_teammate_death" VNone
       (set_cell "is_trade_kill" (VBool false) r)).

(** No cell of the columns [cs] holds a string. *)
Definition no_strings (df : DataFrame) (cs : list string) : Prop :=
  forall r c, In r (rows df) -> In c cs -> is_str (cells r c) = false.

(** Two kills of an exchange: a Cloud9 player dies at (3,4), and a Cloud9
    player kills from (0,0) two seconds later; a third kill comes late. *)
Definition duel_event (time : Q) (killer victim : string)
  (kx ky vx vy : Q) : list (string * value) :=
  [("eventType", VStr "kill"); ("gameTime", VNum time);
   ("roundNumber", VNum 1);
   ("killerTeam", VStr killer); ("victimTeam", VStr victim);
   ("killerX", VNum kx); ("killerY", VNum ky);
   ("victimX", VNum vx); ("victimY", VNum vy)].

Definition exchange : DataFrame :=
  DataFrame_of [duel_event 12 "Cloud9" "Sentinels" 0 0 9 9;
                duel_event 10 "Sentinels" "Cloud9" 20 20 3 4;
                duel_event 30 "Cloud9" "Sentinels" 0 0 1 1].

(** ** What a definition reads and writes *)

(** Two frames with the same rows in the same order that agree, cells and
    columns, outside [X]. *)
Definition agree (X : string -> Prop) (t u : DataFrame) : Prop :=
  (forall c, ~ X c -> has_column t c = has_column u c)
  /\ Forall2 (agree_row X) (rows t) (rows u).

Definition minus (X : string -> Prop) (W : list string) : string -> Prop :=
  fun c => X c /\ ~ In c W.

Definition stamp_list : list string :=
  ["players_alive_team"; "players_alive_enemy"; "player_advantage";
   "situation_type"].

Definition trade_list : list string :=
  ["is_trade_kill"; "time_since_teammate_death";
   "distance_to_teammate_death"].






(** The rows are in the order [sort_values('gameTime')] gives. *)
Definition time_ordered (df : DataFrame) : Prop :=
  Sorted (key_le "gameTime") (rows df).

(** The frame of a successful run. *)
Definition the (o : option DataFrame) : DataFrame :=
  match o with
  | Some df => df
  | None => mkDF [] []
  end.

(** Two frames with the same columns, the same labels in the same order
    and the same cells. *)
Definition same_frame (t u : DataFrame) : Prop := agree (fun _ => False) t u.

(** The columns the situational pass writes for a definition. *)
Definition situational_writes (metric : Metric) : list string :=
  if String.eqb (metric_name metric) "Clutch_Situations" then stamp_list
  else [].

(** ** The spatial pass row by row *)

(** A fallible function applied to every row: the exception of the first
    row that raises. *)
Fixpoint all_rows (f : Row -> option Row) (rs : list Row)
  : option (list Row) :=
  match rs with
  | [] => Some []
  | r :: rs' => r' <- f r ;; rest <- all_rows f rs' ;; Some (r' :: rest)
  end.

(** [metric.get('map', 'Unknown')] *)
Definition map_label_of (metric : Metric) : string :=
  match map_name metric with
  | Some m => m
  | None => "Unknown"
  end.

(** Lines 162 and 163: the center, an omitted bound counting as 0. *)
Definition zone_center (b : Bounds) : Q * Q :=
  (((option_default 0 (x_min b) + option_default 0 (x_max b)) / 2)%Q,
   ((option_default 0 (y_min b) + option_default 0 (y_max b)) / 2)%Q).

(** The columns the spatial pass writes for a definition on a frame. *)
Definition spatial_writes (metric : Metric) (df : DataFrame) : list string :=
  match bounds metric with
  | Some _ =>
      zone_column (metric_name metric)
      :: (if (has_column df "playerX" && has_column df "playerY")%bool
          then [distance_column (metric_name metric)] else [])
  | None => []
  end.

Section SpatialRows.

Context {rt : PyRuntime}.

(** The distance of the event to the center on a table with both position
    columns. *)
Definition position_distance (center : Q * Q) (r : Row) : option value :=
  match cells r "playerX" with
  | VNone => Some VNone
  | _ =>
      _calculate_distance (cells r "playerX") (cells r "playerY")
                          (VNum (fst center)) (VNum (snd center))
  end.

(** What the pass does to one row of a table with both position columns:
    the flag reset, set when the test holds, and the distance written. *)
Definition spatial_row (metric : Metric) (b : Bounds) (r : Row)
  : option Row :=
  let column_name := zone_column (metric_name metric) in
  flag <- in_zone (map_label_of metric) b r ;;
  distance <- position_distance (zone_center b) r ;;
  let r := set_cell column_name (VBool false) r in
  let r := if flag then set_cell column_name (VBool true) r else r in
  Some (set_cell (distance_column (metric_name metric)) distance r).

End SpatialRows.

(** The columns the temporal pass writes for a definition, and the order
    it leaves the rows in. *)
Definition temporal_writes (metric : Metric) : list string :=
  if String.eqb (metric_name metric) "Trade_Efficiency" then trade_list
  else [].

Definition temporal_order {rt : PyRuntime} (metric : Metric)
  (rs : list Row) : list Row :=
  if String.eqb (metric_name metric) "Trade_Efficiency"
  then sort_rows "gameTime" rs else rs.

(** ** The counters as the specification reads them off the table *)

(** The event is a kill whose victim is of [team]; the event is no kill. *)
Definition kill_of (df : DataFrame) (team : string) (e : Row) : Prop :=
  has_column df "eventType" = true /\ cells e "eventType" = VStr "kill"
  /\ has_column df "victimTeam" = true /\ cells e "victimTeam" = VStr team.

Definition not_a_kill (df : DataFrame) (e : Row) : Prop :=
  has_column df "eventType" = false \/ cells e "eventType" <> VStr "kill".

(** The counters after an event, given those before it: neither grows; a
    kill of a ['Team A'] victim takes one from the first and a kill of a
    ['Team B'] victim one from the second, the other counter staying; an
    event that is no kill changes neither. *)
Definition counters_step (df : DataFrame) (before : Z * Z) (e : Row)
  (after : Z * Z) : Prop :=
  (fst after <= fst before /\ snd after <= snd before)%Z
  /\ (kill_of df "Team A" e -> after = (fst before - 1, snd before)%Z)
  /\ (kill_of df "Team B" e -> after = (fst before, snd before - 1)%Z)
  /\ (not_a_kill df e -> after = before).

(** The counters along a list of events, one pair per event. *)
Fixpoint counters_follow (df : DataFrame) (before : Z * Z)
  (events : list Row) (stamps : list (Z * Z)) : Prop :=
  match events, stamps with
  | [], [] => True
  | e :: events', after :: stamps' =>
      counters_step df before e after
      /\ counters_follow df after events' stamps'
  | _, _ => False
  end.

(** The frame carries the two counters and their difference on the event. *)
Definition stamped_with (df' : DataFrame) (e : Row) (st : Z * Z) : Prop :=
  cell df' (idx e) "players_alive_team" = Some (VNum (inject_Z (fst st)))
  /\ cell df' (idx e) "players_alive_enemy"
     = Some (VNum (inject_Z (snd st)))
  /\ cell df' (idx e) "player_advantage"
     = Some (VNum (inject_Z (fst st - snd st))).

(** Rules on the definition's own flag, a field the table does not hold. *)
Definition own_flag_metric (cv : cond_value) : Metric :=
  mkMetric "Exit Frag" "composite" None None [("is_exit_frag", cv)].



(** A sort that puts rows with equal keys in the reverse of their order,
    and a runtime with it. *)
Definition reversing_sort (c : string) (rs : list Row) : list Row :=
  stable_sort c (List.rev rs).

Definition reversing_runtime : PyRuntime :=
  {| py_float := integer_float; math_sqrt := exact_sqrt;
     sort_rows := reversing_sort |}.

(** Example tables. *)
Definition clutch_metric : Metric :=
  mkMetric "Clutch_Situations" "situational" None None [].

Definition trade_metric : Metric :=
  mkMetric "Trade_Efficiency" "temporal" None None [].

Definition kill_event (round : Z) (time : Q) (killer victim : string)
  : list (string * value) :=
  [("eventType", VStr "kill"); ("gameTime", VNum time);
   ("roundNumber", VNum (inject_Z round));
   ("killerTeam", VStr killer); ("victimTeam", VStr victim)].

Definition damage_event (round : Z) (time : Q) : list (string * value) :=
  [("eventType", VStr "damage"); ("gameTime", VNum time);
   ("roundNumber", VNum (inject_Z round))].

(** One kill between the teams of the demo data. *)
Definition demo_kill : DataFrame :=
  DataFrame_of [kill_event 1 5 "Cloud9" "Sentinels"].

(** A damage event logged before an earlier kill. *)
Definition late_arrival : DataFrame :=
  DataFrame_of [damage_event 1 10; kill_event 1 5 "Team B" "Team A"].

(** Six deaths of the same side in one round. *)
Definition six_deaths : DataFrame :=
  DataFrame_of [kill_event 1 1 "Team B" "Team A";
                kill_event 1 2 "Team B" "Team A";
                kill_event 1 3 "Team B" "Team A";
                kill_event 1 4 "Team B" "Team A";
                kill_event 1 5 "Team B" "Team A";
                kill_event 1 6 "Team B" "Team A"].

(** A kill of round 1 and a kill logged without a round number. *)
Definition unnumbered_event : list (string * value) :=
  [("eventType", VStr "kill"); ("victimTeam", VStr "Team A")].

Definition unnumbered : DataFrame :=
  DataFrame_of [kill_event 1 1 "Team B" "Team A"; unnumbered_event].

(** Positions logged without a map column. *)
Definition unmapped_positions : DataFrame :=
  DataFrame_of [[("playerX", VNum 1); ("playerY", VNum 2)]].

(** A position, and an event of the same map without one. *)
Definition partial_positions : DataFrame :=
  DataFrame_of [position_event 500 1200;
                [("eventType", VStr "round_start"); ("map", VStr "Ascent")]].

(** Two damage events, logged out of order, without team columns. *)
Definition damage_only : DataFrame :=
  DataFrame_of [damage_event 1 10; damage_event 1 5].






Definition simultaneous : DataFrame :=
  DataFrame_of [kill_event 1 7 "Team B" "Team A"; damage_event 1 7].


(** * Properties *)

(** ** Cell equality is a partial equivalence *)

Lemma value_eqb_sym (a b : value) : value_eqb a b = value_eqb b a.
Proof.
  destruct a as [p|s|[]|], b as [q|t|[]|]; simpl; trivial;
    try apply Qeq_bool_comm.
  apply String.eqb_sym.
Qed.

Lemma value_eqb_trans (a b c : value) :
  value_eqb a b = true -> value_eqb b c = true -> value_eqb a c = true.
Proof.
  destruct a as [p|s|[]|], b as [q|t|[]|], c as [u|w|[]|]; simpl;
    try discriminate; trivial;
    try (intros H1 H2; exact (Qeq_bool_trans _ _ _ H1 H2)).
  intros H1 H2. apply String.eqb_eq in H1, H2. subst. apply String.eqb_refl.
Qed.

(** Two equal round numbers select the same rows. *)
Lemma value_eqb_right (a b : value) :
  value_eqb a b = true -> forall v, value_eqb v a = value_eqb v b.
Proof.
  intros H v.
  destruct (value_eqb v a) eqn:Ha.
  - symmetry. exact (value_eqb_trans _ _ _ Ha H).
  - destruct (value_eqb v b) eqn:Hb; trivial.
    rewrite value_eqb_sym in H.
    rewrite (value_eqb_trans _ _ _ Hb H) in Ha. discriminate.
Qed.

Lemma value_same_refl (a : value) : value_same a a = true.
Proof.
  destruct a as [p|s|[]|]; simpl; trivial.
  - apply Qeq_bool_refl.
  - apply String.eqb_refl.
Qed.

Lemma value_same_eqb (a b : value) :
  value_same a b = true -> value_eqb b b = true -> value_eqb a b = true.
Proof.
  destruct a as [p|s|[]|], b as [q|t|[]|]; simpl; trivial.
Qed.

Lemma value_same_trans (a b c : value) :
  value_same a b = true -> value_same b c = true -> value_same a c = true.
Proof.
  destruct a as [p|s|[]|], b as [q|t|[]|], c as [u|w|[]|]; simpl;
    try discriminate; trivial;
    try (intros H1 H2; exact (Qeq_bool_trans _ _ _ H1 H2)).
  intros H1 H2. apply String.eqb_eq in H1, H2. subst. apply String.eqb_refl.
Qed.

(** Every value of a column has a representative in [unique]. *)
Lemma unique_covers (l : list value) (v : value) :
  In v l -> exists u, In u (unique l) /\ value_same u v = true.
Proof.
  induction l as [|a l IH]; simpl; [easy|].
  intros [->|Hin].
  - exists v. split; [now left | apply value_same_refl].
  - destruct (IH Hin) as (u & Hu & Huv).
    destruct (value_same a u) eqn:Hau.
    + exists a. split; [now left | exact (value_same_trans _ _ _ Hau Huv)].
    + exists u. split; [|exact Huv].
      right. apply filter_In. split; [exact Hu | now rewrite Hau].
Qed.

(** ** Frame primitives *)

Lemma existsb_add_column (cols : list string) (c c' : string) :
  existsb (String.eqb c) (add_column cols c')
  = (existsb (String.eqb c) cols || String.eqb c c')%bool.
Proof.
  unfold add_column.
  destruct (existsb (String.eqb c') cols) eqn:E.
  - destruct (String.eqb c c') eqn:Ec.
    + apply String.eqb_eq in Ec. subst. now rewrite E.
    + now rewrite orb_false_r.
  - rewrite existsb_app. simpl. now rewrite orb_false_r.
Qed.

Lemma add_column_present (cols : list string) (c : string) :
  existsb (String.eqb c) cols = true -> add_column cols c = cols.
Proof. unfold add_column. now intros ->. Qed.

Lemma has_column_assign (df : DataFrame) (c : string) (v : value)
  (c' : string) :
  has_column (assign df c v) c' = (has_column df c' || String.eqb c' c)%bool.
Proof. apply existsb_add_column. Qed.

Lemma index_assign (df : DataFrame) (c : string) (v : value) :
  index (assign df c v) = index df.
Proof.
  unfold index, assign. simpl. rewrite map_map. now apply map_ext.
Qed.

Lemma map_other_labels (f : Row -> Row) (i : nat) (l : list Row) :
  ~ In i (map idx l) ->
  map (fun r => if Nat.eqb (idx r) i then f r else r) l = l.
Proof.
  induction l as [|a l IH]; simpl; [easy|].
  intros H.
  destruct (Nat.eqb (idx a) i) eqn:E.
  - apply Nat.eqb_eq in E. tauto.
  - rewrite IH by tauto. reflexivity.
Qed.

Lemma loc_app (cols : list string) (pre suf : list Row) (r : Row) :
  ~ In (idx r) (map idx pre) ->
  loc (mkDF cols (pre ++ r :: suf)) (idx r) = Some r.
Proof.
  unfold loc. simpl.
  induction pre as [|a pre IH]; simpl; intros H.
  - now rewrite Nat.eqb_refl.
  - destruct (Nat.eqb (idx a) (idx r)) eqn:E.
    + apply Nat.eqb_eq in E. tauto.
    + apply IH. tauto.
Qed.

Lemma at_set_app (cols : list string) (pre suf : list Row) (r : Row)
  (c : string) (v : value) :
  existsb (String.eqb c) cols = true ->
  ~ In (idx r) (map idx pre) ->
  ~ In (idx r) (map idx suf) ->
  at_set (mkDF cols (pre ++ r :: suf)) (idx r) c v
  = mkDF cols (pre ++ set_cell c v r :: suf).
Proof.
  intros Hc Hpre Hsuf. unfold at_set. simpl.
  rewrite (add_column_present _ _ Hc), map_app. simpl.
  rewrite Nat.eqb_refl, !map_other_labels by assumption.
  reflexivity.
Qed.

Lemma NoDup_middle (pre suf : list Row) (r : Row) :
  NoDup (map idx (pre ++ r :: suf)) ->
  ~ In (idx r) (map idx pre) /\ ~ In (idx r) (map idx suf).
Proof.
  rewrite map_app. simpl. intros H.
  apply NoDup_remove_2 in H. rewrite in_app_iff in H. tauto.
Qed.

(** ** The situational pass is the row-order machine *)

Lemma idx_stamp (ta ea : Z) (r : Row) : idx (stamp ta ea r) = idx r.
Proof.
  unfold stamp.
  repeat match goal with
         | |- context [if ?b then _ else _] => destruct b
         end; reflexivity.
Qed.

Lemma record_state_app (cols : list string) (pre suf : list Row) (r : Row)
  (ta ea : Z) :
  stamp_columns cols ->
  NoDup (map idx (pre ++ r :: suf)) ->
  record_state (mkDF cols (pre ++ r :: suf)) (idx r) ta ea
  = mkDF cols (pre ++ stamp ta ea r :: suf).
Proof.
  intros (H1 & H2 & H3 & H4) Hnd.
  destruct (NoDup_middle _ _ _ Hnd) as [Hpre Hsuf].
  unfold record_state, stamp.
  rewrite (at_set_app cols pre suf r) by assumption.
  rewrite (at_set_app cols pre suf (set_cell _ _ r)) by assumption.
  rewrite (at_set_app cols pre suf (set_cell _ _ (set_cell _ _ r)))
    by assumption.
  destruct (ta - ea =? 0)%Z; [|destruct (ta - ea >? 0)%Z];
    rewrite (at_set_app cols pre suf
               (set_cell _ _ (set_cell _ _ (set_cell _ _ r))))
      by assumption;
    (destruct ((ta =? 1)%Z && (ea >? 1)%Z)%bool; [|reflexivity]);
    now rewrite (at_set_app cols pre suf
                   (set_cell _ _
                      (set_cell _ _ (set_cell _ _ (set_cell _ _ r)))))
      by assumption.
Qed.

Lemma update_alive_columns (df df' : DataFrame) (r : Row) (ta ea : Z) :
  columns df = columns df' ->
  update_alive df r ta ea = update_alive df' r ta ea.
Proof.
  intros H. unfold update_alive, row_get, has_column. now rewrite H.
Qed.

(** The inner loop, started on the rows [suf] that are still to visit,
    leaves the frame [stamp_round] describes. *)
Lemma situational_fold (df0 : DataFrame) (round_num : value)
  (suf pre : list Row) (st : Z * Z) :
  stamp_columns (columns df0) ->
  NoDup (map idx (pre ++ suf)) ->
  exists st',
    fold_left (fun s i => s <- s ;; situational_event i s)
              (map idx (filter (in_round round_num) suf))
              (Some (mkDF (columns df0) (pre ++ suf), fst st, snd st))
    = Some (mkDF (columns df0) (pre ++ stamp_round df0 round_num st suf),
            fst st', snd st').
Proof.
  intros Hcols. revert pre st.
  induction suf as [|r suf IH]; intros pre st Hnd; simpl.
  - now exists st.
  - destruct (in_round round_num r) eqn:E; simpl.
    + rewrite loc_app by (apply (NoDup_middle _ _ _ Hnd)).
      cbn [bind].
      rewrite (update_alive_columns _ df0) by reflexivity.
      fold (alive_step df0 st r).
      destruct (alive_step df0 st r) as [ta ea] eqn:Est.
      rewrite record_state_app by assumption.
      specialize (IH (pre ++ [stamp ta ea r]) (ta, ea)).
      rewrite <- !app_assoc in IH. simpl in IH.
      apply IH.
      rewrite map_app in *. simpl in *. now rewrite idx_stamp.
    + specialize (IH (pre ++ [r]) st).
      rewrite <- !app_assoc in IH. simpl in IH.
      now apply IH.
Qed.

Lemma situational_round_rows (df : DataFrame) (round_num : value) :
  stamp_columns (columns df) ->
  NoDup (index df) ->
  situational_round round_num df
  = Some (mkDF (columns df) (stamp_round df round_num (5, 5)%Z (rows df))).
Proof.
  intros Hcols Hnd. unfold situational_round, index_where.
  destruct (situational_fold df round_num (rows df) [] (5, 5)%Z Hcols Hnd)
    as (st' & H).
  simpl in H. destruct df as [cols rs]. simpl in *.
  change (fun r : Row => value_eqb (cells r "roundNumber") round_num)
    with (in_round round_num).
  now rewrite H.
Qed.

Lemma agree_row_refl (X : string -> Prop) (r : Row) : agree_row X r r.
Proof. now split. Qed.

Lemma agree_row_trans (X : string -> Prop) (r1 r2 r3 : Row) :
  agree_row X r1 r2 -> agree_row X r2 r3 -> agree_row X r1 r3.
Proof.
  intros [H1 H2] [H3 H4]. split; [congruence|].
  intros c Hc. now rewrite H2, H4.
Qed.

Lemma agree_rows_refl (X : string -> Prop) (rs : list Row) :
  Forall2 (agree_row X) rs rs.
Proof. induction rs; constructor; auto using agree_row_refl. Qed.

Lemma agree_rows_trans (X : string -> Prop) (l1 l2 l3 : list Row) :
  Forall2 (agree_row X) l1 l2 -> Forall2 (agree_row X) l2 l3 ->
  Forall2 (agree_row X) l1 l3.
Proof.
  intros H. revert l3.
  induction H; intros l3 H3; inversion H3; subst; constructor;
    eauto using agree_row_trans.
Qed.

Lemma agree_rows_index (X : string -> Prop) (l1 l2 : list Row) :
  Forall2 (agree_row X) l1 l2 -> map idx l1 = map idx l2.
Proof. induction 1 as [|? ? ? ? [H _]]; simpl; congruence. Qed.

Lemma Forall2_In_l {A B : Type} (R : A -> B -> Prop) (l : list A)
  (l' : list B) (a : A) :
  Forall2 R l l' -> In a l -> exists b, In b l' /\ R a b.
Proof.
  induction 1; simpl; [easy|].
  intros [->|Hin]; [eauto|].
  destruct (IHForall2 Hin) as (b & ? & ?). eauto.
Qed.

Lemma set_cell_other (c : string) (v : value) (r : Row) (c' : string) :
  c' <> c -> cells (set_cell c v r) c' = cells r c'.
Proof. intros H. simpl. apply String.eqb_neq in H. now rewrite H. Qed.

Lemma stamp_agree (ta ea : Z) (r : Row) :
  agree_row stamp_names r (stamp ta ea r).
Proof.
  split; [now rewrite idx_stamp|].
  intros c Hc. unfold stamp_names in Hc. simpl in Hc.
  assert (H1 : c <> "players_alive_team") by (intros ->; tauto).
  assert (H2 : c <> "players_alive_enemy") by (intros ->; tauto).
  assert (H3 : c <> "player_advantage") by (intros ->; tauto).
  assert (H4 : c <> "situation_type") by (intros ->; tauto).
  unfold stamp.
  repeat match goal with
         | |- context [if ?b then _ else _] => destruct b
         end;
    now rewrite ?set_cell_other by assumption.
Qed.

Lemma stamp_round_agree (df : DataFrame) (round_num : value)
  (rs : list Row) (st : Z * Z) :
  Forall2 (agree_row stamp_names) rs (stamp_round df round_num st rs).
Proof.
  revert st. induction rs as [|r rs IH]; intros st; simpl; [constructor|].
  destruct (in_round round_num r); constructor;
    auto using stamp_agree, agree_row_refl.
Qed.

(** The cells [stamp] writes do not depend on the row they are written
    on. *)
Lemma stamp_cells (ta ea : Z) (r : Row) :
  cells (stamp ta ea r) "players_alive_team" = VNum (inject_Z ta)
  /\ cells (stamp ta ea r) "players_alive_enemy" = VNum (inject_Z ea)
  /\ cells (stamp ta ea r) "player_advantage" = VNum (inject_Z (ta - ea))
  /\ cells (stamp ta ea r) "situation_type"
     = VStr (situation_label (ta, ea)).
Proof.
  unfold stamp, situation_label. simpl fst. simpl snd.
  destruct ((ta =? 1)%Z && (ea >? 1)%Z)%bool;
    destruct (ta - ea =? 0)%Z; destruct (ta - ea >? 0)%Z;
    repeat split; reflexivity.
Qed.

Lemma stamp_cells_same (ta ea : Z) (r r' : Row) (c : string) :
  stamp_names c -> cells (stamp ta ea r) c = cells (stamp ta ea r') c.
Proof.
  intros Hc.
  destruct (stamp_cells ta ea r) as (A1 & A2 & A3 & A4).
  destruct (stamp_cells ta ea r') as (B1 & B2 & B3 & B4).
  unfold stamp_names in Hc. simpl in Hc.
  destruct Hc as [<-|[<-|[<-|[<-|[]]]]]; congruence.
Qed.

(** What the step and the round test read is outside the stamped
    columns. *)
Lemma in_round_agree (round_num : value) (r r' : Row) :
  agree_row stamp_names r r' -> in_round round_num r = in_round round_num r'.
Proof.
  intros [_ H]. unfold in_round. rewrite (H "roundNumber"); [reflexivity|].
  unfold stamp_names. simpl. intuition discriminate.
Qed.

Lemma alive_step_agree (df df' : DataFrame) (st : Z * Z) (r r' : Row) :
  has_column df "eventType" = has_column df' "eventType" ->
  has_column df "victimTeam" = has_column df' "victimTeam" ->
  agree_row stamp_names r r' ->
  alive_step df st r = alive_step df' st r'.
Proof.
  intros H1 H2 [_ H]. unfold alive_step, update_alive, row_get.
  rewrite H1, H2, (H "eventType"), (H "victimTeam");
    [reflexivity| |]; unfold stamp_names; simpl; intuition discriminate.
Qed.

(** Two runs of the machine over agreeing rows give the same counters. *)
Lemma machine_agree (df df' : DataFrame) (rv rv' : value)
  (rs rs' : list Row) (st : Z * Z) :
  has_column df "eventType" = has_column df' "eventType" ->
  has_column df "victimTeam" = has_column df' "victimTeam" ->
  (forall v, value_eqb v rv = value_eqb v rv') ->
  Forall2 (agree_row stamp_names) rs rs' ->
  Forall2 (fun t t' => agree_row stamp_names (fst (fst t)) (fst (fst t'))
                       /\ snd (fst t) = snd (fst t') /\ snd t = snd t')
          (machine (alive_step df) st (filter (in_round rv) rs))
          (machine (alive_step df') st (filter (in_round rv') rs')).
Proof.
  intros H1 H2 Hrv H. revert st.
  induction H as [|r r' rs rs' Hr Hrs IH]; intros st; simpl; [constructor|].
  assert (E : in_round rv' r' = in_round rv r).
  { rewrite <- (in_round_agree rv' r r' Hr). unfold in_round.
    symmetry. apply Hrv. }
  rewrite E.
  destruct (in_round rv r); simpl; [|apply IH].
  rewrite <- (alive_step_agree df df' st r r' H1 H2 Hr).
  constructor; [auto|apply IH].
Qed.

(** An event of the round is stamped by the pass with the counters the
    machine has after it. *)
Lemma stamp_round_trace (df : DataFrame) (round_num : value)
  (rs : list Row) (st : Z * Z) (e : Row) (before after : Z * Z) :
  In (e, before, after)
     (machine (alive_step df) st (filter (in_round round_num) rs)) ->
  In (stamp (fst after) (snd after) e) (stamp_round df round_num st rs).
Proof.
  revert st. induction rs as [|r rs IH]; intros st; simpl; [easy|].
  destruct (in_round round_num r); simpl.
  - intros [H|H]; [injection H as <- <- <-; now left | right; eauto].
  - intros H. right. eauto.
Qed.

Lemma stamp_round_other (df : DataFrame) (round_num : value)
  (rs : list Row) (st : Z * Z) (r : Row) :
  In r rs -> in_round round_num r = false ->
  In r (stamp_round df round_num st rs).
Proof.
  revert st. induction rs as [|a rs IH]; intros st; simpl; [easy|].
  intros [->|Hin] Hr.
  - rewrite Hr. now left.
  - destruct (in_round round_num a); right; auto.
Qed.

Lemma stamp_round_columns (df df' : DataFrame) (round_num : value)
  (rs : list Row) (st : Z * Z) :
  columns df = columns df' ->
  stamp_round df round_num st rs = stamp_round df' round_num st rs.
Proof.
  intros H. revert st. induction rs as [|r rs IH]; intros st; simpl.
  - reflexivity.
  - unfold alive_step. rewrite (update_alive_columns df df') by assumption.
    now rewrite !IH.
Qed.

Lemma stamp_round_index (df : DataFrame) (round_num : value)
  (rs : list Row) (st : Z * Z) :
  map idx (stamp_round df round_num st rs) = map idx rs.
Proof.
  symmetry. exact (agree_rows_index _ _ _ (stamp_round_agree _ _ _ _)).
Qed.

Lemma stamp_rounds_columns (df df' : DataFrame) (round_numbers : list value)
  (rs : list Row) :
  columns df = columns df' ->
  stamp_rounds df round_numbers rs = stamp_rounds df' round_numbers rs.
Proof.
  intros H. unfold stamp_rounds. revert rs.
  induction round_numbers as [|rv rvs IH]; intros rs; simpl; [reflexivity|].
  now rewrite (stamp_round_columns df df') by assumption.
Qed.

(** The outer loop is the sequence of passes. *)
Lemma situational_rounds_rows (round_numbers : list value) (df : DataFrame) :
  stamp_columns (columns df) ->
  NoDup (index df) ->
  fold_left (fun s round_num => df <- s ;; situational_round round_num df)
            round_numbers (Some df)
  = Some (mkDF (columns df) (stamp_rounds df round_numbers (rows df))).
Proof.
  revert df. induction round_numbers as [|rv rvs IH]; intros df Hc Hnd.
  - now destruct df.
  - simpl. rewrite situational_round_rows by assumption.
    rewrite IH; simpl; trivial.
    + f_equal. f_equal. now apply stamp_rounds_columns.
    + unfold index. simpl. now rewrite stamp_round_index.
Qed.

Lemma NoDup_idx_inj (l : list Row) (a b : Row) :
  NoDup (map idx l) -> In a l -> In b l -> idx a = idx b -> a = b.
Proof.
  induction l as [|x l IH]; simpl; [easy|].
  intros Hnd Ha Hb E. inversion Hnd as [|? ? Hx Hl]; subst.
  destruct Ha as [->|Ha], Hb as [->|Hb]; trivial.
  - exfalso. apply Hx. rewrite E. now apply in_map.
  - exfalso. apply Hx. rewrite <- E. now apply in_map.
  - auto.
Qed.

Lemma loc_In (df : DataFrame) (r : Row) :
  NoDup (index df) -> In r (rows df) -> loc df (idx r) = Some r.
Proof.
  unfold index, loc. intros Hnd Hin.
  destruct (in_split _ _ Hin) as (pre & suf & E).
  rewrite E in *.
  exact (loc_app (columns df) pre suf r (proj1 (NoDup_middle _ _ _ Hnd))).
Qed.

Lemma trace_events (step : Z * Z -> Row -> Z * Z) (st : Z * Z)
  (events : list Row) (e : Row) (before after : Z * Z) :
  In (e, before, after) (machine step st events) -> In e events.
Proof.
  revert st. induction events as [|x events IH]; intros st; simpl; [easy|].
  intros [H|H]; [injection H as <- _ _; now left | right; eauto].
Qed.

Lemma stamp_rounds_agree (df : DataFrame) (round_numbers : list value)
  (rs : list Row) :
  Forall2 (agree_row stamp_names) rs (stamp_rounds df round_numbers rs).
Proof.
  unfold stamp_rounds. revert rs.
  induction round_numbers as [|rv rvs IH]; intros rs; simpl.
  - apply agree_rows_refl.
  - eapply agree_rows_trans; [apply stamp_round_agree | apply IH].
Qed.

(** After the passes, an event of a round some pass selects carries the
    counters of the machine of its round. *)
Lemma stamp_rounds_stamped (df0 dfc : DataFrame) (rv0 : value) (e : Row)
  (before after : Z * Z) (round_numbers : list value) (rs : list Row) :
  has_column df0 "eventType" = has_column dfc "eventType" ->
  has_column df0 "victimTeam" = has_column dfc "victimTeam" ->
  NoDup (index df0) ->
  In (e, before, after) (round_trace df0 rv0) ->
  Forall2 (agree_row stamp_names) (rows df0) rs ->
  stamped_row rs e after
  \/ (exists rv, In rv round_numbers /\ value_eqb rv0 rv = true) ->
  stamped_row (stamp_rounds dfc round_numbers rs) e after.
Proof.
  intros H1 H2 Hnd Htrace. revert rs.
  assert (He : In e (rows df0)).
  { apply trace_events in Htrace. unfold round_events in Htrace.
    now apply filter_In in Htrace. }
  assert (Hround : in_round rv0 e = true).
  { apply trace_events in Htrace. unfold round_events in Htrace.
    now apply filter_In in Htrace. }
  induction round_numbers as [|rv rvs IH]; intros rs Hagree Hcase.
  - destruct Hcase as [H|(rv & [] & _)]. exact H.
  - unfold stamp_rounds. simpl. apply IH.
    + eapply agree_rows_trans; [exact Hagree | apply stamp_round_agree].
    + destruct (value_eqb rv0 rv) eqn:Erv.
      * left.
        pose proof (machine_agree df0 dfc rv0 rv (rows df0) rs (5, 5)%Z
                      H1 H2 (value_eqb_right _ _ Erv) Hagree) as Hm.
        destruct (Forall2_In_l _ _ _ _ Hm Htrace)
          as ([[e' b'] a'] & Hin & (Hidx & _) & _ & Ha).
        simpl in Hidx, Ha. subst a'.
        exists (stamp (fst after) (snd after) e').
        split; [exact (stamp_round_trace _ _ _ _ _ _ _ Hin)|].
        split; [now rewrite idx_stamp|].
        intros c Hc. now apply stamp_cells_same.
      * destruct Hcase as [(r & Hr & Hidx & Hcells)|(rv' & [->|Hin] & E)].
        -- left. exists r. split; [|now split].
           apply stamp_round_other; [exact Hr|].
           assert (Hr0 : exists r0, In r0 (rows df0)
                                    /\ agree_row stamp_names r0 r).
           { clear - Hagree Hr. induction Hagree; simpl in *; [easy|].
             destruct Hr as [->|Hr]; [eauto|].
             destruct (IHHagree Hr) as (r0 & ? & ?). eauto. }
           destruct Hr0 as (r0 & Hin0 & Hag).
           assert (r0 = e).
           { apply (NoDup_idx_inj (rows df0)); trivial.
             destruct Hag as [-> _]. exact Hidx. }
           subst r0.
           rewrite <- (in_round_agree rv e r Hag).
           unfold in_round in *.
           destruct (value_eqb (cells e "roundNumber") rv) eqn:E; trivial.
           rewrite value_eqb_sym in Hround.
           now rewrite (value_eqb_trans _ _ _ Hround E) in Erv.
        -- congruence.
        -- right. eauto.
Qed.

Lemma agree_rows_cell (X : string -> Prop) (cols cols' : list string)
  (rs rs' : list Row) (i : nat) (c : string) :
  Forall2 (agree_row X) rs rs' -> ~ X c ->
  cell (mkDF cols rs) i c = cell (mkDF cols' rs') i c.
Proof.
  intros H Hc. unfold cell, loc. simpl.
  induction H as [|r r' rs rs' [Hi Hr] _ IH]; simpl; [reflexivity|].
  rewrite <- Hi. destruct (Nat.eqb (idx r) i); simpl; [|exact IH].
  now rewrite (Hr c Hc).
Qed.

Lemma stamped_row_cell (df : DataFrame) (e : Row) (st : Z * Z) :
  NoDup (index df) ->
  stamped_row (rows df) e st ->
  cell df (idx e) "players_alive_team" = Some (VNum (inject_Z (fst st)))
  /\ cell df (idx e) "players_alive_enemy" = Some (VNum (inject_Z (snd st)))
  /\ cell df (idx e) "player_advantage"
     = Some (VNum (inject_Z (fst st - snd st)))
  /\ cell df (idx e) "situation_type" = Some (VStr (situation_label st)).
Proof.
  intros Hnd (r & Hr & Hidx & Hcells).
  unfold cell. rewrite <- Hidx, (loc_In df r Hnd Hr). simpl.
  destruct (stamp_cells (fst st) (snd st) e) as (A1 & A2 & A3 & A4).
  rewrite <- surjective_pairing in A4.
  rewrite !Hcells; unfold stamp_names; simpl; try tauto.
  now rewrite A1, A2, A3, A4.
Qed.


Lemma reset_stamps_agree (df : DataFrame) :
  Forall2 (agree_row stamp_names) (rows df) (rows (reset_stamps df)).
Proof.
  unfold reset_stamps, assign. simpl. rewrite !map_map.
  induction (rows df) as [|r rs IH]; simpl; constructor; [|exact IH].
  split; [reflexivity|].
  intros c Hc. unfold stamp_names in Hc. simpl in Hc.
  rewrite !set_cell_other; trivial; intros ->; tauto.
Qed.

Lemma reset_stamps_columns (df : DataFrame) :
  stamp_columns (columns (reset_stamps df)).
Proof.
  unfold stamp_columns.
  repeat split;
    match goal with
    | |- existsb (String.eqb ?c) (columns ?d) = true =>
        change (has_column d c = true)
    end;
    unfold reset_stamps; rewrite !has_column_assign; simpl;
    rewrite ?orb_true_r; reflexivity.
Qed.

Lemma reset_stamps_has (df : DataFrame) (c : string) :
  ~ stamp_names c -> has_column (reset_stamps df) c = has_column df c.
Proof.
  intros Hc. unfold stamp_names in Hc. simpl in Hc.
  unfold reset_stamps. rewrite !has_column_assign.
  assert (H1 : String.eqb c "players_alive_team" = false)
    by (apply String.eqb_neq; intros ->; tauto).
  assert (H2 : String.eqb c "players_alive_enemy" = false)
    by (apply String.eqb_neq; intros ->; tauto).
  assert (H3 : String.eqb c "player_advantage" = false)
    by (apply String.eqb_neq; intros ->; tauto).
  assert (H4 : String.eqb c "situation_type" = false)
    by (apply String.eqb_neq; intros ->; tauto).
  now rewrite H1, H2, H3, H4, !orb_false_r.
Qed.

Lemma not_stamp_name (c : string) :
  (if existsb (String.eqb c)
        ["players_alive_team"; "players_alive_enemy"; "player_advantage";
         "situation_type"] then False else True) ->
  ~ stamp_names c.
Proof.
  intros H Hc. unfold stamp_names in Hc.
  destruct (existsb _ _) eqn:E; [exact H|].
  assert (existsb (String.eqb c)
            ["players_alive_team"; "players_alive_enemy";
             "player_advantage"; "situation_type"] = true).
  { apply existsb_exists. exists c. split; [exact Hc|apply String.eqb_refl]. }
  congruence.
Qed.

(** The situational pass, as the stamps of the row-order machine. *)
Lemma situational_stamps (df : DataFrame) (metric : Metric) :
  metric_name metric = "Clutch_Situations" ->
  has_column df "roundNumber" = true ->
  NoDup (index df) ->
  exists df',
    _apply_situational df metric = Some df'
    /\ index df' = index df
    /\ NoDup (index df')
    /\ Forall2 (agree_row stamp_names) (rows df) (rows df')
    /\ forall round_num e before after,
         In (e, before, after) (round_trace df round_num) ->
         stamped_row (rows df') e after.
Proof.
  intros Hname Hcol Hnd.
  unfold _apply_situational. rewrite Hname. simpl String.eqb. cbv iota.
  change (assign (assign (assign (assign df "players_alive_team" (VNum 0))
                                 "players_alive_enemy" (VNum 0))
                         "situation_type" (VStr "Unknown"))
                 "player_advantage" (VNum 0)) with (reset_stamps df).
  assert (Hidx : index (reset_stamps df) = index df).
  { unfold reset_stamps. now rewrite !index_assign. }
  unfold column.
  rewrite reset_stamps_has, Hcol by (now apply not_stamp_name).
  cbn [bind].
  rewrite situational_rounds_rows
    by (try apply reset_stamps_columns; now rewrite Hidx).
  eexists. split; [reflexivity|].
  assert (Hag : Forall2 (agree_row stamp_names) (rows df)
                  (stamp_rounds (reset_stamps df)
                     (unique (map (fun r => cells r "roundNumber")
                                  (rows (reset_stamps df))))
                     (rows (reset_stamps df)))).
  { eapply agree_rows_trans;
      [apply reset_stamps_agree | apply stamp_rounds_agree]. }
  assert (Hidx' : map idx (stamp_rounds (reset_stamps df)
                     (unique (map (fun r => cells r "roundNumber")
                                  (rows (reset_stamps df))))
                     (rows (reset_stamps df))) = index df).
  { symmetry. exact (agree_rows_index _ _ _ Hag). }
  split; [exact Hidx'|].
  split; [unfold index at 1; cbn [rows]; now rewrite Hidx'|].
  split; [exact Hag|].
  intros rv e before after Htrace. simpl.
  apply (stamp_rounds_stamped df (reset_stamps df) rv e before after);
    try assumption.
  - symmetry. now apply reset_stamps_has, not_stamp_name.
  - symmetry. now apply reset_stamps_has, not_stamp_name.
  - apply reset_stamps_agree.
  - right.
    assert (He : In e (rows df) /\ in_round rv e = true).
    { apply trace_events in Htrace. now apply filter_In in Htrace. }
    destruct He as [He Hround]. unfold in_round in Hround.
    destruct (Forall2_In_l _ _ _ _ (reset_stamps_agree df) He)
      as (e0 & He0 & _ & Hcells).
    assert (Hin : In (cells e "roundNumber")
                     (map (fun r => cells r "roundNumber")
                          (rows (reset_stamps df)))).
    { apply in_map_iff. exists e0. split; [|exact He0].
      symmetry. now apply Hcells, not_stamp_name. }
    destruct (unique_covers _ _ Hin) as (u & Hu & Hsame).
    exists u. split; [exact Hu|].
    assert (Hself : value_eqb (cells e "roundNumber")
                              (cells e "roundNumber") = true).
    { eapply value_eqb_trans; [exact Hround|].
      now rewrite value_eqb_sym. }
    apply value_same_eqb in Hsame; [|exact Hself].
    rewrite value_eqb_sym in Hround, Hsame.
    exact (value_eqb_trans _ _ _ Hround Hsame).
Qed.

(** ** The counters of the machine *)

Lemma alive_step_cases (df : DataFrame) (st : Z * Z) (e : Row) :
  alive_step df st e
  = if is_kill df e then decrement (victim_side df e) st else st.
Proof.
  unfold alive_step, update_alive, is_kill, victim_side, decrement.
  destruct st as [ta ea]. simpl.
  destruct (value_eqb (row_get df e "eventType" VNone) (VStr "kill"));
    [|reflexivity].
  destruct (value_eqb (row_get df e "victimTeam" (VStr "")) (VStr "Team A"));
    [reflexivity|].
  destruct (value_eqb (row_get df e "victimTeam" (VStr "")) (VStr "Team B"));
    reflexivity.
Qed.

Lemma alive_step_bounds (df : DataFrame) (st : Z * Z) (e : Row) :
  (fst (alive_step df st e) <= fst st
   /\ snd (alive_step df st e) <= snd st
   /\ (fst st - fst (alive_step df st e))
      + (snd st - snd (alive_step df st e)) <= 1
   /\ (fst st - fst (alive_step df st e))
      + (snd st - snd (alive_step df st e))
      <= (if is_kill df e then 1 else 0))%Z
  /\ (is_kill df e = false -> alive_step df st e = st).
Proof.
  rewrite alive_step_cases. destruct st as [ta ea].
  destruct (is_kill df e); [|simpl; split; [lia|trivial]].
  destruct (victim_side df e) as [[]|]; simpl; split; try lia; discriminate.
Qed.

Lemma machine_app (step : Z * Z -> Row -> Z * Z) (l1 l2 : list Row)
  (st : Z * Z) :
  machine step st (l1 ++ l2)
  = machine step st l1 ++ machine step (fold_left step l1 st) l2.
Proof.
  revert st. induction l1 as [|e l1 IH]; intros st; simpl; [reflexivity|].
  now rewrite IH.
Qed.

Lemma machine_events (step : Z * Z -> Row -> Z * Z) (l : list Row)
  (st : Z * Z) :
  map event_of (machine step st l) = l.
Proof.
  revert st. induction l as [|e l IH]; intros st; simpl; [reflexivity|].
  now rewrite IH.
Qed.

(** A position of the trace: the counters before are those the machine
    reaches on the earlier events, the rest of the trace starts from the
    counters after. *)
Lemma machine_split (step : Z * Z -> Row -> Z * Z) (l : list Row)
  (st : Z * Z) (earlier later : list (Row * (Z * Z) * (Z * Z)))
  (e : Row) (before after : Z * Z) :
  machine step st l = earlier ++ (e, before, after) :: later ->
  before = fold_left step (map event_of earlier) st
  /\ after = step before e
  /\ later = machine step after (map event_of later).
Proof.
  intros H.
  assert (Hl : l = map event_of earlier ++ e :: map event_of later).
  { rewrite <- (machine_events step l st), H, map_app. reflexivity. }
  rewrite Hl, machine_app in H. simpl in H.
  assert (Hlen : List.length (machine step st (map event_of earlier))
                 = List.length earlier).
  { rewrite <- (length_map event_of (machine _ _ _)), machine_events.
    apply length_map. }
  revert H.
  generalize (fold_left step (map event_of earlier) st).
  generalize (machine step st (map event_of earlier)) Hlen.
  clear. intros l1 Hlen st1 H.
  assert (E : l1 = earlier /\
              (e, st1, step st1 e)
              :: machine step (step st1 e) (map event_of later)
              = (e, before, after) :: later).
  { revert earlier Hlen H. induction l1 as [|x l1 IH];
      intros [|y earlier] Hlen H; simpl in *; try discriminate.
    - now split.
    - injection H as -> H. injection Hlen as Hlen.
      destruct (IH earlier Hlen H) as [-> E]. now split. }
  destruct E as [_ E]. injection E as -> -> E.
  repeat split. now symmetry.
Qed.

Lemma fold_alive_le (df : DataFrame) (l : list Row) (st : Z * Z) :
  (fst (fold_left (alive_step df) l st) <= fst st
   /\ snd (fold_left (alive_step df) l st) <= snd st)%Z.
Proof.
  revert st. induction l as [|e l IH]; intros st; simpl; [lia|].
  specialize (IH (alive_step df st e)).
  pose proof (alive_step_bounds df st e). lia.
Qed.

(** The counters lost so far are at most the kill events seen so far. *)
Lemma fold_alive_ge (df : DataFrame) (l : list Row) (st : Z * Z) :
  ((fst st - fst (fold_left (alive_step df) l st))
   + (snd st - snd (fold_left (alive_step df) l st))
   <= Z.of_nat (List.length (filter (is_kill df) l)))%Z.
Proof.
  revert st. induction l as [|e l IH]; intros st; simpl; [lia|].
  specialize (IH (alive_step df st e)).
  pose proof (alive_step_bounds df st e) as [(_ & _ & _ & H) _].
  destruct (is_kill df e); simpl List.length; lia.
Qed.

Lemma machine_after_le (df : DataFrame) (l : list Row) (st : Z * Z)
  (e : Row) (before after : Z * Z) :
  In (e, before, after) (machine (alive_step df) st l) ->
  (fst after <= fst st /\ snd after <= snd st)%Z.
Proof.
  revert st. induction l as [|x l IH]; intros st; simpl; [easy|].
  pose proof (alive_step_bounds df st x).
  intros [E|E].
  - injection E as <- <- <-. lia.
  - specialize (IH _ E). lia.
Qed.

Lemma machine_total (step : Z * Z -> Row -> Z * Z) (l : list Row)
  (st : Z * Z) (e : Row) :
  In e l -> exists before after, In (e, before, after) (machine step st l).
Proof.
  revert st. induction l as [|x l IH]; intros st; simpl; [easy|].
  intros [->|H]; [eauto|].
  destruct (IH (step st x) H) as (b & a & Hin). eauto.
Qed.

(** ** Claims on the situational enrichment *)

Lemma NoDup_number_rows (events : list (list (string * value))) (i : nat) :
  NoDup (map idx (number_rows i events))
  /\ forall j, In j (map idx (number_rows i events)) -> (i <= j)%nat.
Proof.
  revert i. induction events as [|ev events IH]; intros i; simpl.
  - split; [constructor | easy].
  - destruct (IH (S i)) as [Hnd Hge]. split.
    + constructor; [|exact Hnd]. intros H. apply Hge in H. lia.
    + intros j [<-|H]; [lia|]. apply Hge in H. lia.
Qed.

Lemma NoDup_DataFrame_of (events : list (list (string * value))) :
  NoDup (index (DataFrame_of events)).
Proof. apply NoDup_number_rows. Qed.

Lemma situation_label_spec (st : Z * Z) :
  let team_alive := fst st in
  let enemy_alive := snd st in
  let advantage := (team_alive - enemy_alive)%Z in
  (situation_label st = ("Clutch 1v" ++ str_of_int enemy_alive)%string
   <-> (team_alive = 1 /\ enemy_alive > 1)%Z)
  /\ (~ (team_alive = 1 /\ enemy_alive > 1)%Z ->
      ((advantage = 0)%Z -> situation_label st = "Even")
      /\ ((advantage > 0)%Z ->
          situation_label st = ("Advantage +" ++ str_of_int advantage)%string)
      /\ ((advantage < 0)%Z ->
          situation_label st = ("Disadvantage " ++ str_of_int advantage)%string))
  /\ ((team_alive = 1 /\ enemy_alive > 1)%Z ->
      situation_label st <> "Even"
      /\ prefix "Advantage" (situation_label st) = false
      /\ prefix "Disadvantage" (situation_label st) = false).
Proof.
  destruct st as [ta ea]. unfold situation_label. simpl fst. simpl snd.
  cbv zeta.
  destruct (ta =? 1)%Z eqn:E1; destruct (ea >? 1)%Z eqn:E2; simpl andb;
    cbv iota.
  - apply Z.eqb_eq in E1. apply Z.gtb_lt in E2.
    split; [split; [lia|reflexivity]|]. split; [lia|].
    intros _. repeat split; try reflexivity. discriminate.
  - apply Z.eqb_eq in E1.
    assert (~ (ea > 1)%Z).
    { intros H. apply Z.gt_lt, Z.gtb_lt in H. congruence. }
    destruct (ta - ea =? 0)%Z eqn:E3; [|destruct (ta - ea >? 0)%Z eqn:E4].
    + apply Z.eqb_eq in E3.
      split; [split; [discriminate|lia]|]. split; [|lia].
      intros _. repeat split; trivial; lia.
    + apply Z.eqb_neq in E3. apply Z.gtb_lt in E4.
      split; [split; [discriminate|lia]|]. split; [|lia].
      intros _. repeat split; trivial; lia.
    + apply Z.eqb_neq in E3.
      assert (~ (0 < ta - ea)%Z)
        by (intros H'; apply Z.gtb_lt in H'; congruence).
      split; [split; [discriminate|lia]|]. split; [|lia].
      intros _. repeat split; trivial; lia.
  - apply Z.eqb_neq in E1.
    destruct (ta - ea =? 0)%Z eqn:E3; [|destruct (ta - ea >? 0)%Z eqn:E4].
    + apply Z.eqb_eq in E3.
      split; [split; [discriminate|lia]|]. split; [|lia].
      intros _. repeat split; trivial; lia.
    + apply Z.eqb_neq in E3. apply Z.gtb_lt in E4.
      split; [split; [discriminate|lia]|]. split; [|lia].
      intros _. repeat split; trivial; lia.
    + apply Z.eqb_neq in E3.
      assert (~ (0 < ta - ea)%Z)
        by (intros H'; apply Z.gtb_lt in H'; congruence).
      split; [split; [discriminate|lia]|]. split; [|lia].
      intros _. repeat split; trivial; lia.
  - apply Z.eqb_neq in E1.
    destruct (ta - ea =? 0)%Z eqn:E3; [|destruct (ta - ea >? 0)%Z eqn:E4].
    + apply Z.eqb_eq in E3.
      split; [split; [discriminate|lia]|]. split; [|lia].
      intros _. repeat split; trivial; lia.
    + apply Z.eqb_neq in E3. apply Z.gtb_lt in E4.
      split; [split; [discriminate|lia]|]. split; [|lia].
      intros _. repeat split; trivial; lia.
    + apply Z.eqb_neq in E3.
      assert (~ (0 < ta - ea)%Z)
        by (intros H'; apply Z.gtb_lt in H'; congruence).
      split; [split; [discriminate|lia]|]. split; [|lia].
      intros _. repeat split; trivial; lia.
Qed.

(** C4: on every event the situational enrichment stamps, with the
    counters [team_alive] and [enemy_alive] stamped on it,
    [situation_type] is "Clutch 1v{enemy_alive}" exactly when
    [team_alive = 1] and [enemy_alive > 1]; that label replaces the generic
    one and is none of them; otherwise the label is "Even" when the
    advantage is 0, "Advantage +a" when it is a > 0 and "Disadvantage a"
    when it is a < 0. *)
Theorem situation_type_classification (df : DataFrame) (metric : Metric) :
  metric_name metric = "Clutch_Situations" ->
  has_column df "roundNumber" = true ->
  NoDup (index df) ->
  exists df',
    _apply_situational df metric = Some df'
    /\ forall round_num e before after,
         In (e, before, after) (round_trace df round_num) ->
         exists (team_alive enemy_alive : Z) (label : string),
           cell df' (idx e) "players_alive_team"
           = Some (VNum (inject_Z team_alive))
           /\ cell df' (idx e) "players_alive_enemy"
              = Some (VNum (inject_Z enemy_alive))
           /\ cell df' (idx e) "situation_type" = Some (VStr label)
           /\ (label = ("Clutch 1v" ++ str_of_int enemy_alive)%string
               <-> (team_alive = 1 /\ enemy_alive > 1)%Z)
           /\ (~ (team_alive = 1 /\ enemy_alive > 1)%Z ->
               ((team_alive - enemy_alive = 0)%Z -> label = "Even")
               /\ ((team_alive - enemy_alive > 0)%Z ->
                   label = ("Advantage +"
                            ++ str_of_int (team_alive - enemy_alive))%string)
               /\ ((team_alive - enemy_alive < 0)%Z ->
                   label = ("Disadvantage "
                            ++ str_of_int (team_alive - enemy_alive))%string))
           /\ ((team_alive = 1 /\ enemy_alive > 1)%Z ->
               label <> "Even"
               /\ prefix "Advantage" label = false
               /\ prefix "Disadvantage" label = false).
Proof.
  intros Hname Hcol Hnd.
  destruct (situational_stamps df metric Hname Hcol Hnd)
    as (df' & Hrun & Hidx & Hnd' & _ & Hstamped).
  exists df'. split; [exact Hrun|].
  intros rv e before after Hin.
  destruct (stamped_row_cell df' e after Hnd' (Hstamped _ _ _ _ Hin))
    as (H1 & H2 & _ & H4).
  exists (fst after), (snd after), (situation_label after).
  split; [exact H1|]. split; [exact H2|]. split; [exact H4|].
  exact (situation_label_spec after).
Qed.

Lemma situation_type_classification_witness :
  exists df',
    _apply_situational six_deaths clutch_metric = Some df'
    /\ forall round_num e before after,
         In (e, before, after) (round_trace six_deaths round_num) ->
         exists (team_alive enemy_alive : Z) (label : string),
           cell df' (idx e) "players_alive_team"
           = Some (VNum (inject_Z team_alive))
           /\ cell df' (idx e) "players_alive_enemy"
              = Some (VNum (inject_Z enemy_alive))
           /\ cell df' (idx e) "situation_type" = Some (VStr label)
           /\ (label = ("Clutch 1v" ++ str_of_int enemy_alive)%string
               <-> (team_alive = 1 /\ enemy_alive > 1)%Z)
           /\ (~ (team_alive = 1 /\ enemy_alive > 1)%Z ->
               ((team_alive - enemy_alive = 0)%Z -> label = "Even")
               /\ ((team_alive - enemy_alive > 0)%Z ->
                   label = ("Advantage +"
                            ++ str_of_int (team_alive - enemy_alive))%string)
               /\ ((team_alive - enemy_alive < 0)%Z ->
                   label = ("Disadvantage "
                            ++ str_of_int (team_alive - enemy_alive))%string))
           /\ ((team_alive = 1 /\ enemy_alive > 1)%Z ->
               label <> "Even"
               /\ prefix "Advantage" label = false
               /\ prefix "Disadvantage" label = false).
Proof.
  apply (situation_type_classification six_deaths clutch_metric).
  - reflexivity.
  - reflexivity.
  - apply NoDup_DataFrame_of.
Defined.

(** ** Vectorised operations *)

Lemma mask_of_map (p : Row -> option bool) (f : Row -> Row)
  (rs : list Row) :
  mask_of p (map f rs) = mask_of (fun r => p (f r)) rs.
Proof. induction rs as [|r rs IH]; simpl; [reflexivity|]. now rewrite IH. Qed.

Lemma mask_of_ext (p q : Row -> option bool) (rs : list Row) :
  (forall r, In r rs -> p r = q r) -> mask_of p rs = mask_of q rs.
Proof.
  induction rs as [|r rs IH]; simpl; intros H; [reflexivity|].
  rewrite H, IH by auto. reflexivity.
Qed.

Lemma mask_of_Forall2 (p : Row -> option bool) (rs : list Row)
  (mask : list bool) :
  mask_of p rs = Some mask -> Forall2 (fun r b => p r = Some b) rs mask.
Proof.
  revert mask. induction rs as [|r rs IH]; simpl; intros mask.
  - intros H. injection H as <-. constructor.
  - destruct (p r) as [b|] eqn:E; [|discriminate]. simpl.
    destruct (mask_of p rs) as [bs|]; [|discriminate]. simpl.
    intros H. injection H as <-. constructor; auto.
Qed.

Lemma mask_of_total (p : Row -> option bool) (rs : list Row) :
  (forall r, In r rs -> p r <> None) ->
  exists mask, mask_of p rs = Some mask.
Proof.
  induction rs as [|r rs IH]; simpl; intros H; [eauto|].
  destruct (p r) as [b|] eqn:E; [|now destruct (H r (or_introl eq_refl))].
  destruct IH as (bs & ->); [auto|]. simpl. eauto.
Qed.

Lemma map_rows_Forall2 (f : Row -> option value) (rs : list Row)
  (vs : list value) :
  map_rows f rs = Some vs -> Forall2 (fun r v => f r = Some v) rs vs.
Proof.
  revert vs. induction rs as [|r rs IH]; simpl; intros vs.
  - intros H. injection H as <-. constructor.
  - destruct (f r) as [v|] eqn:E; [|discriminate]. simpl.
    destruct (map_rows f rs) as [vs'|]; [|discriminate]. simpl.
    intros H. injection H as <-. constructor; auto.
Qed.

Lemma map_rows_total (f : Row -> option value) (rs : list Row) :
  (forall r, In r rs -> f r <> None) ->
  exists vs, map_rows f rs = Some vs.
Proof.
  induction rs as [|r rs IH]; simpl; intros H; [eauto|].
  destruct (f r) as [v|] eqn:E; [|now destruct (H r (or_introl eq_refl))].
  destruct IH as (vs & ->); [auto|]. simpl. eauto.
Qed.

Lemma set_where_Forall2 (P : Row -> bool -> Prop) (c : string) (v : value)
  (rs : list Row) (mask : list bool) :
  Forall2 P rs mask ->
  Forall2 (fun r r' => exists b, P r b
                                 /\ r' = if b then set_cell c v r else r)
          rs (set_where mask c v rs).
Proof. induction 1; simpl; constructor; eauto. Qed.

Lemma set_column_rows_Forall2 (P : Row -> value -> Prop) (c : string)
  (rs : list Row) (vs : list value) :
  Forall2 P rs vs ->
  Forall2 (fun r r' => exists v, P r v /\ r' = set_cell c v r)
          rs (set_column_rows c vs rs).
Proof. induction 1; simpl; constructor; eauto. Qed.

Lemma Forall2_map_l {A B C : Type} (R : B -> C -> Prop) (f : A -> B)
  (l : list A) (l' : list C) :
  Forall2 R (map f l) l' <-> Forall2 (fun a c => R (f a) c) l l'.
Proof.
  split.
  - revert l'. induction l as [|a l IH]; simpl; intros l' H;
      inversion H; subst; constructor; auto.
  - induction 1; simpl; constructor; auto.
Qed.

Lemma Forall2_compose {A B C : Type} (P : A -> B -> Prop)
  (Q : B -> C -> Prop) (R : A -> C -> Prop) (l1 : list A) (l2 : list B)
  (l3 : list C) :
  (forall a b c, P a b -> Q b c -> R a c) ->
  Forall2 P l1 l2 -> Forall2 Q l2 l3 -> Forall2 R l1 l3.
Proof.
  intros H H12. revert l3.
  induction H12; intros l3 H23; inversion H23; subst; constructor; eauto.
Qed.

Lemma Forall2_impl_In {A B : Type} (P Q : A -> B -> Prop) (l : list A)
  (l' : list B) :
  (forall a b, In a l -> P a b -> Q a b) ->
  Forall2 P l l' -> Forall2 Q l l'.
Proof.
  intros H H2. induction H2; constructor.
  - apply H; [now left | assumption].
  - apply IHForall2. intros a b Ha. apply H. now right.
Qed.

Lemma Forall2_index (P : Row -> Row -> Prop) (l l' : list Row) :
  Forall2 (fun r r' => idx r = idx r' /\ P r r') l l' ->
  map idx l = map idx l'.
Proof. induction 1 as [|? ? ? ? [H _]]; simpl; congruence. Qed.

(** ** Spatial metrics *)

Lemma value_eqb_str (v : value) (s : string) :
  value_eqb v (VStr s) = true <-> v = VStr s.
Proof.
  destruct v as [q|t|[]|]; simpl; split; try discriminate.
  - intros H. apply String.eqb_eq in H. now subst.
  - intros H. injection H as ->. apply String.eqb_refl.
Qed.

Lemma cell_ge_spec (x : Q) (bound : option Q) :
  exists b, cell_ge (VNum x) bound = Some b /\ (b = true <-> above bound x).
Proof.
  destruct bound as [m|]; simpl; eexists; split; try reflexivity.
  - apply Qle_bool_iff.
  - tauto.
Qed.

Lemma cell_le_spec (x : Q) (bound : option Q) :
  exists b, cell_le (VNum x) bound = Some b /\ (b = true <-> below x bound).
Proof.
  destruct bound as [m|]; simpl; eexists; split; try reflexivity.
  - apply Qle_bool_iff.
  - tauto.
Qed.

Lemma cell_ge_total (v : value) (bound : option Q) :
  is_str v = false -> cell_ge v bound <> None.
Proof.
  destruct v as [q|t|[]|], bound; simpl; discriminate.
Qed.

Lemma cell_le_total (v : value) (bound : option Q) :
  is_str v = false -> cell_le v bound <> None.
Proof.
  destruct v as [q|t|[]|], bound; simpl; discriminate.
Qed.

Lemma in_zone_total (map_label : string) (b : Bounds) (r : Row) :
  is_str (cells r "playerX") = false ->
  is_str (cells r "playerY") = false ->
  in_zone map_label b r <> None.
Proof.
  intros Hx Hy. unfold in_zone.
  destruct (cell_ge (cells r "playerX") (x_min b)) eqn:E1;
    [|now apply cell_ge_total in E1].
  destruct (cell_le (cells r "playerX") (x_max b)) eqn:E2;
    [|now apply cell_le_total in E2].
  destruct (cell_ge (cells r "playerY") (y_min b)) eqn:E3;
    [|now apply cell_ge_total in E3].
  destruct (cell_le (cells r "playerY") (y_max b)) eqn:E4;
    [|now apply cell_le_total in E4].
  discriminate.
Qed.

(** The test of a row with a position is membership in the closed
    rectangle on the map of the definition. *)
Lemma in_zone_spec (map_label : string) (b : Bounds) (r : Row) (x y : Q)
  (flag : bool) :
  cells r "playerX" = VNum x ->
  cells r "playerY" = VNum y ->
  in_zone map_label b r = Some flag ->
  (flag = true <->
   cells r "map" = VStr map_label
   /\ above (x_min b) x /\ below x (x_max b)
   /\ above (y_min b) y /\ below y (y_max b)).
Proof.
  intros Hx Hy. unfold in_zone. rewrite Hx, Hy.
  destruct (cell_ge_spec x (x_min b)) as (b1 & -> & H1).
  destruct (cell_le_spec x (x_max b)) as (b2 & -> & H2).
  destruct (cell_ge_spec y (y_min b)) as (b3 & -> & H3).
  destruct (cell_le_spec y (y_max b)) as (b4 & -> & H4).
  simpl. intros H. injection H as <-.
  rewrite !andb_true_iff, value_eqb_str. tauto.
Qed.

Lemma in_zone_set_zone (map_label : string) (b : Bounds) (name : string)
  (v : value) (r : Row) :
  in_zone map_label b (set_cell (zone_column name) v r)
  = in_zone map_label b r.
Proof. reflexivity. Qed.

Lemma zone_distance_columns (name : string) :
  String.eqb (zone_column name) (distance_column name) = false.
Proof. reflexivity. Qed.

Section SpatialClaims.

Context {rt : PyRuntime}.

Lemma calculate_distance_total (x y : value) (cx cy : Q) :
  is_str x = false -> is_str y = false ->
  _calculate_distance x y (VNum cx) (VNum cy) <> None.
Proof.
  destruct x as [q|t|[]|], y as [q'|t'|[]|]; simpl; discriminate.
Qed.

Lemma zone_distance_total (df : DataFrame) (cx cy : Q) (r : Row) :
  is_str (cells r "playerX") = false ->
  is_str (cells r "playerY") = false ->
  zone_distance df cx cy r <> None.
Proof.
  intros Hx Hy. unfold zone_distance, row_get.
  destruct (has_column df "playerX"), (has_column df "playerY");
    destruct (cells r "playerX") as [q|t|[]|];
    destruct (cells r "playerY") as [q'|t'|[]|];
    simpl in *; discriminate.
Qed.

(** C5: for a spatial definition with a bounds rectangle and a map label,
    on a table with the position and map columns, [in_zone_<name>] of an
    event with a position is true exactly when the event's map is the
    definition's and [x_min <= playerX <= x_max] and
    [y_min <= playerY <= y_max], every bound inclusive and an omitted bound
    infinite. *)
Theorem in_zone_closed_rectangle (df : DataFrame) (metric : Metric)
  (b : Bounds) (map_label : string) :
  bounds metric = Some b ->
  map_name metric = Some map_label ->
  has_column df "playerX" = true ->
  has_column df "playerY" = true ->
  has_column df "map" = true ->
  (forall r, In r (rows df) ->
             is_str (cells r "playerX") = false
             /\ is_str (cells r "playerY") = false) ->
  exists df',
    _apply_spatial df metric = Some df'
    /\ Forall2
         (fun r r' =>
            idx r = idx r'
            /\ forall x y,
                 cells r "playerX" = VNum x ->
                 cells r "playerY" = VNum y ->
                 exists flag,
                   cells r' (zone_column (metric_name metric)) = VBool flag
                   /\ (flag = true <->
                       cells r "map" = VStr map_label
                       /\ above (x_min b) x /\ below x (x_max b)
                       /\ above (y_min b) y /\ below y (y_max b)))
         (rows df) (rows df').
Proof.
  intros Hb Hm HX HY Hmap Hstr.
  unfold _apply_spatial. rewrite Hb, Hm.
  set (zc := zone_column (metric_name metric)).
  set (dc := distance_column (metric_name metric)).
  rewrite !has_column_assign, HX, HY. simpl orb. cbv iota.
  unfold column. rewrite has_column_assign, Hmap. simpl orb. cbv iota.
  cbn [bind].
  set (rows1 := rows (assign df zc (VBool false))).
  assert (Hrows1 : rows1 = map (set_cell zc (VBool false)) (rows df))
    by reflexivity.
  destruct (mask_of_total (in_zone map_label b) rows1) as (mask & Hmask).
  { intros r1 Hr1. rewrite Hrows1 in Hr1. apply in_map_iff in Hr1.
    destruct Hr1 as (r & <- & Hr). unfold zc. rewrite in_zone_set_zone.
    now apply in_zone_total; apply Hstr. }
  rewrite Hmask. cbn [bind columns rows].
  set (cx := ((option_default 0 (x_min b) + option_default 0 (x_max b)) / 2)%Q).
  set (cy := ((option_default 0 (y_min b) + option_default 0 (y_max b)) / 2)%Q).
  pose proof (set_where_Forall2 _ zc (VBool true) _ _
                (mask_of_Forall2 _ _ _ Hmask)) as H2.
  set (rows2 := set_where mask zc (VBool true) rows1) in *.
  set (df2 := mkDF (columns (assign df zc (VBool false))) rows2).
  assert (H12 : Forall2
                  (fun r r2 =>
                     idx r = idx r2
                     /\ cells r2 "playerX" = cells r "playerX"
                     /\ cells r2 "playerY" = cells r "playerY"
                     /\ exists flag, in_zone map_label b r = Some flag
                                     /\ cells r2 zc = VBool flag)
                  (rows df) rows2).
  { rewrite Hrows1 in H2. apply Forall2_map_l in H2.
    revert H2. apply Forall2_impl_In.
    intros r r2 _ (flag & Hflag & ->).
    unfold zc in Hflag. rewrite in_zone_set_zone in Hflag.
    destruct flag; (split; [reflexivity|]); (split; [reflexivity|]);
      (split; [reflexivity|]); eexists; (split; [exact Hflag|]);
      simpl; now rewrite String.eqb_refl. }
  destruct (map_rows_total (zone_distance df2 cx cy) rows2) as (ds & Hds).
  { intros r2 Hr2.
    destruct (Forall2_In_l _ _ _ _
                (Forall2_flip H12) Hr2)
      as (r & Hr & _ & Ex & Ey & _).
    apply zone_distance_total; [rewrite Ex | rewrite Ey]; now apply Hstr. }
  rewrite Hds. cbn [bind].
  eexists. split; [reflexivity|]. cbn [rows].
  pose proof (set_column_rows_Forall2 _ dc _ _ (map_rows_Forall2 _ _ _ Hds))
    as H3.
  eapply Forall2_compose; [|exact H12|exact H3].
  intros r r2 r3 (Hidx & Ex & Ey & flag & Hflag & Hcell) (v & _ & ->).
  split; [exact Hidx|].
  intros x y Hx Hy. exists flag. split.
  - rewrite <- Hcell. apply set_cell_other.
    intros E. unfold zc, dc in E.
    pose proof (zone_distance_columns (metric_name metric)) as Hne.
    rewrite E, String.eqb_refl in Hne. discriminate.
  - exact (in_zone_spec map_label b r x y flag Hx Hy Hflag).
Qed.

End SpatialClaims.

(** ** Composite metrics *)

Lemma Qlt_bool_iff (x y : Q) : Qlt_bool x y = true <-> (x < y)%Q.
Proof.
  unfold Qlt_bool. rewrite negb_true_iff. split.
  - intros H. apply Qnot_le_lt. intros Hle.
    apply Qle_bool_iff in Hle. congruence.
  - intros H. destruct (Qle_bool y x) eqn:E; [|reflexivity].
    apply Qle_bool_iff in E. now apply Qlt_not_le in H.
Qed.

Lemma and_column_Forall2 (P : Row -> bool -> Prop) (c : string)
  (rs : list Row) (mask : list bool) :
  Forall2 P rs mask ->
  Forall2 (fun r r' =>
             exists b, P r b
                       /\ r' = set_cell c (VBool (cell_bool (cells r c) && b))
                                        r)
          rs (and_column c mask rs).
Proof. induction 1; simpl; constructor; eauto. Qed.

Lemma mask_of_false (rs : list Row) :
  mask_of (fun _ => Some false) rs = Some (map (fun _ => false) rs).
Proof.
  induction rs as [|r rs IH]; simpl; [reflexivity|]. now rewrite IH.
Qed.

Section CompositeLemmas.

Context {rt : PyRuntime}.

Lemma condition_test_holds (v : value) (cv : cond_value) :
  condition_test v cv = Some true <-> condition_holds v cv.
Proof.
  split.
  - destruct cv as [values|lit]; simpl.
    + intros H. injection H as H. constructor.
      apply existsb_exists in H. exact H.
    + destruct lit as [q|s|b|]; simpl;
        try (intros H; injection H as H; now constructor).
      destruct (startswith s ">"%char) eqn:Egt;
        [|destruct (startswith s "<"%char) eqn:Elt].
      * destruct (py_float (strip (tail s))) as [t|] eqn:Ep; [|discriminate].
        simpl. unfold cell_gt.
        destruct v as [x|w|[]|]; simpl; try discriminate;
          intros H; injection H as H; apply Qlt_bool_iff in H;
          eapply holds_greater; eauto; reflexivity.
      * destruct (py_float (strip (tail s))) as [t|] eqn:Ep; [|discriminate].
        simpl. unfold cell_lt.
        destruct v as [x|w|[]|]; simpl; try discriminate;
          intros H; injection H as H; apply Qlt_bool_iff in H;
          eapply holds_less; eauto; reflexivity.
      * intros H. injection H as H. constructor; [|exact H].
        simpl. now rewrite Egt, Elt.
  - intros H. destruct H as [values H|s t x Hs Hp Hx Hlt|s t x Hg Hs Hp Hx Hlt
                            |lit Hc He]; simpl.
    + f_equal. now apply existsb_exists.
    + rewrite Hs, Hp. simpl. apply Qlt_bool_iff in Hlt.
      destruct v as [q|w|[]|]; simpl in *; try discriminate;
        injection Hx as ->; now rewrite Hlt.
    + rewrite Hg, Hs, Hp. simpl. apply Qlt_bool_iff in Hlt.
      destruct v as [q|w|[]|]; simpl in *; try discriminate;
        injection Hx as ->; now rewrite Hlt.
    + destruct lit as [q|s|b|]; try now rewrite He.
      simpl in Hc. apply orb_false_iff in Hc. destruct Hc as [-> ->].
      now rewrite He.
Qed.

Lemma condition_test_total (v : value) (cv : cond_value) :
  threshold_ok cv ->
  (is_comparison (match cv with CScalar lit => lit | _ => VNone end) = true ->
   is_str v = false) ->
  condition_test v cv <> None.
Proof.
  destruct cv as [values|lit]; simpl; [discriminate|].
  destruct lit as [q|s|b|]; simpl; try discriminate.
  destruct (startswith s ">"%char) eqn:Egt; simpl.
  - destruct (py_float (strip (tail s))) as [t|]; [|tauto].
    intros _ H. specialize (H eq_refl).
    destruct v as [x|w|[]|]; simpl in *; discriminate.
  - destruct (startswith s "<"%char) eqn:Elt; [|discriminate].
    destruct (py_float (strip (tail s))) as [t|]; [|tauto].
    intros _ H. specialize (H eq_refl).
    destruct v as [x|w|[]|]; simpl in *; discriminate.
Qed.

(** The vectorised test is the test of every row. *)
Lemma condition_mask_rows (df : DataFrame) (k : string) (cv : cond_value) :
  threshold_ok cv ->
  condition_mask df k cv = mask_of (row_test df k cv) (rows df).
Proof.
  intros Hok. unfold condition_mask, row_test.
  assert (Habsent : forall rs : list Row,
             Some (map (fun _ => false) rs)
             = mask_of (fun _ => Some false) rs).
  { intros rs. symmetry. apply mask_of_false. }
  destruct (has_column df k) eqn:Hk.
  - destruct cv as [values|lit]; simpl; [reflexivity|].
    destruct lit as [q|s|b|]; simpl; try reflexivity.
    simpl in Hok.
    destruct (startswith s ">"%char); simpl in *.
    + destruct (py_float (strip (tail s))); [reflexivity|tauto].
    + destruct (startswith s "<"%char); [|reflexivity].
      destruct (py_float (strip (tail s))); [reflexivity|tauto].
  - destruct cv as [values|lit]; simpl; [apply Habsent|].
    destruct lit as [q|s|b|]; simpl; try apply Habsent.
    simpl in Hok.
    destruct (startswith s ">"%char); simpl in *.
    + destruct (py_float (strip (tail s))); [apply Habsent|tauto].
    + destruct (startswith s "<"%char); [|apply Habsent].
      destruct (py_float (strip (tail s))); [apply Habsent|tauto].
Qed.

Lemma row_test_columns (df df' : DataFrame) (k : string) (cv : cond_value)
  (r : Row) :
  columns df = columns df' -> row_test df k cv r = row_test df' k cv r.
Proof. intros H. unfold row_test, has_column. now rewrite H. Qed.

Lemma composite_fold (df1 : DataFrame) (flag : string)
  (conds : list (string * cond_value)) :
  forall (acc : Row -> bool) (base rs : list Row),
    Forall2 (composite_state flag acc) base rs ->
    (forall k cv r rc,
        In (k, cv) conds -> In r base ->
        (forall c, c <> flag -> cells rc c = cells r c) ->
        (exists f, cells rc flag = VBool f) ->
        row_test df1 k cv rc <> None) ->
    (forall k cv, In (k, cv) conds -> threshold_ok cv) ->
    exists rs',
      fold_left (fun s cond =>
                   df <- s ;; composite_condition flag df cond)
                conds (Some (mkDF (columns df1) rs))
      = Some (mkDF (columns df1) rs')
      /\ Forall2 (composite_state flag
                    (fun r => (acc r && row_flag df1 flag conds r)%bool))
                 base rs'.
Proof.
  induction conds as [|[k cv] conds IH]; intros acc base rs Hst Hev Hok.
  - exists rs. split; [reflexivity|].
    revert Hst. apply Forall2_impl_In.
    intros r rc _ (H1 & H2 & H3). repeat split; trivial.
    unfold row_flag. simpl. now rewrite andb_true_r.
  - simpl fold_left. unfold composite_condition at 2. simpl fst. simpl snd.
    rewrite condition_mask_rows by (eapply Hok; now left).
    simpl rows.
    destruct (mask_of_total
                (row_test (mkDF (columns df1) rs) k cv) rs) as (mask & Hm).
    { intros rc Hrc.
      destruct (Forall2_In_l _ _ _ _ (Forall2_flip Hst) Hrc)
        as (r & Hr & H1 & H2 & H3).
      rewrite (row_test_columns _ df1) by reflexivity.
      apply (Hev k cv r rc); eauto. now left. }
    rewrite Hm. cbn [bind columns].
    pose proof (and_column_Forall2 _ flag _ _ (mask_of_Forall2 _ _ _ Hm))
      as Hand.
    destruct (IH (fun r => (acc r
                            && match row_test df1 k cv
                                       (set_cell flag (VBool true) r) with
                               | Some true => true
                               | _ => false
                               end)%bool)
                 base (and_column flag mask rs)) as (rs' & Hrun & Hst').
    + eapply Forall2_compose; [|exact Hst|exact Hand].
      intros r rc rc' (H1 & H2 & H3) (b & Hb & ->).
      split; [exact H1|]. split.
      * intros c Hc. rewrite set_cell_other by assumption. now apply H2.
      * simpl. rewrite String.eqb_refl, H3. simpl. f_equal.
        destruct (acc r) eqn:Ea; simpl; [|reflexivity].
        rewrite (row_test_columns _ df1) in Hb by reflexivity.
        assert (E : row_test df1 k cv rc
                    = row_test df1 k cv (set_cell flag (VBool true) r)).
        { unfold row_test. destruct (has_column df1 k); [|reflexivity].
          f_equal. simpl.
          destruct (String.eqb k flag) eqn:Ek.
          - apply String.eqb_eq in Ek. subst k. rewrite H3.
            try rewrite Ea. reflexivity.
          - apply String.eqb_neq in Ek. now apply H2. }
        rewrite <- E, Hb. now destruct b.
    + intros k' cv' r rc Hin Hr H2 H3.
      apply (Hev k' cv' r rc); trivial. now right.
    + intros k' cv' Hin. apply (Hok k' cv'). now right.
    + exists rs'. split; [exact Hrun|].
      revert Hst'. apply Forall2_impl_In.
      intros r rc _ (H1 & H2 & H3). repeat split; trivial.
      rewrite H3. unfold row_flag. simpl. now rewrite andb_assoc.
Qed.

End CompositeLemmas.

Section CompositeClaims.

Context {rt : PyRuntime}.

(** The composite pass in closed form: the flag of every row is the
    conjunction of the conditions, nothing else changes. *)
Lemma composite_rows (df : DataFrame) (metric : Metric) :
  evaluable df metric ->
  let flag := flag_column (metric_name metric) in
  let df1 := assign df flag (VBool true) in
  exists df',
    _apply_composite df metric = Some df'
    /\ columns df' = columns df1
    /\ Forall2 (composite_state flag
                  (row_flag df1 flag (conditions metric)))
               (rows df) (rows df').
Proof.
  intros Hev flag df1. unfold _apply_composite. fold flag. fold df1.
  destruct (composite_fold df1 flag (conditions metric)
              (fun _ => true) (rows df) (rows df1)) as (rs' & Hrun & Hst).
  - unfold df1, assign. cbn [rows].
    induction (rows df) as [|r rs IH]; simpl; constructor; [|exact IH].
    repeat split.
    + intros c Hc. now apply set_cell_other.
    + simpl. now rewrite String.eqb_refl.
  - intros k cv r rc Hin Hr H2 (f & H3).
    destruct (Hev k cv Hin) as [Hok Hstr].
    unfold row_test. destruct (has_column df1 k) eqn:Hk; [|discriminate].
    apply condition_test_total; [exact Hok|].
    intros Hcmp.
    destruct (String.eqb k flag) eqn:Ek.
    + apply String.eqb_eq in Ek. subst k. now rewrite H3.
    + unfold df1 in Hk. rewrite has_column_assign, Ek, orb_false_r in Hk.
      apply String.eqb_neq in Ek. rewrite H2 by assumption.
      now apply Hstr.
  - intros k cv Hin. exact (proj1 (Hev k cv Hin)).
  - exists (mkDF (columns df1) rs'). split; [|split; [reflexivity|]].
    + destruct df1 as [cols rs]. exact Hrun.
    + simpl. revert Hst. apply Forall2_impl_In.
      intros r rc _ (H1 & H2 & H3). repeat split; trivial.
Qed.

Lemma row_flag_true (df1 : DataFrame) (flag : string)
  (conds : list (string * cond_value)) (r : Row) :
  row_flag df1 flag conds r = true
  <-> forall k cv, In (k, cv) conds ->
                   row_test df1 k cv (set_cell flag (VBool true) r)
                   = Some true.
Proof.
  unfold row_flag. rewrite forallb_forall. split.
  - intros H k cv Hin. specialize (H _ Hin). simpl in H.
    destruct (row_test df1 k cv _) as [[]|]; congruence.
  - intros H [k cv] Hin. simpl. now rewrite (H _ _ Hin).
Qed.

(** C6: for a composite definition whose referenced fields are all in the
    table (and whose comparisons can be evaluated: the thresholds parse and
    the compared columns hold no string), [is_<name>] of an event is true
    exactly when every condition holds for the event, a list being
    membership, a string that begins with [>] or [<] a strict comparison
    with the parsed threshold and any other literal equality; the other
    columns are unchanged; and any reordering of the conditions gives the
    same table.  A condition on the flag column itself reads the value the
    evaluator has just written there, [True]. *)
Theorem composite_is_conjunction (df : DataFrame) (metric : Metric) :
  (forall k cv, In (k, cv) (conditions metric) -> has_column df k = true) ->
  evaluable df metric ->
  let flag := flag_column (metric_name metric) in
  exists df',
    _apply_composite df metric = Some df'
    /\ Forall2
         (fun r r' =>
            idx r = idx r'
            /\ (forall c, c <> flag -> cells r' c = cells r c)
            /\ exists f,
                 cells r' flag = VBool f
                 /\ (f = true <->
                     forall k cv,
                       In (k, cv) (conditions metric) ->
                       condition_holds
                         (if String.eqb k flag then VBool true
                          else cells r k) cv))
         (rows df) (rows df')
    /\ forall metric2,
         metric_name metric2 = metric_name metric ->
         Permutation (conditions metric) (conditions metric2) ->
         exists df2,
           _apply_composite df metric2 = Some df2
           /\ Forall2 (fun r' r2 =>
                         idx r' = idx r2
                         /\ forall c, cells r' c = cells r2 c)
                      (rows df') (rows df2).
Proof.
  intros Hpresent Hev flag.
  destruct (composite_rows df metric Hev) as (df' & Hrun & _ & Hrows).
  fold flag in Hrows.
  assert (Hflag : forall conds r,
             (forall k cv, In (k, cv) conds ->
                           In (k, cv) (conditions metric)) ->
             row_flag (assign df flag (VBool true)) flag conds r = true
             <-> forall k cv, In (k, cv) conds ->
                   condition_holds
                     (if String.eqb k flag then VBool true else cells r k)
                     cv).
  { intros conds r Hsub. rewrite row_flag_true.
    split; intros H k cv Hin; specialize (H k cv Hin);
      unfold row_test in *;
      rewrite has_column_assign, (Hpresent k cv (Hsub _ _ Hin)) in *;
      simpl in *; now apply condition_test_holds. }
  exists df'. split; [exact Hrun|]. split.
  - revert Hrows. apply Forall2_impl_In.
    intros r r' _ (H1 & H2 & H3). split; [exact H1|]. split; [exact H2|].
    eexists. split; [exact H3|]. now apply Hflag.
  - intros metric2 Hname Hperm.
    assert (Hev2 : evaluable df metric2).
    { intros k cv Hin. rewrite Hname.
      apply Hev. eapply Permutation_in; [symmetry|]; eassumption. }
    destruct (composite_rows df metric2 Hev2) as (df2 & Hrun2 & _ & Hrows2).
    rewrite Hname in Hrows2. fold flag in Hrows2.
    exists df2. split; [exact Hrun2|].
    eapply Forall2_compose;
      [|exact (Forall2_flip Hrows)|exact Hrows2].
    intros r' r r2 (H1 & H2 & H3) (K1 & K2 & K3).
    split; [congruence|].
    intros c. destruct (String.eqb c flag) eqn:Ec.
    + apply String.eqb_eq in Ec. subst c. rewrite H3, K3. f_equal.
      apply eq_true_iff_eq.
      rewrite (Hflag (conditions metric) r) by auto.
      rewrite (Hflag (conditions metric2) r).
      * split; intros H k cv Hin; apply H;
          (eapply Permutation_in; [|exact Hin]);
          [symmetry|]; exact Hperm.
      * intros k cv Hin.
        eapply Permutation_in; [symmetry|]; eassumption.
    + apply String.eqb_neq in Ec. now rewrite H2, K2.
Qed.

(** C7 (as amended): a condition of a composite definition on a field the
    table does not hold, other than the definition's own flag column
    (which the pass creates as [True] before it reads any condition), is
    false on every event, whatever its kind (a list, a comparison or a
    literal), so that [is_<name>] is false on every event.  The
    definition must raise nothing (thresholds parse, no comparison meets
    a string), as for C6. *)
Theorem composite_absent_field_fails_closed (df : DataFrame)
  (metric : Metric) (k : string) (cv : cond_value) :
  In (k, cv) (conditions metric) ->
  has_column df k = false ->
  k <> flag_column (metric_name metric) ->
  evaluable df metric ->
  exists df',
    _apply_composite df metric = Some df'
    /\ condition_mask
         (assign df (flag_column (metric_name metric)) (VBool true)) k cv
       = Some (map (fun _ => false) (rows df))
    /\ Forall2 (fun r r' =>
                  idx r = idx r'
                  /\ cells r' (flag_column (metric_name metric))
                     = VBool false)
               (rows df) (rows df').
Proof.
  intros Hin Habsent Hne Hev.
  destruct (composite_rows df metric Hev) as (df' & Hrun & _ & Hrows).
  assert (Hk : has_column
                 (assign df (flag_column (metric_name metric)) (VBool true))
                 k = false).
  { rewrite has_column_assign, Habsent.
    apply String.eqb_neq in Hne. now rewrite Hne. }
  exists df'. split; [exact Hrun|]. split.
  - rewrite condition_mask_rows by (now apply (Hev k cv)).
    unfold row_test. rewrite Hk, mask_of_false.
    unfold assign. cbn [rows]. now rewrite map_map.
  - revert Hrows. apply Forall2_impl_In.
    intros r r' _ (H1 & _ & H3). split; [exact H1|].
    rewrite H3. f_equal.
    destruct (row_flag _ _ _ r) eqn:E; [|reflexivity].
    rewrite row_flag_true in E. specialize (E k cv Hin).
    unfold row_test in E. rewrite Hk in E. discriminate.
Qed.

End CompositeClaims.

(** ** The pipeline *)

Section PipelineClaims.

Context {rt : PyRuntime}.

Lemma enrich_app (metrics1 metrics2 : list Metric) (df : DataFrame) :
  enrich (metrics1 ++ metrics2) df
  = df' <- enrich metrics1 df ;; enrich metrics2 df'.
Proof.
  unfold enrich. rewrite fold_left_app.
  generalize (fold_left (fun s metric => df0 <- s ;; apply_metric df0 metric)
                        metrics1 (Some df)).
  intros [df'|]; simpl; [reflexivity|].
  induction metrics2 as [|m ms IH]; simpl; [reflexivity|exact IH].
Qed.

Lemma enrich_cons (metric : Metric) (metrics : list Metric)
  (df : DataFrame) :
  enrich (metric :: metrics) df
  = df' <- apply_metric df metric ;; enrich metrics df'.
Proof.
  change (metric :: metrics) with ([metric] ++ metrics).
  rewrite enrich_app. reflexivity.
Qed.

(** C8 (as amended): a definition whose type is none of situational,
    spatial, temporal and composite is skipped: its application returns the
    table as it is and raises nothing, and the pipeline gives what it gives
    on the catalog without that definition. *)
Theorem unknown_type_is_skipped (metrics1 metrics2 : list Metric)
  (metric : Metric) (df : DataFrame) :
  metric_type metric <> "situational" ->
  metric_type metric <> "spatial" ->
  metric_type metric <> "temporal" ->
  metric_type metric <> "composite" ->
  apply_metric df metric = Some df
  /\ enrich (metrics1 ++ metric :: metrics2) df
     = enrich (metrics1 ++ metrics2) df.
Proof.
  intros H1 H2 H3 H4.
  assert (Hskip : forall df0, apply_metric df0 metric = Some df0).
  { intros df0. unfold apply_metric.
    apply String.eqb_neq in H1, H2, H3, H4.
    now rewrite H1, H2, H3, H4. }
  split; [apply Hskip|].
  rewrite !enrich_app.
  destruct (enrich metrics1 df) as [df1|]; simpl; [|reflexivity].
  rewrite enrich_cons, Hskip. reflexivity.
Qed.

(** C10: a situational definition whose name is not [Clutch_Situations]
    and a temporal definition whose name is not [Trade_Efficiency] leave
    the table as it is: the annotator returns its argument, and so does the
    pipeline on that definition. *)
Theorem gated_on_metric_name (df : DataFrame) (metric : Metric) :
  (metric_type metric = "situational"
   /\ metric_name metric <> "Clutch_Situations")
  \/ (metric_type metric = "temporal"
      /\ metric_name metric <> "Trade_Efficiency") ->
  apply_metric df metric = Some df
  /\ enrich [metric] df = Some df
  /\ (metric_type metric = "situational" ->
      _apply_situational df metric = Some df)
  /\ (metric_type metric = "temporal" ->
      _apply_temporal df metric = Some df).
Proof.
  intros H.
  assert (Happly : apply_metric df metric = Some df
                   /\ (metric_type metric = "situational" ->
                       _apply_situational df metric = Some df)
                   /\ (metric_type metric = "temporal" ->
                       _apply_temporal df metric = Some df)).
  { unfold apply_metric, _apply_situational, _apply_temporal.
    destruct H as [[Ht Hn]|[Ht Hn]]; rewrite Ht; simpl;
      apply String.eqb_neq in Hn; rewrite Hn;
      repeat split; trivial; discriminate. }
  destruct Happly as (H1 & H2 & H3).
  split; [exact H1|]. split; [|now split].
  rewrite enrich_cons, H1. reflexivity.
Qed.

End PipelineClaims.

(** C8 (as stated) fails: on a catalog that holds a definition of type
    "statistical" the pipeline reports nothing; it returns the table it
    returns on the catalog without that definition. *)
Lemma unknown_type_not_reported :
  @enrich example_runtime [unknown_metric; clutch_metric] demo_kill <> None
  /\ @enrich example_runtime [unknown_metric; clutch_metric] demo_kill
     = @enrich example_runtime [clutch_metric] demo_kill
  /\ @enrich example_runtime [unknown_metric] demo_kill = Some demo_kill.
Proof. repeat split; vm_compute; try reflexivity. discriminate. Qed.

Lemma unknown_type_is_skipped_witness :
  @apply_metric example_runtime demo_kill unknown_metric = Some demo_kill
  /\ @enrich example_runtime ([clutch_metric] ++ unknown_metric :: []) demo_kill
     = @enrich example_runtime ([clutch_metric] ++ []) demo_kill.
Proof.
  apply (@unknown_type_is_skipped example_runtime [clutch_metric] []
           unknown_metric demo_kill); discriminate.
Defined.

(** A situational definition under another name. *)
Lemma gated_on_metric_name_witness :
  let metric := mkMetric "Player_Advantage" "situational" None None [] in
  @apply_metric example_runtime six_deaths metric = Some six_deaths
  /\ @enrich example_runtime [metric] six_deaths = Some six_deaths
  /\ (metric_type metric = "situational" ->
      _apply_situational six_deaths metric = Some six_deaths)
  /\ (metric_type metric = "temporal" ->
      @_apply_temporal example_runtime six_deaths metric = Some six_deaths).
Proof.
  apply (@gated_on_metric_name example_runtime six_deaths
           (mkMetric "Player_Advantage" "situational" None None [])).
  left. split; [reflexivity|discriminate].
Defined.

(** ** Examples of the spatial and composite claims *)

Lemma in_zone_closed_rectangle_witness :
  exists df',
    @_apply_spatial example_runtime market_positions market_metric = Some df'
    /\ Forall2
         (fun r r' =>
            idx r = idx r'
            /\ forall x y,
                 cells r "playerX" = VNum x ->
                 cells r "playerY" = VNum y ->
                 exists flag,
                   cells r' (zone_column (metric_name market_metric))
                   = VBool flag
                   /\ (flag = true <->
                       cells r "map" = VStr "Ascent"
                       /\ above (x_min market_bounds) x
                       /\ below x (x_max market_bounds)
                       /\ above (y_min market_bounds) y
                       /\ below y (y_max market_bounds)))
         (rows market_positions) (rows df').
Proof.
  apply (@in_zone_closed_rectangle example_runtime market_positions
           market_metric market_bounds "Ascent"); try reflexivity.
  intros r [<-|[<-|[<-|[]]]]; split; reflexivity.
Defined.

(** The positions of the specification: (500,1200) and (800,1500) are in
    the zone, (499,1200) is not. *)
Lemma market_boundary_example :
  (df' <- @_apply_spatial example_runtime market_positions market_metric ;;
   Some (map (fun r => cells r "in_zone_market") (rows df')))
  = Some [VBool true; VBool false; VBool true].
Proof. vm_compute. reflexivity. Qed.

Lemma rule_metric_evaluable : @evaluable example_runtime rule_table rule_metric.
Proof.
  intros k cv [H|[H|[]]]; injection H as <- <-; split; simpl;
    try discriminate; trivial.
  intros _ _ _ r [<-|[<-|[<-|[]]]]; reflexivity.
Qed.

Lemma absent_field_metric_evaluable :
  @evaluable example_runtime rule_table absent_field_metric.
Proof.
  intros k cv [H|[H|[]]]; injection H as <- <-; split; simpl;
    try discriminate; trivial.
Qed.

Lemma composite_is_conjunction_witness :
  let flag := flag_column (metric_name rule_metric) in
  exists df',
    @_apply_composite example_runtime rule_table rule_metric = Some df'
    /\ Forall2
         (fun r r' =>
            idx r = idx r'
            /\ (forall c, c <> flag -> cells r' c = cells r c)
            /\ exists f,
                 cells r' flag = VBool f
                 /\ (f = true <->
                     forall k cv,
                       In (k, cv) (conditions rule_metric) ->
                       @condition_holds example_runtime
                         (if String.eqb k flag then VBool true
                          else cells r k) cv))
         (rows rule_table) (rows df')
    /\ forall metric2,
         metric_name metric2 = metric_name rule_metric ->
         Permutation (conditions rule_metric) (conditions metric2) ->
         exists df2,
           @_apply_composite example_runtime rule_table metric2 = Some df2
           /\ Forall2 (fun r' r2 =>
                         idx r' = idx r2
                         /\ forall c, cells r' c = cells r2 c)
                      (rows df') (rows df2).
Proof.
  apply (@composite_is_conjunction example_runtime rule_table rule_metric).
  - intros k cv [H|[H|[]]]; injection H as <- <-; reflexivity.
  - exact rule_metric_evaluable.
Defined.

(** The rule [{a: [1,2], b: ">3"}] of the specification: true on the row
    with [a = 1] and [b = 4], false where [a = 3] and where [b = 3]. *)
Lemma rule_example :
  (df' <- @_apply_composite example_runtime rule_table rule_metric ;;
   Some (map (fun r => cells r "is_exit_frag") (rows df')))
  = Some [VBool true; VBool false; VBool false].
Proof. vm_compute. reflexivity. Qed.

Lemma composite_absent_field_fails_closed_witness :
  exists df',
    @_apply_composite example_runtime rule_table absent_field_metric
    = Some df'
    /\ @condition_mask example_runtime
         (assign rule_table (flag_column (metric_name absent_field_metric))
                 (VBool true))
         "c" (CScalar (VStr "kill"))
       = Some (map (fun _ => false) (rows rule_table))
    /\ Forall2 (fun r r' =>
                  idx r = idx r'
                  /\ cells r' (flag_column (metric_name absent_field_metric))
                     = VBool false)
               (rows rule_table) (rows df').
Proof.
  apply (@composite_absent_field_fails_closed example_runtime rule_table
           absent_field_metric "c" (CScalar (VStr "kill"))).
  - right. now left.
  - reflexivity.
  - discriminate.
  - exact absent_field_metric_evaluable.
Defined.

(** ** Sorting by a column *)

Lemma key_leb_total (a b : value) : key_leb a b = false -> key_leb b a = true.
Proof.
  unfold key_leb.
  destruct (num_of b) as [y|], (num_of a) as [x|]; try discriminate; trivial.
  intros H. apply Qle_bool_iff.
  destruct (Qlt_le_dec y x) as [Hlt|Hle].
  - now apply Qlt_le_weak.
  - apply Qle_bool_iff in Hle. congruence.
Qed.

Lemma key_leb_trans (a b c : value) :
  key_leb a b = true -> key_leb b c = true -> key_leb a c = true.
Proof.
  unfold key_leb.
  destruct (num_of c) as [z|]; trivial.
  destruct (num_of b) as [y|]; [|discriminate].
  destruct (num_of a) as [x|]; [|discriminate].
  intros H1 H2. apply Qle_bool_iff in H1, H2. apply Qle_bool_iff.
  eapply Qle_trans; eassumption.
Qed.

Lemma insert_row_perm (c : string) (r : Row) (rs : list Row) :
  Permutation (insert_row c r rs) (r :: rs).
Proof.
  induction rs as [|a rs IH]; simpl; [reflexivity|].
  destruct (key_leb (cells r c) (cells a c)); [reflexivity|].
  rewrite IH. apply perm_swap.
Qed.

Lemma stable_sort_perm (c : string) (rs : list Row) :
  Permutation (stable_sort c rs) rs.
Proof.
  induction rs as [|r rs IH]; simpl; [reflexivity|].
  rewrite insert_row_perm. now constructor.
Qed.

Lemma insert_row_sorted (c : string) (r : Row) (rs : list Row) :
  StronglySorted (key_le c) rs -> StronglySorted (key_le c) (insert_row c r rs).
Proof.
  induction rs as [|a rs IH]; simpl; intros H.
  - repeat constructor.
  - inversion H as [|? ? Hs Hall]; subst.
    destruct (key_leb (cells r c) (cells a c)) eqn:E.
    + constructor; [exact H|]. constructor; [exact E|].
      revert Hall. apply Forall_impl. intros b Hb.
      exact (key_leb_trans _ _ _ E Hb).
    + constructor; [now apply IH|].
      assert (Hperm := insert_row_perm c r rs).
      apply Forall_forall. intros b Hb.
      apply (Permutation_in _ Hperm) in Hb. destruct Hb as [<-|Hb].
      * now apply key_leb_total.
      * rewrite Forall_forall in Hall. now apply Hall.
Qed.

Lemma stable_sort_sorted (c : string) (rs : list Row) :
  StronglySorted (key_le c) (stable_sort c rs).
Proof.
  induction rs as [|r rs IH]; simpl; [constructor|].
  now apply insert_row_sorted.
Qed.

(** A frame already in order is left as it is. *)
Lemma stable_sort_fixed (c : string) (rs : list Row) :
  Sorted (key_le c) rs -> stable_sort c rs = rs.
Proof.
  induction 1 as [|r rs Hs IH Hhd]; simpl; [reflexivity|].
  rewrite IH. destruct Hhd as [|b l Hb]; simpl; [reflexivity|].
  unfold key_le in Hb. now rewrite Hb.
Qed.

Lemma insert_row_map (c : string) (f : Row -> Row) (r : Row)
  (rs : list Row) :
  (forall x, cells (f x) c = cells x c) ->
  insert_row c (f r) (map f rs) = map f (insert_row c r rs).
Proof.
  intros H. induction rs as [|a rs IH]; simpl; [reflexivity|].
  rewrite !H. destruct (key_leb (cells r c) (cells a c)); simpl;
    [reflexivity|now rewrite IH].
Qed.

Lemma stable_sort_map (c : string) (f : Row -> Row) (rs : list Row) :
  (forall x, cells (f x) c = cells x c) ->
  stable_sort c (map f rs) = map f (stable_sort c rs).
Proof.
  intros H. induction rs as [|r rs IH]; simpl; [reflexivity|].
  now rewrite IH, insert_row_map.
Qed.

Lemma insert_row_agree (X : string -> Prop) (c : string) (r r' : Row)
  (rs rs' : list Row) :
  ~ X c -> agree_row X r r' -> Forall2 (agree_row X) rs rs' ->
  Forall2 (agree_row X) (insert_row c r rs) (insert_row c r' rs').
Proof.
  intros Hc Hr H. induction H as [|a a' rs rs' Ha Hrs IH]; simpl.
  - constructor; [exact Hr | constructor].
  - rewrite <- (proj2 Hr c Hc), <- (proj2 Ha c Hc).
    destruct (key_leb (cells r c) (cells a c)).
    + constructor; [exact Hr|]. constructor; assumption.
    + constructor; assumption.
Qed.

Lemma stable_sort_agree (X : string -> Prop) (c : string) (rs rs' : list Row) :
  ~ X c -> Forall2 (agree_row X) rs rs' ->
  Forall2 (agree_row X) (stable_sort c rs) (stable_sort c rs').
Proof.
  intros Hc H. induction H; simpl; [constructor|].
  now apply insert_row_agree.
Qed.


(** The insertion sort is a sort in the sense of [PySort]. *)
Lemma example_sort : PySort example_runtime.
Proof.
  split.
  - exact stable_sort_perm.
  - exact stable_sort_sorted.
  - intros c f rs H. apply stable_sort_map. exact H.
Qed.

(** ** The temporal pass in closed form *)

Lemma Forall2_rev_both {A B : Type} (R : A -> B -> Prop) (l : list A)
  (l' : list B) :
  Forall2 R l l' -> Forall2 R (List.rev l) (List.rev l').
Proof.
  induction 1; simpl; [constructor|].
  apply Forall2_app; [assumption|]. now repeat constructor.
Qed.

Lemma filter_agree (X : string -> Prop) (p p' : Row -> bool)
  (rs rs' : list Row) :
  (forall r r', agree_row X r r' -> p r = p' r') ->
  Forall2 (agree_row X) rs rs' ->
  Forall2 (agree_row X) (filter p rs) (filter p' rs').
Proof.
  intros Hp H. induction H as [|r r' rs rs' Hr Hrs IH]; simpl;
    [constructor|].
  rewrite <- (Hp _ _ Hr). destruct (p r); [constructor|]; assumption.
Qed.

Lemma row_get_agree (X : string -> Prop) (df df' : DataFrame) (r r' : Row)
  (c : string) (d : value) :
  ~ X c -> has_column df c = has_column df' c -> agree_row X r r' ->
  row_get df r c d = row_get df' r' c d.
Proof.
  intros Hc Hcol [_ H]. unfold row_get. now rewrite Hcol, (H c Hc).
Qed.

Lemma recent_death_agree (X : string -> Prop) (killer_team kill_time : value)
  (r r' : Row) :
  outside X temporal_reads -> agree_row X r r' ->
  recent_death killer_team kill_time r = recent_death killer_team kill_time r'.
Proof.
  intros HX [_ H]. unfold recent_death.
  rewrite (H "eventType"), (H "victimTeam"), (H "gameTime");
    trivial; apply HX; simpl; tauto.
Qed.

Lemma kill_row_agree (X : string -> Prop) (r r' : Row) :
  outside X temporal_reads -> agree_row X r r' -> kill_row r = kill_row r'.
Proof.
  intros HX [_ H]. unfold kill_row. rewrite (H "eventType"); trivial.
  apply HX. simpl. tauto.
Qed.

Lemma trade_names_outside : outside trade_names temporal_reads.
Proof.
  intros c Hc Ht. unfold trade_names, temporal_reads in *. simpl in *.
  repeat (destruct Hc as [<-|Hc]; [intuition discriminate|]).
  exact Hc.
Qed.

Lemma fold_left_none {A B : Type} (f : A -> B -> option A) (l : list B) :
  fold_left (fun s x => a <- s ;; f a x) l None = None.
Proof. induction l; simpl; trivial. Qed.

Section TemporalLemmas.

Context {rt : PyRuntime}.

(** The values of a kill are read outside the written columns. *)
Lemma trade_values_agree (X : string -> Prop) (df df' : DataFrame)
  (rs rs' : list Row) (r r' : Row) :
  outside X temporal_reads ->
  same_presence df df' temporal_reads ->
  Forall2 (agree_row X) rs rs' ->
  agree_row X r r' ->
  trade_values df rs r = trade_values df' rs' r'.
Proof.
  intros HX Hp Hrs Hr. unfold trade_values.
  assert (Hget : forall a a' c d, In c temporal_reads -> agree_row X a a' ->
                                  row_get df a c d = row_get df' a' c d).
  { intros a a' c d Hc Ha. apply (row_get_agree X); auto. }
  rewrite (Hget r r' "killerTeam"), (Hget r r' "gameTime"),
    (Hget r r' "killerX"), (Hget r r' "killerY"), (Hp "victimTeam");
    trivial; try (simpl; tauto).
  destruct (has_column df' "victimTeam"); [|reflexivity].
  pose proof (Forall2_rev_both _ _ _
                (filter_agree X _ _ rs rs'
                   (fun a a' => recent_death_agree X
                                  (row_get df' r' "killerTeam" VNone)
                                  (row_get df' r' "gameTime" (VNum 0))
                                  a a' HX) Hrs)) as Hl.
  destruct Hl as [|a a' l l' Ha _]; [reflexivity|].
  rewrite (Hget a a' "victimX"), (Hget a a' "victimY"),
    (Hget a a' "gameTime"); trivial; simpl; tauto.
Qed.

Lemma trade_write_agree (tv : option (value * value)) (r : Row) :
  agree_row trade_names r (trade_write tv r).
Proof.
  destruct tv as [[t d]|]; simpl; [|apply agree_row_refl].
  destruct (num_leb d (VNum 15)); split; trivial;
    intros c Hc; unfold trade_names in Hc; simpl in Hc;
    rewrite !set_cell_other; trivial; intros ->; tauto.
Qed.

Lemma idx_trade_write (tv : option (value * value)) (r : Row) :
  idx (trade_write tv r) = idx r.
Proof. symmetry. apply (trade_write_agree tv r). Qed.

(** One iteration on the frame whose row [r] is the kill. *)
Lemma temporal_kill_app (cols : list string) (pre suf : list Row) (r : Row) :
  trade_columns cols ->
  NoDup (map idx (pre ++ r :: suf)) ->
  temporal_kill (idx r) (mkDF cols (pre ++ r :: suf))
  = tv <- trade_values (mkDF cols []) (pre ++ r :: suf) r ;;
    Some (mkDF cols (pre ++ trade_write tv r :: suf)).
Proof.
  intros (C1 & C2 & C3) Hnd.
  destruct (NoDup_middle _ _ _ Hnd) as [Hpre Hsuf].
  unfold temporal_kill, trade_values. rewrite loc_app by assumption.
  cbn [bind]. unfold column, row_get, has_column. cbn [columns rows].
  destruct (existsb (String.eqb "victimTeam") cols); [|reflexivity].
  cbn [bind].
  destruct (List.rev _) as [|last_death l]; [reflexivity|].
  destruct (_calculate_distance _ _ _ _) as [distance|]; [|reflexivity].
  cbn [bind trade_write].
  rewrite (at_set_app cols pre suf r) by assumption.
  rewrite (at_set_app cols pre suf (set_cell _ _ r)) by assumption.
  destruct (num_leb distance (VNum 15)); [|reflexivity].
  now rewrite (at_set_app cols pre suf (set_cell _ _ (set_cell _ _ r)))
    by assumption.
Qed.

(** The loop over the kills that are still to visit. *)
Lemma temporal_fold (cols : list string) (suf pre pre' : list Row) :
  trade_columns cols ->
  Forall2 (agree_row trade_names) pre pre' ->
  NoDup (map idx (pre ++ suf)) ->
  fold_left (fun s i => df <- s ;; temporal_kill i df)
            (map idx (filter kill_row suf))
            (Some (mkDF cols (pre' ++ suf)))
  = rs <- trade_rows (mkDF cols []) (pre ++ suf) suf ;;
    Some (mkDF cols (pre' ++ rs)).
Proof.
  intros Hcols. revert pre pre'.
  induction suf as [|r suf IH]; intros pre pre' Hag Hnd; simpl.
  - now rewrite app_nil_r.
  - assert (Hidx : map idx pre' = map idx pre)
      by (symmetry; exact (agree_rows_index _ _ _ Hag)).
    assert (Hnd' : NoDup (map idx (pre' ++ r :: suf))).
    { rewrite map_app, Hidx, <- map_app. exact Hnd. }
    destruct (kill_row r) eqn:Ek; simpl.
    + rewrite temporal_kill_app by assumption.
      rewrite (trade_values_agree trade_names _ (mkDF cols [])
                 (pre' ++ r :: suf) (pre ++ r :: suf) r r);
        try apply trade_names_outside; try (intros c _; reflexivity);
        try apply agree_row_refl.
      2:{ apply Forall2_app; [|apply agree_rows_refl].
          clear - Hag. induction Hag; constructor; trivial.
          destruct H as [H1 H2]. split; [congruence|].
          intros c Hc. symmetry. now apply H2. }
      destruct (trade_values (mkDF cols []) (pre ++ r :: suf) r) as [tv|];
        cbn [bind]; [|apply fold_left_none].
      specialize (IH (pre ++ [r]) (pre' ++ [trade_write tv r])).
      rewrite <- !app_assoc in IH. simpl in IH. rewrite IH.
      * destruct (trade_rows _ _ suf); simpl; [|reflexivity].
        now rewrite <- app_assoc.
      * apply Forall2_app; [exact Hag|].
        constructor; [apply trade_write_agree|constructor].
      * exact Hnd.
    + specialize (IH (pre ++ [r]) (pre' ++ [r])).
      rewrite <- !app_assoc in IH. simpl in IH. rewrite IH.
      * destruct (trade_rows _ _ suf); simpl; [|reflexivity].
        now rewrite <- app_assoc.
      * apply Forall2_app; [exact Hag|].
        constructor; [apply agree_row_refl|constructor].
      * exact Hnd.
Qed.

End TemporalLemmas.

Lemma reset_trades_agree (df : DataFrame) :
  Forall2 (agree_row trade_names) (rows df) (rows (reset_trades df)).
Proof.
  unfold reset_trades, assign. simpl. rewrite !map_map.
  induction (rows df) as [|r rs IH]; simpl; constructor; [|exact IH].
  split; [reflexivity|].
  intros c Hc. unfold trade_names in Hc. simpl in Hc.
  rewrite !set_cell_other; trivial; intros ->; tauto.
Qed.

Lemma reset_trades_columns (df : DataFrame) :
  trade_columns (columns (reset_trades df)).
Proof.
  unfold trade_columns.
  repeat split;
    match goal with
    | |- existsb (String.eqb ?c) (columns ?d) = true =>
        change (has_column d c = true)
    end;
    unfold reset_trades; rewrite !has_column_assign; simpl;
    rewrite ?orb_true_r; reflexivity.
Qed.

Lemma reset_trades_has (df : DataFrame) (c : string) :
  ~ trade_names c -> has_column (reset_trades df) c = has_column df c.
Proof.
  intros Hc. unfold trade_names in Hc. simpl in Hc.
  unfold reset_trades. rewrite !has_column_assign.
  assert (H1 : String.eqb c "is_trade_kill" = false)
    by (apply String.eqb_neq; intros ->; tauto).
  assert (H2 : String.eqb c "time_since_teammate_death" = false)
    by (apply String.eqb_neq; intros ->; tauto).
  assert (H3 : String.eqb c "distance_to_teammate_death" = false)
    by (apply String.eqb_neq; intros ->; tauto).
  now rewrite H1, H2, H3, !orb_false_r.
Qed.

Lemma reset_trades_cells (r : Row) :
  let r' := set_cell "distance_to_teammate_death" VNone
              (set_cell "time_since_teammate_death" VNone
                 (set_cell "is_trade_kill" (VBool false) r)) in
  cells r' "is_trade_kill" = VBool false
  /\ cells r' "time_since_teammate_death" = VNone
  /\ cells r' "distance_to_teammate_death" = VNone.
Proof. repeat split. Qed.

Lemma rows_reset_trades (df : DataFrame) :
  rows (reset_trades df)
  = map (fun r => set_cell "distance_to_teammate_death" VNone
                    (set_cell "time_since_teammate_death" VNone
                       (set_cell "is_trade_kill" (VBool false) r)))
        (rows df).
Proof. unfold reset_trades, assign. simpl. now rewrite !map_map. Qed.

Lemma key_leb_refl (v : value) : key_leb v v = true.
Proof.
  unfold key_leb. destruct (num_of v); trivial.
  apply Qle_bool_iff, Qle_refl.
Qed.

(** The last row of a sorted list is the greatest. *)
Lemma sorted_last_greatest (c : string) (l : list Row) (v : Row)
  (rest : list Row) :
  StronglySorted (key_le c) l -> List.rev l = v :: rest ->
  forall v', In v' l -> key_le c v' v.
Proof.
  intros Hs Hrev.
  assert (Hl : l = List.rev rest ++ [v]).
  { rewrite <- (rev_involutive l), Hrev. reflexivity. }
  subst l. clear Hrev. intros v' Hin.
  induction (List.rev rest) as [|a l IH]; simpl in *.
  - destruct Hin as [<-|[]]. apply key_leb_refl.
  - inversion Hs as [|? ? Hs' Hall]; subst.
    destruct Hin as [<-|Hin]; [|now apply IH].
    rewrite Forall_forall in Hall. apply Hall.
    apply in_or_app. right. now left.
Qed.

Lemma StronglySorted_filter (c : string) (p : Row -> bool) (l : list Row) :
  StronglySorted (key_le c) l -> StronglySorted (key_le c) (filter p l).
Proof.
  induction 1 as [|a l Hs IH Hall]; simpl; [constructor|].
  destruct (p a); [|exact IH].
  constructor; [exact IH|].
  rewrite Forall_forall in *. intros x Hx.
  apply filter_In in Hx. now apply Hall.
Qed.

(** The mask of the recent deaths is the window of the specification. *)
Lemma recent_death_spec (team t : value) (v : Row) :
  recent_death team t v = true <-> qualifies team t v.
Proof.
  unfold recent_death, qualifies, num_ltb, num_geb, num_sub.
  rewrite !andb_true_iff. simpl num_of.
  destruct (num_of (cells v "gameTime")) as [tv|];
    destruct (num_of t) as [tk|]; simpl.
  - rewrite Qlt_bool_iff, Qle_bool_iff. split.
    + intros [[[H1 H2] H3] H4].
      split; [exact H1|]. split; [exact H2|].
      exists tv, tk. repeat split; try assumption.
    + intros (H1 & H2 & tv' & tk' & E1 & E2 & H3 & H4).
      injection E1 as <-. injection E2 as <-. repeat split; assumption.
  - split; [intros [[_ H] _]; discriminate|].
    intros (_ & _ & tv' & tk' & _ & E & _). discriminate.
  - split; [intros [[_ H] _]; discriminate|].
    intros (_ & _ & tv' & tk' & E & _). discriminate.
  - split; [intros [[_ H] _]; discriminate|].
    intros (_ & _ & tv' & tk' & E & _). discriminate.
Qed.

Section TemporalRows.

Context {rt : PyRuntime} {ps : PySort rt}.

Lemma trade_values_columns (df df' : DataFrame) (rs : list Row) (r : Row) :
  columns df = columns df' -> trade_values df rs r = trade_values df' rs r.
Proof.
  intros H. unfold trade_values, row_get, has_column. now rewrite H.
Qed.

Lemma trade_rows_columns (df df' : DataFrame) (all rs : list Row) :
  columns df = columns df' -> trade_rows df all rs = trade_rows df' all rs.
Proof.
  intros H. induction rs as [|r rs IH]; simpl; [reflexivity|].
  now rewrite IH, (trade_values_columns df df').
Qed.

Lemma trade_rows_Forall2 (df : DataFrame) (all rs rs' : list Row) :
  trade_rows df all rs = Some rs' ->
  Forall2 (fun r r' =>
             if kill_row r
             then exists tv, trade_values df all r = Some tv
                             /\ r' = trade_write tv r
             else r' = r)
          rs rs'.
Proof.
  revert rs'. induction rs as [|r rs IH]; simpl; intros rs' H.
  - injection H as <-. constructor.
  - destruct (kill_row r) eqn:Ek.
    + destruct (trade_values df all r) as [tv|] eqn:Etv; [|discriminate].
      cbn [bind] in H.
      destruct (trade_rows df all rs) as [rest|]; [|discriminate].
      injection H as <-. constructor; [|now apply IH].
      cbv beta. rewrite Ek. exists tv. now split.
    + destruct (trade_rows df all rs) as [rest|]; [|discriminate].
      injection H as <-. constructor; [|now apply IH].
      cbv beta. now rewrite Ek.
Qed.

Lemma trade_rows_total (df : DataFrame) (all rs : list Row) :
  (forall r, In r rs -> kill_row r = true ->
             trade_values df all r <> None) ->
  exists rs', trade_rows df all rs = Some rs'.
Proof.
  induction rs as [|r rs IH]; simpl; intros H; [eauto|].
  destruct IH as (rest & ->); [auto|].
  destruct (kill_row r) eqn:Ek; [|simpl; eauto].
  destruct (trade_values df all r) as [tv|] eqn:E; [simpl; eauto|].
  now destruct (H r (or_introl eq_refl) Ek).
Qed.

Lemma calculate_distance_values (x1 y1 x2 y2 : value) :
  is_str x1 = false -> is_str y1 = false ->
  is_str x2 = false -> is_str y2 = false ->
  _calculate_distance x1 y1 x2 y2 <> None.
Proof.
  destruct x1 as [?|?|[]|], y1 as [?|?|[]|], x2 as [?|?|[]|],
    y2 as [?|?|[]|]; simpl; discriminate.
Qed.

Lemma row_get_not_str (df : DataFrame) (r : Row) (c : string) :
  is_str (cells r c) = false -> is_str (row_get df r c (VNum 0)) = false.
Proof. unfold row_get. now destruct (has_column df c). Qed.

Lemma trade_values_total (df : DataFrame) (all : list Row) (r : Row) :
  has_column df "victimTeam" = true ->
  (forall a c, In a (r :: all) ->
               In c ["killerX"; "killerY"; "victimX"; "victimY"] ->
               is_str (cells a c) = false) ->
  trade_values df all r <> None.
Proof.
  intros Hcol Hstr. unfold trade_values. rewrite Hcol.
  destruct (List.rev _) as [|last_death l] eqn:E; [discriminate|].
  assert (Hin : In last_death all).
  { assert (H : In last_death (List.rev (filter
                 (recent_death (row_get df r "killerTeam" VNone)
                               (row_get df r "gameTime" (VNum 0))) all)))
      by (rewrite E; now left).
    apply in_rev, filter_In in H. tauto. }
  destruct (_calculate_distance _ _ _ _) eqn:Ed; [discriminate|].
  exfalso. revert Ed. apply calculate_distance_values;
    apply row_get_not_str; apply Hstr; simpl; tauto.
Qed.

(** The temporal pass: reset, sort, then the kills. *)
Lemma temporal_rows (df : DataFrame) (metric : Metric) :
  metric_name metric = "Trade_Efficiency" ->
  NoDup (index df) ->
  _apply_temporal df metric
  = df2 <- sort_values (reset_trades df) "gameTime" ;;
    _ <- column df2 "eventType" ;;
    rs <- trade_rows df2 (rows df2) (rows df2) ;;
    Some (mkDF (columns df2) rs).
Proof.
  intros Hname Hnd. unfold _apply_temporal. rewrite Hname.
  simpl String.eqb. cbv iota.
  change (assign (assign (assign df "is_trade_kill" (VBool false))
                         "time_since_teammate_death" VNone)
                 "distance_to_teammate_death" VNone) with (reset_trades df).
  destruct (sort_values (reset_trades df) "gameTime") as [df2|] eqn:Es;
    [|reflexivity].
  cbn [bind].
  destruct (column df2 "eventType"); [|reflexivity]. cbn [bind].
  assert (Hdf2 : columns df2 = columns (reset_trades df)
                 /\ rows df2 = sort_rows "gameTime" (rows (reset_trades df))).
  { unfold sort_values in Es.
    destruct (has_column _ _); [|discriminate].
    destruct (existsb _ _); [discriminate|].
    injection Es as <-. now split. }
  destruct Hdf2 as [Hc Hr].
  unfold index_where.
  change (fun r : Row => value_eqb (cells r "eventType") (VStr "kill"))
    with kill_row.
  destruct df2 as [cols rs]. simpl in Hc, Hr. cbn [rows columns].
  rewrite (temporal_fold cols rs [] []).
  - simpl. now rewrite (trade_rows_columns _ (mkDF cols rs)).
  - rewrite Hc. apply reset_trades_columns.
  - constructor.
  - simpl. rewrite Hr.
    assert (Hn : NoDup (map idx (rows (reset_trades df)))).
    { rewrite <- (agree_rows_index _ _ _ (reset_trades_agree df)).
      exact Hnd. }
    eapply Permutation_NoDup; [|exact Hn].
    apply Permutation_map. symmetry. apply sort_rows_perm.
Qed.

End TemporalRows.

Lemma reset_row_agree (r : Row) : agree_row trade_names r (reset_row r).
Proof.
  split; [reflexivity|].
  intros c Hc. unfold trade_names in Hc. simpl in Hc. unfold reset_row.
  rewrite !set_cell_other; trivial; intros ->; tauto.
Qed.

Lemma agree_row_sym (X : string -> Prop) (r r' : Row) :
  agree_row X r r' -> agree_row X r' r.
Proof.
  intros [H1 H2]. split; [congruence|].
  intros c Hc. symmetry. now apply H2.
Qed.

Lemma Forall2_map_r {A B C : Type} (R : A -> C -> Prop) (f : B -> C)
  (l : list A) (l' : list B) :
  Forall2 R l (map f l') <-> Forall2 (fun a b => R a (f b)) l l'.
Proof.
  split.
  - revert l. induction l' as [|b l' IH]; simpl; intros l H;
      inversion H; subst; constructor; auto.
  - induction 1; simpl; constructor; auto.
Qed.

Lemma Forall2_diag {A : Type} (R : A -> A -> Prop) (l : list A) :
  (forall a, In a l -> R a a) -> Forall2 R l l.
Proof.
  induction l as [|a l IH]; intros H; constructor.
  - apply H. now left.
  - apply IH. intros b Hb. apply H. now right.
Qed.

Lemma existsb_map_rows (p : Row -> bool) (f : Row -> Row) (l : list Row) :
  existsb p (map f l) = existsb (fun x => p (f x)) l.
Proof. induction l as [|a l IH]; simpl; [reflexivity|]. now rewrite IH. Qed.

Section TemporalResult.

Context {rt : PyRuntime} {ps : PySort rt}.

(** The temporal pass on a well-typed table: the rows in [gameTime] order,
    every kill written with the values computed on the sorted input, every
    other row reset. *)
Lemma temporal_result (df : DataFrame) (metric : Metric) :
  metric_name metric = "Trade_Efficiency" ->
  NoDup (index df) ->
  has_column df "gameTime" = true ->
  has_column df "eventType" = true ->
  has_column df "victimTeam" = true ->
  no_strings df ["gameTime"; "killerX"; "killerY"; "victimX"; "victimY"] ->
  exists df',
    _apply_temporal df metric = Some df'
    /\ columns df' = columns (reset_trades df)
    /\ NoDup (index df')
    /\ Forall2
         (fun r r' =>
            if kill_row r
            then exists tv,
                trade_values df (sort_rows "gameTime" (rows df)) r = Some tv
                /\ r' = trade_write tv (reset_row r)
            else r' = reset_row r)
         (sort_rows "gameTime" (rows df)) (rows df').
Proof.
  intros Hname Hnd Hgt Het Hvt Hstr.
  rewrite temporal_rows by assumption.
  assert (Hrows : rows (reset_trades df) = map reset_row (rows df))
    by apply rows_reset_trades.
  assert (Hsort : sort_values (reset_trades df) "gameTime"
                  = Some (mkDF (columns (reset_trades df))
                               (map reset_row
                                    (sort_rows "gameTime" (rows df))))).
  { unfold sort_values.
    rewrite reset_trades_has, Hgt
      by (unfold trade_names; simpl; intuition discriminate).
    rewrite Hrows, existsb_map_rows.
    destruct (existsb _ (rows df)) eqn:E.
    - apply existsb_exists in E. destruct E as (r & Hr & E).
      simpl in E. rewrite (Hstr r "gameTime") in E;
        [discriminate|exact Hr|simpl; tauto].
    - rewrite sort_rows_map; [reflexivity|]. intros x. reflexivity. }
  rewrite Hsort. cbn [bind]. unfold column at 1.
  assert (Hhas : forall c, ~ trade_names c ->
                   has_column (mkDF (columns (reset_trades df))
                                    (map reset_row
                                       (sort_rows "gameTime" (rows df)))) c
                   = has_column df c).
  { intros c Hc. now apply reset_trades_has. }
  rewrite Hhas, Het by (unfold trade_names; simpl; intuition discriminate).
  cbn [bind rows columns].
  set (sorted := sort_rows "gameTime" (rows df)).
  set (df2 := mkDF (columns (reset_trades df)) (map reset_row sorted)).
  assert (Hin : forall r, In r sorted -> In r (rows df)).
  { intros r Hr. eapply Permutation_in; [apply sort_rows_perm|exact Hr]. }
  assert (Hvalues : forall r, In r sorted ->
             trade_values df2 (map reset_row sorted) (reset_row r)
             = trade_values df sorted r).
  { intros r _. apply (trade_values_agree trade_names).
    - apply trade_names_outside.
    - intros c Hc. apply Hhas. now apply trade_names_outside.
    - apply Forall2_map_l, Forall2_diag. intros a _.
      apply agree_row_sym, reset_row_agree.
    - apply agree_row_sym, reset_row_agree. }
  destruct (trade_rows_total df2 (map reset_row sorted)
              (map reset_row sorted)) as (rs' & Hrs).
  { intros r' Hr' _. apply in_map_iff in Hr'.
    destruct Hr' as (r & <- & Hr). rewrite Hvalues by assumption.
    apply trade_values_total; [exact Hvt|].
    intros a c [<-|Ha] Hc; apply Hstr; auto; simpl in *; tauto. }
  rewrite Hrs. cbn [bind].
  eexists. split; [reflexivity|]. split; [reflexivity|].
  pose proof (trade_rows_Forall2 _ _ _ _ Hrs) as HF.
  apply Forall2_map_l in HF.
  split.
  - unfold index. cbn [rows].
    assert (E : map idx rs' = map idx sorted).
    { clear - HF. induction HF as [|r r' l l' H _ IH]; simpl;
        [reflexivity|]. rewrite IH. f_equal.
      destruct (kill_row (reset_row r)).
      - destruct H as (tv & _ & ->). now rewrite idx_trade_write.
      - now subst r'. }
    rewrite E.
    eapply Permutation_NoDup; [|exact Hnd].
    apply Permutation_map. symmetry. apply sort_rows_perm.
  - cbn [rows]. revert HF. apply Forall2_impl_In.
    intros r r' Hr H.
    rewrite <- (kill_row_agree trade_names r (reset_row r)
                  trade_names_outside (reset_row_agree r)) in H.
    destruct (kill_row r); [|exact H].
    destruct H as (tv & Htv & ->). exists tv. split; [|reflexivity].
    now rewrite <- Hvalues.
Qed.

End TemporalResult.

(** ** The trade-kill claim *)

Lemma cell_of_row (df : DataFrame) (r : Row) (c : string) :
  NoDup (index df) -> In r (rows df) ->
  cell df (idx r) c = Some (cells r c).
Proof. intros Hnd Hin. unfold cell. now rewrite (loc_In df r Hnd Hin). Qed.

Lemma key_le_numbers (c : string) (a b : Row) (x y : Q) :
  key_le c a b ->
  num_of (cells a c) = Some x -> num_of (cells b c) = Some y ->
  (x <= y)%Q.
Proof.
  unfold key_le, key_leb. intros H Ha Hb. rewrite Ha, Hb in H.
  now apply Qle_bool_iff.
Qed.

Lemma trade_write_cells (tv : option (value * value)) (r : Row) :
  match tv with
  | None =>
      cells (trade_write tv (reset_row r)) "is_trade_kill" = VBool false
      /\ cells (trade_write tv (reset_row r)) "time_since_teammate_death"
         = VNone
      /\ cells (trade_write tv (reset_row r)) "distance_to_teammate_death"
         = VNone
  | Some (time_diff, distance) =>
      cells (trade_write tv (reset_row r)) "is_trade_kill"
      = VBool (num_leb distance (VNum 15))
      /\ cells (trade_write tv (reset_row r)) "time_since_teammate_death"
         = time_diff
      /\ cells (trade_write tv (reset_row r)) "distance_to_teammate_death"
         = distance
  end.
Proof.
  destruct tv as [[t d]|]; simpl; [|repeat split].
  destruct (num_leb d (VNum 15)); repeat split.
Qed.

Section TradeClaim.

Context {rt : PyRuntime} {ps : PySort rt}.

Lemma calculate_distance_numbers (x1 y1 x2 y2 : value) :
  is_str x1 = false -> is_str y1 = false ->
  is_str x2 = false -> is_str y2 = false ->
  _calculate_distance x1 y1 x2 y2
  = Some match num_of x1, num_of y1, num_of x2, num_of y2 with
         | Some a1, Some b1, Some a2, Some b2 =>
             VNum (math_sqrt ((a2 - a1) ^ 2 + (b2 - b1) ^ 2))
         | _, _, _, _ => VNone
         end.
Proof.
  destruct x1 as [?|?|[]|], y1 as [?|?|[]|], x2 as [?|?|[]|],
    y2 as [?|?|[]|]; simpl; intros; try discriminate; reflexivity.
Qed.

Lemma coordinate_row_get (df : DataFrame) (r : Row) (c : string) :
  num_of (row_get df r c (VNum 0)) = coordinate df r c.
Proof. unfold row_get, coordinate. now destruct (has_column df c). Qed.

(** C2: for every kill event K by side S at time t.  When no kill V of
    the table has [victimTeam(V) == S] and [t - 3 <= gameTime(V) < t],
    [is_trade_kill] is false and the two fields are left undefined.  When
    there is one, there is a most recent one V (none of them is later)
    such that [time_since_teammate_death] is [t - gameTime(V)],
    [distance_to_teammate_death] is the Euclidean distance
    [sqrt ((vx - kx)^2 + (vy - ky)^2)] from the killer's position
    [(kx, ky)] to the victim position [(vx, vy)] of V, and
    [is_trade_kill] is true exactly when that distance is at most 15; a
    missing coordinate makes the distance undefined and the flag
    false. *)
Theorem trade_kill_detection (df : DataFrame) (metric : Metric) :
  metric_name metric = "Trade_Efficiency" ->
  NoDup (index df) ->
  has_column df "gameTime" = true ->
  has_column df "eventType" = true ->
  has_column df "victimTeam" = true ->
  no_strings df ["gameTime"; "killerX"; "killerY"; "victimX"; "victimY"] ->
  exists df',
    _apply_temporal df metric = Some df'
    /\ forall K,
         In K (rows df) -> cells K "eventType" = VStr "kill" ->
         let team := row_get df K "killerTeam" VNone in
         let t := cells K "gameTime" in
         ((forall V, In V (rows df) -> ~ qualifies team t V) ->
          cell df' (idx K) "is_trade_kill" = Some (VBool false)
          /\ cell df' (idx K) "time_since_teammate_death" = Some VNone
          /\ cell df' (idx K) "distance_to_teammate_death" = Some VNone)
         /\ ((exists V, In V (rows df) /\ qualifies team t V) ->
             exists V tk tv,
               In V (rows df) /\ qualifies team t V
               /\ num_of t = Some tk
               /\ num_of (cells V "gameTime") = Some tv
               /\ (forall V' tv',
                      In V' (rows df) -> qualifies team t V' ->
                      num_of (cells V' "gameTime") = Some tv' ->
                      (tv' <= tv)%Q)
               /\ cell df' (idx K) "time_since_teammate_death"
                  = Some (VNum (tk - tv))
               /\ match coordinate df K "killerX",
                        coordinate df K "killerY",
                        coordinate df V "victimX",
                        coordinate df V "victimY" with
                  | Some kx, Some ky, Some vx, Some vy =>
                      let d := math_sqrt ((vx - kx) ^ 2 + (vy - ky) ^ 2) in
                      cell df' (idx K) "distance_to_teammate_death"
                      = Some (VNum d)
                      /\ exists flag,
                           cell df' (idx K) "is_trade_kill"
                           = Some (VBool flag)
                           /\ (flag = true <-> (d <= 15)%Q)
                  | _, _, _, _ =>
                      cell df' (idx K) "distance_to_teammate_death"
                      = Some VNone
                      /\ cell df' (idx K) "is_trade_kill"
                         = Some (VBool false)
                  end).
Proof.
  intros Hname Hnd Hgt Het Hvt Hstr.
  destruct (temporal_result df metric Hname Hnd Hgt Het Hvt Hstr)
    as (df' & Hrun & _ & Hnd' & Hrows).
  exists df'. split; [exact Hrun|].
  intros K HK Hkind team t.
  assert (Hkill : kill_row K = true)
    by (unfold kill_row; now rewrite Hkind).
  set (recent := filter (recent_death team t)
                        (sort_rows "gameTime" (rows df))).
  assert (Hperm := sort_rows_perm "gameTime" (rows df)).
  assert (Hrecent : forall V,
             In V recent <-> In V (rows df) /\ qualifies team t V).
  { intros V. unfold recent. rewrite filter_In, recent_death_spec.
    split; intros [H1 H2]; split; trivial.
    - eapply Permutation_in; eassumption.
    - eapply Permutation_in; [symmetry|]; eassumption. }
  assert (HKs : In K (sort_rows "gameTime" (rows df))).
  { eapply Permutation_in; [symmetry|]; eassumption. }
  destruct (Forall2_In_l _ _ _ _ Hrows HKs) as (r' & Hr' & Hrel).
  rewrite Hkill in Hrel. destruct Hrel as (tv0 & Htv & ->).
  assert (Hcell : forall c,
             cell df' (idx K) c
             = Some (cells (trade_write tv0 (reset_row K)) c)).
  { intros c. rewrite <- (cell_of_row df' _ c Hnd' Hr').
    now rewrite idx_trade_write. }
  pose proof (trade_write_cells tv0 K) as Hcells.
  unfold trade_values in Htv. rewrite Hvt in Htv.
  assert (Eg : forall a, row_get df a "gameTime" (VNum 0)
                         = cells a "gameTime").
  { intros a. unfold row_get. now rewrite Hgt. }
  rewrite !Eg in Htv.
  fold team in Htv. fold t in Htv. fold recent in Htv.
  destruct (List.rev recent) as [|V rest] eqn:Erev.
  - assert (Hempty : recent = [])
      by (rewrite <- (rev_involutive recent), Erev; reflexivity).
    injection Htv as <-. split.
    + intros _. rewrite !Hcell.
      destruct Hcells as (-> & -> & ->). now repeat split.
    + intros (V & HV & HQ).
      assert (Hin : In V recent) by (apply Hrecent; now split).
      rewrite Hempty in Hin. contradiction.
  - assert (HVr : In V recent)
      by (apply in_rev; rewrite Erev; now left).
    destruct (proj1 (Hrecent V) HVr) as [HV HQ].
    split; [intros Hnone; exfalso; exact (Hnone V HV HQ)|].
    intros _.
    pose proof HQ as (_ & _ & tv & tk & Etv & Etk & _ & _).
    exists V, tk, tv.
    split; [exact HV|]. split; [exact HQ|].
    split; [exact Etk|]. split; [exact Etv|]. split.
    { intros V' tv' HV' HQ' Etv'.
      apply (key_le_numbers "gameTime" V' V); trivial.
      apply (sorted_last_greatest "gameTime" recent V rest); trivial.
      - apply StronglySorted_filter, sort_rows_sorted.
      - apply Hrecent. now split. }
    rewrite calculate_distance_numbers in Htv;
      try (apply row_get_not_str, Hstr; trivial; simpl; tauto).
    rewrite !coordinate_row_get in Htv.
    cbn [bind] in Htv. injection Htv as <-.
    rewrite !Hcell. destruct Hcells as (-> & -> & ->).
    split.
    { rewrite ?Eg. unfold num_sub. now rewrite Etk, Etv. }
    destruct (coordinate df K "killerX") as [kx|];
      destruct (coordinate df K "killerY") as [ky|];
      destruct (coordinate df V "victimX") as [vx|];
      destruct (coordinate df V "victimY") as [vy|];
      try (split; reflexivity).
    cbv zeta. split; [reflexivity|].
    eexists. split; [reflexivity|].
    unfold num_leb. simpl num_of. apply Qle_bool_iff.
Qed.

End TradeClaim.

Lemma exchange_no_strings :
  no_strings exchange ["gameTime"; "killerX"; "killerY"; "victimX"; "victimY"].
Proof.
  intros r c [<-|[<-|[<-|[]]]] [<-|[<-|[<-|[<-|[<-|[]]]]]]; reflexivity.
Qed.

Lemma trade_kill_detection_witness :
  exists df',
    @_apply_temporal example_runtime exchange trade_metric = Some df'
    /\ forall K,
         In K (rows exchange) -> cells K "eventType" = VStr "kill" ->
         let team := row_get exchange K "killerTeam" VNone in
         let t := cells K "gameTime" in
         ((forall V, In V (rows exchange) -> ~ qualifies team t V) ->
          cell df' (idx K) "is_trade_kill" = Some (VBool false)
          /\ cell df' (idx K) "time_since_teammate_death" = Some VNone
          /\ cell df' (idx K) "distance_to_teammate_death" = Some VNone)
         /\ ((exists V, In V (rows exchange) /\ qualifies team t V) ->
             exists V tk tv,
               In V (rows exchange) /\ qualifies team t V
               /\ num_of t = Some tk
               /\ num_of (cells V "gameTime") = Some tv
               /\ (forall V' tv',
                      In V' (rows exchange) -> qualifies team t V' ->
                      num_of (cells V' "gameTime") = Some tv' ->
                      (tv' <= tv)%Q)
               /\ cell df' (idx K) "time_since_teammate_death"
                  = Some (VNum (tk - tv))
               /\ match coordinate exchange K "killerX",
                        coordinate exchange K "killerY",
                        coordinate exchange V "victimX",
                        coordinate exchange V "victimY" with
                  | Some kx, Some ky, Some vx, Some vy =>
                      let d := exact_sqrt ((vx - kx) ^ 2 + (vy - ky) ^ 2) in
                      cell df' (idx K) "distance_to_teammate_death"
                      = Some (VNum d)
                      /\ exists flag,
                           cell df' (idx K) "is_trade_kill"
                           = Some (VBool flag)
                           /\ (flag = true <-> (d <= 15)%Q)
                  | _, _, _, _ =>
                      cell df' (idx K) "distance_to_teammate_death"
                      = Some VNone
                      /\ cell df' (idx K) "is_trade_kill"
                         = Some (VBool false)
                  end).
Proof.
  apply (@trade_kill_detection example_runtime example_sort exchange
           trade_metric).
  - reflexivity.
  - apply NoDup_DataFrame_of.
  - reflexivity.
  - reflexivity.
  - reflexivity.
  - exact exchange_no_strings.
Defined.

(** On the exchange: the kill at 12 s answers the death at 10 s, 5 units
    away; the death at 10 s and the kill at 30 s answer nothing.  The
    rows come back in time order. *)
Lemma exchange_example :
  (df' <- @_apply_temporal example_runtime exchange trade_metric ;;
   Some (map (fun r => (idx r, cells r "is_trade_kill",
                        cells r "time_since_teammate_death",
                        cells r "distance_to_teammate_death"))
             (rows df')))
  = Some [(1%nat, VBool false, VNone, VNone);
          (0%nat, VBool true, VNum (12 - 10), VNum 5);
          (2%nat, VBool false, VNone, VNone)].
Proof. vm_compute. reflexivity. Qed.

(** ** Frames that agree outside a set of columns *)

Lemma agree_row_mono (X Y : string -> Prop) (r r' : Row) :
  (forall c, X c -> Y c) -> agree_row X r r' -> agree_row Y r r'.
Proof.
  intros H [H1 H2]. split; [exact H1|].
  intros c Hc. apply H2. intros Hx. apply Hc. now apply H.
Qed.

Lemma agree_rows_mono (X Y : string -> Prop) (rs rs' : list Row) :
  (forall c, X c -> Y c) ->
  Forall2 (agree_row X) rs rs' -> Forall2 (agree_row Y) rs rs'.
Proof.
  intros H. induction 1; constructor; eauto using agree_row_mono.
Qed.

Lemma in_list_dec (c : string) (W : list string) :
  In c W \/ ~ In c W.
Proof. destruct (in_dec string_dec c W); tauto. Qed.

(** Writing one value in one column of both rows. *)
Lemma set_cell_agree (X : string -> Prop) (c : string) (v : value)
  (r r' : Row) :
  agree_row X r r' ->
  agree_row (minus X [c]) (set_cell c v r) (set_cell c v r').
Proof.
  intros [H1 H2]. split; [exact H1|].
  intros c' Hc'. simpl.
  destruct (String.eqb c' c) eqn:E; [reflexivity|].
  apply H2. intros Hx. apply Hc'. split; [exact Hx|].
  simpl. intros [->|[]]. now rewrite String.eqb_refl in E.
Qed.

Lemma set_cell_agree_same (X : string -> Prop) (c : string) (v : value)
  (r r' : Row) :
  agree_row X r r' -> agree_row X (set_cell c v r) (set_cell c v r').
Proof.
  intros H. eapply agree_row_mono; [|apply set_cell_agree; exact H].
  now intros c' [Hx _].
Qed.

Lemma minus_cons (X : string -> Prop) (c : string) (W : list string)
  (x : string) :
  minus (minus X [c]) W x <-> minus X (c :: W) x.
Proof. unfold minus. simpl. tauto. Qed.

Lemma minus_nil (X : string -> Prop) (x : string) : minus X [] x <-> X x.
Proof. unfold minus. simpl. tauto. Qed.

(** Writing the same values in the columns [W] of both rows. *)
Lemma fold_set_cell_agree (X : string -> Prop)
  (writes : list (string * value)) (r r' : Row) :
  agree_row X r r' ->
  agree_row (minus X (map fst writes))
            (fold_left (fun a w => set_cell (fst w) (snd w) a) writes r)
            (fold_left (fun a w => set_cell (fst w) (snd w) a) writes r').
Proof.
  revert X r r'. induction writes as [|[c v] ws IH]; intros X r r' H; simpl.
  - eapply agree_row_mono; [|exact H]. intros c. apply minus_nil.
  - eapply agree_row_mono;
      [|apply IH, (set_cell_agree X c v); exact H].
    intros x. apply minus_cons.
Qed.

Lemma agree_index (X : string -> Prop) (t u : DataFrame) :
  agree X t u -> index t = index u.
Proof. intros [_ H]. exact (agree_rows_index _ _ _ H). Qed.



Lemma agree_mono (X Y : string -> Prop) (t u : DataFrame) :
  (forall c, X c -> Y c) -> agree X t u -> agree Y t u.
Proof.
  intros H [H1 H2]. split.
  - intros c Hc. apply H1. intros Hx. apply Hc. now apply H.
  - eapply agree_rows_mono; eassumption.
Qed.

Lemma Sorted_agree (X : string -> Prop) (c : string) (rs rs' : list Row) :
  ~ X c -> Forall2 (agree_row X) rs rs' ->
  Sorted (key_le c) rs -> Sorted (key_le c) rs'.
Proof.
  intros Hc H. induction H as [|r r' rs rs' Hr Hrs IH]; intros Hs;
    [constructor|].
  inversion Hs as [|? ? Hs' Hhd]; subst. constructor; [now apply IH|].
  destruct Hrs as [|a a' rs rs' Ha _]; constructor.
  inversion Hhd as [|? ? Hk]; subst. unfold key_le in *.
  now rewrite <- (proj2 Hr c Hc), <- (proj2 Ha c Hc).
Qed.

(** ** The situational pass reads three columns *)

Lemma stamp_agree_rows (X : string -> Prop) (ta ea : Z) (r r' : Row) :
  agree_row X r r' -> agree_row X (stamp ta ea r) (stamp ta ea r').
Proof.
  intros H. unfold stamp.
  repeat match goal with
         | |- context [if ?b then _ else _] => destruct b
         end;
    repeat apply set_cell_agree_same; exact H.
Qed.

Lemma in_round_agree_gen (X : string -> Prop) (round_num : value)
  (r r' : Row) :
  ~ X "roundNumber" -> agree_row X r r' ->
  in_round round_num r = in_round round_num r'.
Proof. intros Hc [_ H]. unfold in_round. now rewrite (H _ Hc). Qed.

Lemma alive_step_agree_gen (X : string -> Prop) (df df' : DataFrame)
  (st : Z * Z) (r r' : Row) :
  ~ X "eventType" -> ~ X "victimTeam" ->
  has_column df "eventType" = has_column df' "eventType" ->
  has_column df "victimTeam" = has_column df' "victimTeam" ->
  agree_row X r r' ->
  alive_step df st r = alive_step df' st r'.
Proof.
  intros X1 X2 H1 H2 [_ H]. unfold alive_step, update_alive, row_get.
  now rewrite H1, H2, (H _ X1), (H _ X2).
Qed.

Lemma stamp_round_cong (X : string -> Prop) (df df' : DataFrame)
  (round_num : value) (rs rs' : list Row) (st : Z * Z) :
  outside X ["roundNumber"; "eventType"; "victimTeam"] ->
  has_column df "eventType" = has_column df' "eventType" ->
  has_column df "victimTeam" = has_column df' "victimTeam" ->
  Forall2 (agree_row X) rs rs' ->
  Forall2 (agree_row X) (stamp_round df round_num st rs)
          (stamp_round df' round_num st rs').
Proof.
  intros HX H1 H2 H. revert st.
  induction H as [|r r' rs rs' Hr Hrs IH]; intros st; simpl; [constructor|].
  rewrite <- (in_round_agree_gen X round_num r r'); trivial;
    [|apply HX; simpl; tauto].
  rewrite <- (alive_step_agree_gen X df df' st r r'); trivial;
    try (apply HX; simpl; tauto).
  destruct (in_round round_num r); constructor; auto using stamp_agree_rows.
Qed.

Lemma stamp_rounds_cong (X : string -> Prop) (df df' : DataFrame)
  (round_numbers : list value) (rs rs' : list Row) :
  outside X ["roundNumber"; "eventType"; "victimTeam"] ->
  has_column df "eventType" = has_column df' "eventType" ->
  has_column df "victimTeam" = has_column df' "victimTeam" ->
  Forall2 (agree_row X) rs rs' ->
  Forall2 (agree_row X) (stamp_rounds df round_numbers rs)
          (stamp_rounds df' round_numbers rs').
Proof.
  intros HX H1 H2. unfold stamp_rounds. revert rs rs'.
  induction round_numbers as [|rv rvs IH]; intros rs rs' H; simpl;
    [exact H|].
  apply IH. now apply stamp_round_cong.
Qed.

(** The situational pass in closed form. *)
Lemma situational_closed (df : DataFrame) (metric : Metric) :
  metric_name metric = "Clutch_Situations" ->
  NoDup (index df) ->
  _apply_situational df metric
  = if has_column df "roundNumber"
    then Some (mkDF (columns (reset_stamps df))
                    (stamp_rounds (reset_stamps df)
                       (unique (map (fun r => cells r "roundNumber")
                                    (rows (reset_stamps df))))
                       (rows (reset_stamps df))))
    else None.
Proof.
  intros Hname Hnd.
  unfold _apply_situational. rewrite Hname. simpl String.eqb. cbv iota.
  change (assign (assign (assign (assign df "players_alive_team" (VNum 0))
                                 "players_alive_enemy" (VNum 0))
                         "situation_type" (VStr "Unknown"))
                 "player_advantage" (VNum 0)) with (reset_stamps df).
  unfold column.
  rewrite reset_stamps_has by (now apply not_stamp_name).
  destruct (has_column df "roundNumber"); [|reflexivity].
  cbn [bind].
  apply situational_rounds_rows; [apply reset_stamps_columns|].
  unfold reset_stamps. now rewrite !index_assign.
Qed.

Lemma reset_stamps_cong (X : string -> Prop) (t u : DataFrame) :
  Forall2 (agree_row X) (rows t) (rows u) ->
  Forall2 (agree_row (minus X stamp_list))
          (rows (reset_stamps t)) (rows (reset_stamps u)).
Proof.
  intros H. unfold reset_stamps, assign. cbn [rows]. rewrite !map_map.
  induction H as [|r r' rs rs' Hr _ IH]; simpl; constructor; [|exact IH].
  eapply agree_row_mono;
    [|exact (fold_set_cell_agree X
               [("players_alive_team", VNum 0);
                ("players_alive_enemy", VNum 0);
                ("situation_type", VStr "Unknown");
                ("player_advantage", VNum 0)] r r' Hr)].
  intros c [Hx Hc]. split; [exact Hx|].
  intros Hin. apply Hc. unfold stamp_list. simpl in *. tauto.
Qed.

Lemma has_column_reset_stamps (df : DataFrame) (c : string) :
  has_column (reset_stamps df) c
  = (has_column df c || existsb (String.eqb c) stamp_list)%bool.
Proof.
  unfold reset_stamps. rewrite !has_column_assign. simpl.
  destruct (has_column df c), (String.eqb c "players_alive_team"),
    (String.eqb c "players_alive_enemy"), (String.eqb c "situation_type"),
    (String.eqb c "player_advantage"); reflexivity.
Qed.

Lemma existsb_In (c : string) (W : list string) :
  existsb (String.eqb c) W = true <-> In c W.
Proof.
  rewrite existsb_exists. split.
  - intros (x & Hx & E). apply String.eqb_eq in E. now subst.
  - intros H. exists c. split; [exact H|apply String.eqb_refl].
Qed.

Lemma outside_minus (X : string -> Prop) (W reads : list string) :
  outside X reads -> outside (minus X W) reads.
Proof. intros H c Hc [Hx _]. exact (H c Hc Hx). Qed.

(** ** The situational pass: what it reads, writes and leaves alone *)

Lemma agree_rows_column (X : string -> Prop) (c : string)
  (rs rs' : list Row) :
  ~ X c -> Forall2 (agree_row X) rs rs' ->
  map (fun r => cells r c) rs = map (fun r => cells r c) rs'.
Proof.
  intros Hc. induction 1 as [|r r' rs rs' [_ H] _ IH]; simpl;
    [reflexivity|].
  now rewrite IH, (H c Hc).
Qed.

Lemma has_column_frame (cols : list string) (rs : list Row) (c : string) :
  has_column (mkDF cols rs) c = existsb (String.eqb c) cols.
Proof. reflexivity. Qed.

Lemma situational_frame (df : DataFrame) (metric : Metric)
  (df' : DataFrame) :
  NoDup (index df) ->
  _apply_situational df metric = Some df' ->
  index df' = index df
  /\ Forall2 (agree_row (fun c => In c (situational_writes metric)))
             (rows df) (rows df')
  /\ forall c, has_column df' c
               = (has_column df c
                  || existsb (String.eqb c) (situational_writes metric))%bool.
Proof.
  intros Hnd H. unfold situational_writes.
  destruct (String.eqb (metric_name metric) "Clutch_Situations") eqn:E.
  - apply String.eqb_eq in E.
    pose proof H as H'. rewrite situational_closed in H' by assumption.
    destruct (has_column df "roundNumber") eqn:Hrn; [|discriminate].
    destruct (situational_stamps df metric E Hrn Hnd)
      as (df2 & H2 & Hidx & _ & Hag & _).
    rewrite H in H2. injection H2 as <-.
    split; [exact Hidx|]. split; [exact Hag|].
    intros c. injection H' as <-. rewrite has_column_frame.
    apply has_column_reset_stamps.
  - unfold _apply_situational in H. rewrite E in H. injection H as <-.
    split; [reflexivity|]. split; [apply agree_rows_refl|].
    intros c. simpl. now rewrite orb_false_r.
Qed.

Lemma situational_cong (X : string -> Prop) (t u : DataFrame)
  (metric : Metric) (t' : DataFrame) :
  agree X t u ->
  NoDup (index t) ->
  outside X ["roundNumber"; "eventType"; "victimTeam"] ->
  _apply_situational t metric = Some t' ->
  exists u',
    _apply_situational u metric = Some u'
    /\ agree (minus X (situational_writes metric)) t' u'.
Proof.
  intros Hag Hnd HX H. unfold situational_writes.
  assert (Hndu : NoDup (index u))
    by (rewrite <- (agree_index X t u Hag); exact Hnd).
  destruct Hag as [Hcols Hrows].
  destruct (String.eqb (metric_name metric) "Clutch_Situations") eqn:E.
  - apply String.eqb_eq in E.
    rewrite situational_closed in H by assumption.
    rewrite situational_closed by assumption.
    rewrite <- (Hcols "roundNumber") by (apply HX; simpl; tauto).
    destruct (has_column t "roundNumber"); [|discriminate].
    injection H as <-. eexists. split; [reflexivity|].
    assert (HX' : outside (minus X stamp_list)
                          ["roundNumber"; "eventType"; "victimTeam"])
      by now apply outside_minus.
    pose proof (reset_stamps_cong X t u Hrows) as Hreset.
    split.
    + intros c Hc. rewrite !has_column_frame.
      change (has_column (reset_stamps t) c = has_column (reset_stamps u) c).
      rewrite !has_column_reset_stamps.
      destruct (existsb (String.eqb c) stamp_list) eqn:Ec;
        [now rewrite !orb_true_r|].
      rewrite !orb_false_r. apply Hcols. intros Hx. apply Hc.
      split; [exact Hx|]. intros Hin. apply existsb_In in Hin. congruence.
    + change (Forall2 (agree_row (minus X stamp_list))
                (stamp_rounds (reset_stamps t)
                   (unique (map (fun r => cells r "roundNumber")
                                (rows (reset_stamps t))))
                   (rows (reset_stamps t)))
                (stamp_rounds (reset_stamps u)
                   (unique (map (fun r => cells r "roundNumber")
                                (rows (reset_stamps u))))
                   (rows (reset_stamps u)))).
      rewrite (agree_rows_column (minus X stamp_list) "roundNumber"
                 (rows (reset_stamps t)) (rows (reset_stamps u)));
        [|apply HX'; simpl; tauto|exact Hreset].
      apply stamp_rounds_cong; trivial;
        rewrite !has_column_reset_stamps; f_equal; apply Hcols, HX;
        simpl; tauto.
  - unfold _apply_situational in *. rewrite E in *. injection H as <-.
    exists u. split; [reflexivity|].
    apply (agree_mono X); [|now split].
    intros c Hx. split; [exact Hx|]. intros [].
Qed.

Lemma stamp_round_unnumbered (df : DataFrame) (round_num : value)
  (rs : list Row) (st : Z * Z) :
  Forall2 (fun r r' =>
             idx r = idx r' /\ (cells r "roundNumber" = VNone -> r' = r))
          rs (stamp_round df round_num st rs).
Proof.
  revert st. induction rs as [|r rs IH]; intros st; simpl; [constructor|].
  destruct (in_round round_num r) eqn:E; constructor; auto.
  split; [symmetry; apply idx_stamp|].
  intros H. unfold in_round in E. rewrite H in E. discriminate.
Qed.

Lemma stamp_rounds_unnumbered (df : DataFrame) (round_numbers : list value)
  (rs : list Row) :
  Forall2 (fun r r' =>
             idx r = idx r' /\ (cells r "roundNumber" = VNone -> r' = r))
          rs (stamp_rounds df round_numbers rs).
Proof.
  unfold stamp_rounds. revert rs.
  induction round_numbers as [|rv rvs IH]; intros rs; simpl.
  - apply Forall2_diag. auto.
  - eapply Forall2_compose;
      [|apply (stamp_round_unnumbered df rv rs (5, 5)%Z)|apply IH].
    intros a b c [H1 H2] [H3 H4]. split; [congruence|].
    intros Ha. specialize (H2 Ha). subst b. auto.
Qed.

(** X1: the situational pass reads the column [roundNumber] first: on a
    table without it the [Clutch_Situations] definition raises a
    [KeyError], whatever else the table holds. *)
Theorem situational_needs_round_number (df : DataFrame) (metric : Metric) :
  metric_name metric = "Clutch_Situations" ->
  has_column df "roundNumber" = false ->
  _apply_situational df metric = None.
Proof.
  intros Hname Hrn. unfold _apply_situational. rewrite Hname.
  simpl String.eqb. cbv iota.
  change (assign (assign (assign (assign df "players_alive_team" (VNum 0))
                                 "players_alive_enemy" (VNum 0))
                         "situation_type" (VStr "Unknown"))
                 "player_advantage" (VNum 0)) with (reset_stamps df).
  unfold column.
  rewrite reset_stamps_has by (now apply not_stamp_name).
  now rewrite Hrn.
Qed.

Lemma situational_needs_round_number_witness :
  _apply_situational market_positions clutch_metric = None.
Proof.
  apply situational_needs_round_number; reflexivity.
Defined.

(** X2: an event whose [roundNumber] is missing belongs to no round of the
    loop ([df['roundNumber'] == round_num] is false on it for every
    [round_num], the missing one included): after the pass it carries the
    initial values 0, 0, 'Unknown' and 0, even when it is a kill. *)
Theorem situational_unnumbered_events_keep_defaults (df : DataFrame)
  (metric : Metric) (df' : DataFrame) (r : Row) :
  metric_name metric = "Clutch_Situations" ->
  NoDup (index df) ->
  _apply_situational df metric = Some df' ->
  In r (rows df) ->
  cells r "roundNumber" = VNone ->
  cell df' (idx r) "players_alive_team" = Some (VNum 0)
  /\ cell df' (idx r) "players_alive_enemy" = Some (VNum 0)
  /\ cell df' (idx r) "situation_type" = Some (VStr "Unknown")
  /\ cell df' (idx r) "player_advantage" = Some (VNum 0).
Proof.
  intros Hname Hnd H Hr Hrn.
  destruct (situational_frame df metric df' Hnd H) as (Hidx & _ & _).
  rewrite situational_closed in H by assumption.
  destruct (has_column df "roundNumber"); [|discriminate].
  injection H as <-.
  set (rvs := unique _) in *.
  pose proof (stamp_rounds_unnumbered (reset_stamps df) rvs
                (rows (reset_stamps df))) as HF.
  set (out := stamp_rounds _ _ _) in *.
  unfold reset_stamps, assign in HF. cbn [rows] in HF.
  rewrite !map_map in HF. apply Forall2_map_l in HF.
  destruct (Forall2_In_l _ _ _ _ HF Hr) as (r' & Hr' & Hi & Hsame).
  specialize (Hsame Hrn). simpl in Hi.
  assert (Hnd' : NoDup (index (mkDF (columns (reset_stamps df)) out)))
    by exact (eq_ind_r (@NoDup nat) Hnd Hidx).
  rewrite Hi.
  rewrite !(cell_of_row _ r' _ Hnd' Hr'). subst r'. repeat split.
Qed.

Lemma situational_unnumbered_events_keep_defaults_witness :
  cell (the (_apply_situational unnumbered clutch_metric)) 1
       "players_alive_team" = Some (VNum 0)
  /\ cell (the (_apply_situational unnumbered clutch_metric)) 1
          "players_alive_enemy" = Some (VNum 0)
  /\ cell (the (_apply_situational unnumbered clutch_metric)) 1
          "situation_type" = Some (VStr "Unknown")
  /\ cell (the (_apply_situational unnumbered clutch_metric)) 1
          "player_advantage" = Some (VNum 0).
Proof.
  apply (situational_unnumbered_events_keep_defaults
           unnumbered clutch_metric
           (the (_apply_situational unnumbered clutch_metric))
           (mkRow 1 (lookup unnumbered_event))).
  - reflexivity.
  - apply NoDup_DataFrame_of.
  - vm_compute. reflexivity.
  - right. left. reflexivity.
  - reflexivity.
Defined.

(** X3: the situational pass keeps the labels and the order of the rows,
    drops no column, and changes no cell outside the four columns it
    writes. *)
Theorem situational_keeps_the_table (df : DataFrame) (metric : Metric)
  (df' : DataFrame) :
  NoDup (index df) ->
  _apply_situational df metric = Some df' ->
  index df' = index df
  /\ (forall c, has_column df c = true -> has_column df' c = true)
  /\ forall i c, ~ In c stamp_list -> cell df' i c = cell df i c.
Proof.
  intros Hnd H.
  destruct (situational_frame df metric df' Hnd H) as (Hidx & Hag & Hcols).
  split; [exact Hidx|]. split.
  - intros c Hc. now rewrite Hcols, Hc.
  - intros i c Hc. destruct df as [cols rs], df' as [cols' rs'].
    symmetry.
    apply (agree_rows_cell (fun c => In c (situational_writes metric)));
      [exact Hag|].
    unfold situational_writes.
    destruct (String.eqb _ _); [exact Hc|intros []].
Qed.

Lemma situational_keeps_the_table_witness :
  index (the (_apply_situational six_deaths clutch_metric))
  = index six_deaths
  /\ (forall c, has_column six_deaths c = true ->
                has_column (the (_apply_situational six_deaths
                                                    clutch_metric)) c
                = true)
  /\ forall i c,
       ~ In c stamp_list ->
       cell (the (_apply_situational six_deaths clutch_metric)) i c
       = cell six_deaths i c.
Proof.
  apply (situational_keeps_the_table six_deaths clutch_metric).
  - apply NoDup_DataFrame_of.
  - vm_compute. reflexivity.
Defined.

(** X4: the situational pass is idempotent: it resets the four columns it
    writes and reads none of them, so a second run on its own result
    succeeds and gives the same frame. *)
Theorem situational_idempotent (df : DataFrame) (metric : Metric)
  (df' : DataFrame) :
  NoDup (index df) ->
  _apply_situational df metric = Some df' ->
  exists df'',
    _apply_situational df' metric = Some df'' /\ same_frame df' df''.
Proof.
  intros Hnd H.
  destruct (situational_frame df metric df' Hnd H) as (Hidx & Hag & Hcols).
  set (W := situational_writes metric) in *.
  assert (Hfr : agree (fun c => In c W) df df').
  { split; [|exact Hag]. intros c Hc. rewrite Hcols.
    destruct (existsb (String.eqb c) W) eqn:E;
      [apply existsb_In in E; contradiction|].
    now rewrite orb_false_r. }
  assert (Hout : outside (fun c => In c W)
                         ["roundNumber"; "eventType"; "victimTeam"]).
  { intros c Hc. unfold W, situational_writes.
    destruct (String.eqb _ _); [|intros []].
    simpl in Hc. unfold stamp_list. simpl.
    intuition (subst; discriminate). }
  destruct (situational_cong _ df df' metric df' Hfr Hnd Hout H)
    as (df'' & H2 & Hag2).
  exists df''. split; [exact H2|].
  eapply agree_mono; [|exact Hag2]. intros c [Hc Hn]. exact (Hn Hc).
Qed.

Lemma situational_idempotent_witness :
  exists df'',
    _apply_situational (the (_apply_situational six_deaths clutch_metric))
                       clutch_metric = Some df''
    /\ same_frame (the (_apply_situational six_deaths clutch_metric)) df''.
Proof.
  apply (situational_idempotent six_deaths clutch_metric).
  - apply NoDup_DataFrame_of.
  - vm_compute. reflexivity.
Defined.

(** ** The spatial pass in closed form *)

Lemma all_rows_Forall2 (f : Row -> option Row) (rs out : list Row) :
  all_rows f rs = Some out -> Forall2 (fun r r' => f r = Some r') rs out.
Proof.
  revert out. induction rs as [|r rs IH]; simpl; intros out H.
  - injection H as <-. constructor.
  - destruct (f r) as [r'|] eqn:E; [|discriminate]. simpl in H.
    destruct (all_rows f rs) as [rest|]; [|discriminate].
    injection H as <-. constructor; auto.
Qed.

Lemma all_rows_rel (P Q : Row -> Row -> Prop) (f g : Row -> option Row)
  (rs rs' out : list Row) :
  Forall2 P rs rs' ->
  (forall r r' o, P r r' -> f r = Some o ->
                  exists o', g r' = Some o' /\ Q o o') ->
  all_rows f rs = Some out ->
  exists out', all_rows g rs' = Some out' /\ Forall2 Q out out'.
Proof.
  intros HF Hfg. revert out.
  induction HF as [|r r' rs rs' Hr _ IH]; simpl; intros out H.
  - injection H as <-. eauto.
  - destruct (f r) as [o|] eqn:E; [|discriminate]. simpl in H.
    destruct (all_rows f rs) as [rest|]; [|discriminate].
    injection H as <-.
    destruct (Hfg r r' o Hr E) as (o' & -> & Ho).
    destruct (IH rest eq_refl) as (rest' & -> & Hrest).
    simpl. eauto.
Qed.

Lemma playerX_not_zone (name : string) :
  String.eqb "playerX" (zone_column name) = false.
Proof. reflexivity. Qed.

Lemma playerY_not_zone (name : string) :
  String.eqb "playerY" (zone_column name) = false.
Proof. reflexivity. Qed.

Lemma map_not_zone (name : string) :
  String.eqb "map" (zone_column name) = false.
Proof. reflexivity. Qed.

Section SpatialClosed.

Context {rt : PyRuntime}.

Lemma zone_distance_position (df : DataFrame) (b : Bounds) (r r2 : Row) :
  has_column df "playerX" = true ->
  has_column df "playerY" = true ->
  cells r2 "playerX" = cells r "playerX" ->
  cells r2 "playerY" = cells r "playerY" ->
  zone_distance df (fst (zone_center b)) (snd (zone_center b)) r2
  = position_distance (zone_center b) r.
Proof.
  intros HX HY Ex Ey. unfold zone_distance, position_distance, row_get.
  now rewrite HX, HY, Ex, Ey.
Qed.

(** The two vectorised steps of the pass are one step per row. *)
Lemma spatial_loop (metric : Metric) (b : Bounds) (df2 : list Row -> DataFrame)
  (rs : list Row) :
  (forall l, has_column (df2 l) "playerX" = true) ->
  (forall l, has_column (df2 l) "playerY" = true) ->
  let zc := zone_column (metric_name metric) in
  let dc := distance_column (metric_name metric) in
  (mask <- mask_of (in_zone (map_label_of metric) b)
                   (map (set_cell zc (VBool false)) rs) ;;
   let rows2 := set_where mask zc (VBool true)
                          (map (set_cell zc (VBool false)) rs) in
   ds <- map_rows (zone_distance (df2 rows2) (fst (zone_center b))
                                 (snd (zone_center b))) rows2 ;;
   Some (set_column_rows dc ds rows2))
  = all_rows (spatial_row metric b) rs.
Proof.
  intros HX HY zc dc.
  assert (Hd : forall l l' x, zone_distance (df2 l) (fst (zone_center b))
                                (snd (zone_center b)) x
                              = zone_distance (df2 l') (fst (zone_center b))
                                  (snd (zone_center b)) x).
  { intros l l' x. unfold zone_distance, row_get.
    now rewrite !HX, !HY. }
  revert df2 HX HY Hd.
  induction rs as [|r rs IH]; intros df2 HX HY Hd; [reflexivity|].
  cbn [map mask_of all_rows]. unfold spatial_row at 1. fold zc dc.
  change (in_zone (map_label_of metric) b (set_cell zc (VBool false) r))
    with (in_zone (map_label_of metric) b r).
  destruct (in_zone (map_label_of metric) b r) as [flag|]; [|reflexivity].
  cbn [bind].
  specialize (IH (fun l => df2 ((if flag
                                 then set_cell zc (VBool true)
                                        (set_cell zc (VBool false) r)
                                 else set_cell zc (VBool false) r) :: l))).
  cbv beta in IH.
  rewrite <- IH by (intros; auto). clear IH.
  destruct (mask_of (in_zone (map_label_of metric) b)
                    (map (set_cell zc (VBool false)) rs)) as [mask|].
  - cbn [bind set_where map_rows].
    rewrite (zone_distance_position (df2 _) b r); trivial;
      [|destruct flag; reflexivity|destruct flag; reflexivity].
    destruct (position_distance (zone_center b) r) as [v|]; [|reflexivity].
    cbn [bind].
    destruct (map_rows _ (set_where mask zc (VBool true) _)) as [ds|];
      reflexivity.
  - cbn [bind].
    destruct (position_distance (zone_center b) r); reflexivity.
Qed.

Lemma spatial_closed (df : DataFrame) (metric : Metric) (b : Bounds) :
  bounds metric = Some b ->
  let zc := zone_column (metric_name metric) in
  let dc := distance_column (metric_name metric) in
  _apply_spatial df metric
  = if (has_column df "playerX" && has_column df "playerY")%bool then
      if has_column df "map" then
        rs <- all_rows (spatial_row metric b) (rows df) ;;
        Some (mkDF (add_column (add_column (columns df) zc) dc) rs)
      else None
    else Some (assign df zc (VBool false)).
Proof.
  intros Hb zc dc. unfold _apply_spatial. rewrite Hb. fold zc dc.
  rewrite !has_column_assign. unfold zc at 1 2.
  rewrite playerX_not_zone, playerY_not_zone, !orb_false_r.
  destruct (has_column df "playerX") eqn:HX; [|reflexivity].
  destruct (has_column df "playerY") eqn:HY; [|reflexivity].
  cbn [andb]. unfold column. rewrite has_column_assign. unfold zc at 1.
  rewrite map_not_zone, orb_false_r.
  destruct (has_column df "map"); [|reflexivity]. cbn [bind].
  change (map_label_of metric)
    with (match map_name metric with Some m => m | None => "Unknown" end)
    in *.
  pose proof (spatial_loop metric b
                (fun l => mkDF (columns (assign df zc (VBool false))) l)
                (rows df)) as H.
  cbv zeta in H. fold zc dc in H.
  rewrite <- H; clear H.
  - unfold map_label_of. cbn [rows assign columns zone_center fst snd].
    destruct (mask_of _ _) as [mask|]; [|reflexivity]. cbn [bind].
    destruct (map_rows _ _) as [ds|]; reflexivity.
  - intros l. rewrite has_column_frame.
    change (has_column (assign df zc (VBool false)) "playerX" = true).
    rewrite has_column_assign, HX. reflexivity.
  - intros l. rewrite has_column_frame.
    change (has_column (assign df zc (VBool false)) "playerY" = true).
    rewrite has_column_assign, HY. reflexivity.
Qed.

End SpatialClosed.

Section SpatialFrame.

Context {rt : PyRuntime}.

Lemma spatial_row_frame (metric : Metric) (b : Bounds) (r r' : Row) :
  spatial_row metric b r = Some r' ->
  agree_row (fun c => In c [zone_column (metric_name metric);
                            distance_column (metric_name metric)]) r r'.
Proof.
  unfold spatial_row. intros H.
  destruct (in_zone _ b r) as [flag|]; [|discriminate].
  destruct (position_distance _ r) as [v|]; [|discriminate].
  injection H as <-. split; [now destruct flag|].
  intros c Hc. simpl in Hc.
  destruct flag; rewrite !set_cell_other; trivial; intros ->; tauto.
Qed.

Lemma spatial_row_cong (X : string -> Prop) (metric : Metric) (b : Bounds)
  (r r' o : Row) :
  outside X ["map"; "playerX"; "playerY"] ->
  agree_row X r r' ->
  spatial_row metric b r = Some o ->
  exists o',
    spatial_row metric b r' = Some o'
    /\ agree_row (minus X [zone_column (metric_name metric);
                           distance_column (metric_name metric)]) o o'.
Proof.
  intros HX Hr H. unfold spatial_row in *.
  assert (Ez : in_zone (map_label_of metric) b r'
               = in_zone (map_label_of metric) b r).
  { unfold in_zone. destruct Hr as [_ Hr].
    rewrite !(Hr "map"), !(Hr "playerX"), !(Hr "playerY");
      trivial; apply HX; simpl; tauto. }
  assert (Ed : position_distance (zone_center b) r'
               = position_distance (zone_center b) r).
  { unfold position_distance. destruct Hr as [_ Hr].
    rewrite !(Hr "playerX"), !(Hr "playerY");
      trivial; apply HX; simpl; tauto. }
  rewrite Ez, Ed.
  destruct (in_zone _ b r) as [flag|]; [|discriminate].
  destruct (position_distance _ r) as [v|]; [|discriminate].
  injection H as <-. eexists. split; [reflexivity|].
  apply (agree_row_mono
           (minus (minus X [zone_column (metric_name metric)])
                  [distance_column (metric_name metric)])).
  - intros c. apply minus_cons.
  - apply set_cell_agree. destruct flag.
    + apply set_cell_agree_same, set_cell_agree, Hr.
    + apply set_cell_agree, Hr.
Qed.

Lemma spatial_frame (df : DataFrame) (metric : Metric) (df' : DataFrame) :
  _apply_spatial df metric = Some df' ->
  index df' = index df
  /\ Forall2 (agree_row (fun c => In c (spatial_writes metric df)))
             (rows df) (rows df')
  /\ forall c, has_column df' c
               = (has_column df c
                  || existsb (String.eqb c) (spatial_writes metric df))%bool.
Proof.
  intros H. unfold spatial_writes.
  destruct (bounds metric) as [b|] eqn:Hb.
  - rewrite (spatial_closed df metric b Hb) in H.
    destruct (has_column df "playerX" && has_column df "playerY")%bool.
    + destruct (has_column df "map"); [|discriminate].
      destruct (all_rows _ (rows df)) as [rs|] eqn:Hrs; [|discriminate].
      injection H as <-. cbn [rows].
      apply all_rows_Forall2 in Hrs.
      assert (Hag : Forall2
                      (agree_row
                         (fun c => In c [zone_column (metric_name metric);
                                         distance_column (metric_name metric)]))
                      (rows df) rs).
      { revert Hrs. apply Forall2_impl_In. intros r r' _.
        apply spatial_row_frame. }
      split; [symmetry; exact (agree_rows_index _ _ _ Hag)|].
      split; [exact Hag|].
      intros c. rewrite has_column_frame, !existsb_add_column. simpl.
      unfold has_column. now rewrite orb_false_r, orb_assoc.
    + injection H as <-. split; [apply index_assign|]. split.
      * unfold assign. cbn [rows]. apply Forall2_map_r, Forall2_diag.
        intros r _. split; [reflexivity|]. intros c Hc. simpl in Hc.
        symmetry. apply set_cell_other. intros ->. tauto.
      * intros c. rewrite has_column_assign. simpl.
        now rewrite orb_false_r.
  - unfold _apply_spatial in H. rewrite Hb in H. injection H as <-.
    split; [reflexivity|]. split; [apply agree_rows_refl|].
    intros c. simpl. now rewrite orb_false_r.
Qed.

Lemma spatial_cong (X : string -> Prop) (t u : DataFrame) (metric : Metric)
  (t' : DataFrame) :
  agree X t u ->
  outside X ["map"; "playerX"; "playerY"] ->
  _apply_spatial t metric = Some t' ->
  exists u',
    _apply_spatial u metric = Some u'
    /\ agree (minus X (spatial_writes metric t)) t' u'.
Proof.
  intros [Hcols Hrows] HX H. unfold spatial_writes.
  destruct (bounds metric) as [b|] eqn:Hb.
  - rewrite (spatial_closed t metric b Hb) in H.
    rewrite (spatial_closed u metric b Hb).
    rewrite <- (Hcols "playerX"), <- (Hcols "playerY"), <- (Hcols "map")
      by (apply HX; simpl; tauto).
    destruct (has_column t "playerX" && has_column t "playerY")%bool.
    + destruct (has_column t "map"); [|discriminate].
      destruct (all_rows _ (rows t)) as [rs|] eqn:Hrs; [|discriminate].
      injection H as <-.
      destruct (all_rows_rel (agree_row X)
                  (agree_row (minus X [zone_column (metric_name metric);
                                       distance_column (metric_name metric)]))
                  (spatial_row metric b) (spatial_row metric b)
                  (rows t) (rows u) rs Hrows) as (rs' & -> & Hag);
        [|exact Hrs|].
      { intros r r' o Hr. now apply spatial_row_cong. }
      eexists. split; [reflexivity|]. split; [|exact Hag].
      intros c Hc. rewrite !has_column_frame, !existsb_add_column.
      destruct (String.eqb c (zone_column (metric_name metric))) eqn:E1;
        [now rewrite !orb_true_r|].
      destruct (String.eqb c (distance_column (metric_name metric))) eqn:E2;
        [now rewrite !orb_true_r|].
      rewrite !orb_false_r. apply Hcols. intros Hx. apply Hc.
      split; [exact Hx|]. simpl.
      apply String.eqb_neq in E1, E2. intuition congruence.
    + injection H as <-. eexists. split; [reflexivity|]. split.
      * intros c Hc. rewrite !has_column_assign.
        destruct (String.eqb c (zone_column (metric_name metric))) eqn:E1;
          [now rewrite !orb_true_r|].
        rewrite !orb_false_r. apply Hcols. intros Hx. apply Hc.
        split; [exact Hx|]. simpl.
        apply String.eqb_neq in E1. intuition congruence.
      * unfold assign. cbn [rows].
        apply Forall2_map_l, Forall2_map_r.
        revert Hrows. apply Forall2_impl_In. intros r r' _ Hr.
        now apply set_cell_agree.
  - unfold _apply_spatial in *. rewrite Hb in *. injection H as <-.
    exists u. split; [reflexivity|].
    apply (agree_mono X); [|now split].
    intros c Hx. split; [exact Hx|]. intros [].
Qed.

(** X5: on a table without both position columns a spatial definition
    with bounds reads nothing (not even [map]): it succeeds, flags every
    event [False], and creates no distance column. *)
Theorem spatial_without_positions (df : DataFrame) (metric : Metric)
  (b : Bounds) :
  bounds metric = Some b ->
  (has_column df "playerX" && has_column df "playerY")%bool = false ->
  exists df',
    _apply_spatial df metric = Some df'
    /\ has_column df' (zone_column (metric_name metric)) = true
    /\ (forall r', In r' (rows df') ->
                   cells r' (zone_column (metric_name metric)) = VBool false)
    /\ has_column df' (distance_column (metric_name metric))
       = has_column df (distance_column (metric_name metric)).
Proof.
  intros Hb Hpos. rewrite (spatial_closed df metric b Hb), Hpos.
  eexists. split; [reflexivity|]. split; [|split].
  - rewrite has_column_assign, String.eqb_refl. apply orb_true_r.
  - unfold assign. cbn [rows]. intros r' Hr'. apply in_map_iff in Hr'.
    destruct Hr' as (r & <- & _). simpl. now rewrite String.eqb_refl.
  - rewrite has_column_assign, String.eqb_sym, zone_distance_columns.
    apply orb_false_r.
Qed.

(** X6: on a table with both position columns a spatial definition with
    bounds reads [df['map']]: without that column it raises ([KeyError]),
    although the flag column could have been computed. *)
Theorem spatial_needs_map (df : DataFrame) (metric : Metric) (b : Bounds) :
  bounds metric = Some b ->
  has_column df "playerX" = true ->
  has_column df "playerY" = true ->
  has_column df "map" = false ->
  _apply_spatial df metric = None.
Proof.
  intros Hb HX HY Hmap.
  rewrite (spatial_closed df metric b Hb), HX, HY, Hmap. reflexivity.
Qed.

(** X7: the distance column of a spatial definition: for an event with a
    position it is the Euclidean distance to the centre of the rectangle,
    an omitted bound counting as 0 there (not as infinite, as it does in
    the zone test); for an event that lacks a coordinate the distance is
    missing and the zone flag is [False]. *)
Theorem spatial_distance_to_center (df : DataFrame) (metric : Metric)
  (b : Bounds) (df' : DataFrame) (r : Row) :
  bounds metric = Some b ->
  has_column df "playerX" = true ->
  has_column df "playerY" = true ->
  NoDup (index df) ->
  _apply_spatial df metric = Some df' ->
  In r (rows df) ->
  let center_x :=
    ((option_default 0 (x_min b) + option_default 0 (x_max b)) / 2)%Q in
  let center_y :=
    ((option_default 0 (y_min b) + option_default 0 (y_max b)) / 2)%Q in
  let distance := cell df' (idx r) (distance_column (metric_name metric)) in
  (forall x y,
      cells r "playerX" = VNum x -> cells r "playerY" = VNum y ->
      distance
      = Some (VNum (math_sqrt ((center_x - x) ^ 2 + (center_y - y) ^ 2))))
  /\ (cells r "playerX" = VNone \/ cells r "playerY" = VNone ->
      distance = Some VNone
      /\ cell df' (idx r) (zone_column (metric_name metric))
         = Some (VBool false)).
Proof.
  intros Hb HX HY Hnd H Hr center_x center_y distance.
  destruct (spatial_frame df metric df' H) as (Hidx & _ & _).
  rewrite (spatial_closed df metric b Hb), HX, HY in H. cbn [andb] in H.
  destruct (has_column df "map"); [|discriminate].
  destruct (all_rows _ (rows df)) as [rs|] eqn:Hrs; [|discriminate].
  injection H as <-.
  apply all_rows_Forall2 in Hrs.
  destruct (Forall2_In_l _ _ _ _ Hrs Hr) as (r' & Hr' & Hrow).
  assert (Hnd' : NoDup (index (mkDF (add_column
                                       (add_column (columns df)
                                          (zone_column (metric_name metric)))
                                       (distance_column (metric_name metric)))
                                    rs)))
    by exact (eq_ind_r (@NoDup nat) Hnd Hidx).
  unfold spatial_row in Hrow.
  destruct (in_zone _ b r) as [flag|] eqn:Ez; [|discriminate].
  destruct (position_distance _ r) as [v|] eqn:Ed; [|discriminate].
  injection Hrow as Hrow.
  assert (Hi : idx r = idx r') by (subst r'; now destruct flag).
  unfold distance. rewrite Hi.
  rewrite !(cell_of_row _ r' _ Hnd' Hr').
  assert (Hd : cells r' (distance_column (metric_name metric)) = v)
    by (subst r'; simpl; now rewrite String.eqb_refl).
  assert (Hz : cells r' (zone_column (metric_name metric)) = VBool flag).
  { subst r'. rewrite set_cell_other.
    - destruct flag; simpl; now rewrite String.eqb_refl.
    - intros E. pose proof (zone_distance_columns (metric_name metric)) as N.
      rewrite E, String.eqb_refl in N. discriminate. }
  rewrite Hd, Hz. split.
  - intros x y Ex Ey. unfold position_distance in Ed.
    rewrite Ex, Ey in Ed. simpl in Ed. injection Ed as <-. reflexivity.
  - intros Hmiss. unfold position_distance in Ed. unfold in_zone in Ez.
    destruct Hmiss as [E|E]; rewrite E in *.
    + injection Ed as <-. split; [reflexivity|].
      simpl in Ez.
      destruct (cell_ge (cells r "playerY") (y_min b)); [|discriminate].
      destruct (cell_le (cells r "playerY") (y_max b)); [|discriminate].
      simpl in Ez. injection Ez as <-.
      now rewrite !andb_false_r.
    + destruct (cell_ge (cells r "playerX") (x_min b)) as [b1|];
        [|discriminate].
      destruct (cell_le (cells r "playerX") (x_max b)) as [b2|];
        [|discriminate].
      simpl in Ez. injection Ez as <-.
      rewrite !andb_false_r. split; [|reflexivity].
      destruct (cells r "playerX") as [q|s|[]|]; simpl in Ed;
        try discriminate; now injection Ed as <-.
Qed.

(** X8: the spatial pass keeps the index labels and the row order, drops
    no column, and changes no cell outside its flag column and its
    distance column. *)
Theorem spatial_keeps_the_table (df : DataFrame) (metric : Metric)
  (df' : DataFrame) :
  _apply_spatial df metric = Some df' ->
  index df' = index df
  /\ (forall c, has_column df c = true -> has_column df' c = true)
  /\ forall i c,
       c <> zone_column (metric_name metric) ->
       c <> distance_column (metric_name metric) ->
       cell df' i c = cell df i c.
Proof.
  intros H.
  destruct (spatial_frame df metric df' H) as (Hidx & Hag & Hcols).
  split; [exact Hidx|]. split.
  - intros c Hc. now rewrite Hcols, Hc.
  - intros i c Hz Hd. destruct df as [cols rs], df' as [cols' rs'].
    symmetry.
    apply (agree_rows_cell
             (fun c => In c (spatial_writes metric (mkDF cols rs))));
      [exact Hag|].
    unfold spatial_writes. destruct (bounds metric); [|intros []].
    destruct (_ && _)%bool; simpl; intuition congruence.
Qed.

(** X9: the spatial pass is idempotent: the flag and the distance are
    computed from [map], [playerX] and [playerY] alone and overwrite what
    the two columns held, so a second run on its own result succeeds and
    gives the same frame. *)
Theorem spatial_idempotent (df : DataFrame) (metric : Metric)
  (df' : DataFrame) :
  _apply_spatial df metric = Some df' ->
  exists df'',
    _apply_spatial df' metric = Some df'' /\ same_frame df' df''.
Proof.
  intros H.
  destruct (spatial_frame df metric df' H) as (Hidx & Hag & Hcols).
  set (W := spatial_writes metric df) in *.
  assert (Hfr : agree (fun c => In c W) df df').
  { split; [|exact Hag]. intros c Hc. rewrite Hcols.
    destruct (existsb (String.eqb c) W) eqn:E;
      [apply existsb_In in E; contradiction|].
    now rewrite orb_false_r. }
  assert (Hout : outside (fun c => In c W) ["map"; "playerX"; "playerY"]).
  { intros c Hc Hin. apply existsb_In in Hin.
    unfold W, spatial_writes in Hin.
    destruct (bounds metric); [|discriminate].
    assert (Hz : String.eqb c (zone_column (metric_name metric)) = false)
      by (simpl in Hc; intuition (subst; reflexivity)).
    assert (Hd : String.eqb c (distance_column (metric_name metric)) = false)
      by (simpl in Hc; intuition (subst; reflexivity)).
    destruct (_ && _)%bool; simpl in Hin; rewrite Hz in Hin;
      try rewrite Hd in Hin; discriminate. }
  destruct (spatial_cong _ df df' metric df' Hfr Hout H)
    as (df'' & H2 & Hag2).
  exists df''. split; [exact H2|].
  eapply agree_mono; [|exact Hag2]. intros c [Hc Hn]. exact (Hn Hc).
Qed.

End SpatialFrame.

Lemma spatial_without_positions_witness :
  exists df',
    @_apply_spatial example_runtime six_deaths market_metric = Some df'
    /\ has_column df' (zone_column (metric_name market_metric)) = true
    /\ (forall r', In r' (rows df') ->
                   cells r' (zone_column (metric_name market_metric))
                   = VBool false)
    /\ has_column df' (distance_column (metric_name market_metric))
       = has_column six_deaths (distance_column (metric_name market_metric)).
Proof.
  apply (@spatial_without_positions example_runtime six_deaths market_metric
           market_bounds); reflexivity.
Defined.

Lemma spatial_needs_map_witness :
  @_apply_spatial example_runtime unmapped_positions market_metric = None.
Proof.
  apply (@spatial_needs_map example_runtime unmapped_positions market_metric
           market_bounds); reflexivity.
Defined.

Lemma spatial_distance_to_center_witness :
  let df' :=
    the (@_apply_spatial example_runtime partial_positions market_metric) in
  let r := mkRow 1 (lookup [("eventType", VStr "round_start");
                            ("map", VStr "Ascent")]) in
  let distance := cell df' 1 "distance_to_market" in
  (forall x y,
      cells r "playerX" = VNum x -> cells r "playerY" = VNum y ->
      distance
      = Some (VNum (exact_sqrt (((500 + 800) / 2 - x) ^ 2
                                + ((1200 + 1500) / 2 - y) ^ 2))))
  /\ (cells r "playerX" = VNone \/ cells r "playerY" = VNone ->
      distance = Some VNone
      /\ cell df' 1 "in_zone_market" = Some (VBool false)).
Proof.
  apply (@spatial_distance_to_center example_runtime partial_positions
           market_metric market_bounds
           (the (@_apply_spatial example_runtime partial_positions
                                 market_metric))
           (mkRow 1 (lookup [("eventType", VStr "round_start");
                             ("map", VStr "Ascent")]))).
  - reflexivity.
  - reflexivity.
  - reflexivity.
  - apply NoDup_DataFrame_of.
  - vm_compute. reflexivity.
  - right. left. reflexivity.
Defined.

Lemma spatial_keeps_the_table_witness :
  let df' :=
    the (@_apply_spatial example_runtime market_positions market_metric) in
  index df' = index market_positions
  /\ (forall c, has_column market_positions c = true ->
                has_column df' c = true)
  /\ forall i c,
       c <> zone_column (metric_name market_metric) ->
       c <> distance_column (metric_name market_metric) ->
       cell df' i c = cell market_positions i c.
Proof.
  apply (@spatial_keeps_the_table example_runtime market_positions
           market_metric).
  vm_compute. reflexivity.
Defined.

Lemma spatial_idempotent_witness :
  let df' :=
    the (@_apply_spatial example_runtime market_positions market_metric) in
  exists df'',
    @_apply_spatial example_runtime df' market_metric = Some df''
    /\ same_frame df' df''.
Proof.
  apply (@spatial_idempotent example_runtime market_positions market_metric).
  vm_compute. reflexivity.
Defined.

(** ** The temporal pass: what it reads, writes and leaves alone *)

Lemma existsb_perm {A : Type} (p : A -> bool) (l l' : list A) :
  Permutation l l' -> existsb p l = existsb p l'.
Proof.
  induction 1; simpl; try congruence.
  destruct (p x), (p y); reflexivity.
Qed.

Lemma loc_perm (cols cols' : list string) (l l' : list Row) (i : nat) :
  NoDup (map idx l) -> Permutation l l' ->
  loc (mkDF cols l) i = loc (mkDF cols' l') i.
Proof.
  intros Hnd Hp. unfold loc. cbn [rows].
  assert (Hnd' : NoDup (map idx l'))
    by (eapply Permutation_NoDup; [apply Permutation_map; exact Hp|exact Hnd]).
  destruct (find (fun r => Nat.eqb (idx r) i) l) as [r|] eqn:E.
  - apply find_some in E. destruct E as [Hin Hi]. apply Nat.eqb_eq in Hi.
    subst i. symmetry.
    apply (loc_In (mkDF cols' l') r Hnd').
    eapply Permutation_in; eassumption.
  - destruct (find (fun r => Nat.eqb (idx r) i) l') as [r|] eqn:E';
      [|reflexivity].
    apply find_some in E'. destruct E' as [Hin Hi].
    apply (Permutation_in _ (Permutation_sym Hp)) in Hin.
    pose proof (find_none _ _ E r Hin) as Hn. simpl in Hn. congruence.
Qed.

Lemma has_column_reset_trades (df : DataFrame) (c : string) :
  has_column (reset_trades df) c
  = (has_column df c || existsb (String.eqb c) trade_list)%bool.
Proof.
  unfold reset_trades. rewrite !has_column_assign. simpl.
  destruct (has_column df c), (String.eqb c "is_trade_kill"),
    (String.eqb c "time_since_teammate_death"),
    (String.eqb c "distance_to_teammate_death"); reflexivity.
Qed.


Section TemporalClosed.

Context {rt : PyRuntime} {ps : PySort rt}.

Lemma sort_values_reset (df : DataFrame) :
  sort_values (reset_trades df) "gameTime"
  = if has_column df "gameTime" then
      if existsb (fun r => is_str (cells r "gameTime")) (rows df) then None
      else Some (mkDF (columns (reset_trades df))
                      (map reset_row (sort_rows "gameTime" (rows df))))
    else None.
Proof.
  unfold sort_values.
  rewrite reset_trades_has
    by (unfold trade_names; simpl; intuition discriminate).
  destruct (has_column df "gameTime"); [|reflexivity].
  rewrite rows_reset_trades, existsb_map_rows.
  change (fun x : Row =>
            is_str (cells (set_cell "distance_to_teammate_death" VNone
                             (set_cell "time_since_teammate_death" VNone
                                (set_cell "is_trade_kill" (VBool false) x)))
                          "gameTime"))
    with (fun x : Row => is_str (cells x "gameTime")).
  destruct (existsb _ (rows df)); [reflexivity|].
  rewrite sort_rows_map; [reflexivity|]. intros x. reflexivity.
Qed.


Lemma temporal_closed (df : DataFrame) (metric : Metric) :
  metric_name metric = "Trade_Efficiency" ->
  NoDup (index df) ->
  _apply_temporal df metric
  = if has_column df "gameTime" then
      if existsb (fun r => is_str (cells r "gameTime")) (rows df) then None
      else if has_column df "eventType" then
        let sorted := map reset_row (sort_rows "gameTime" (rows df)) in
        rs <- trade_rows (mkDF (columns (reset_trades df)) sorted)
                         sorted sorted ;;
        Some (mkDF (columns (reset_trades df)) rs)
      else None
    else None.
Proof.
  intros Hname Hnd. rewrite temporal_rows by assumption.
  rewrite sort_values_reset.
  destruct (has_column df "gameTime"); [|reflexivity].
  destruct (existsb _ (rows df)); [reflexivity|].
  cbn [bind]. unfold column. rewrite has_column_frame.
  change (existsb (String.eqb "eventType") (columns (reset_trades df)))
    with (has_column (reset_trades df) "eventType").
  rewrite reset_trades_has
    by (unfold trade_names; simpl; intuition discriminate).
  destruct (has_column df "eventType"); reflexivity.
Qed.



Lemma trade_rows_frame (df : DataFrame) (all rs out : list Row) :
  trade_rows df all rs = Some out ->
  Forall2 (agree_row trade_names) rs out.
Proof.
  intros H. apply trade_rows_Forall2 in H. revert H.
  apply Forall2_impl_In. intros r r' _ Hr.
  destruct (kill_row r).
  - destruct Hr as (tv & _ & ->). apply trade_write_agree.
  - subst r'. apply agree_row_refl.
Qed.

Lemma temporal_frame (df : DataFrame) (metric : Metric) (df' : DataFrame) :
  NoDup (index df) ->
  _apply_temporal df metric = Some df' ->
  Forall2 (agree_row (fun c => In c (temporal_writes metric)))
          (temporal_order metric (rows df)) (rows df')
  /\ (forall c, has_column df' c
                = (has_column df c
                   || existsb (String.eqb c) (temporal_writes metric))%bool)
  /\ (metric_name metric = "Trade_Efficiency" -> time_ordered df').
Proof.
  intros Hnd H. unfold temporal_writes, temporal_order.
  destruct (String.eqb (metric_name metric) "Trade_Efficiency") eqn:E.
  - apply String.eqb_eq in E.
    rewrite temporal_closed in H by assumption.
    destruct (has_column df "gameTime"); [|discriminate].
    destruct (existsb _ (rows df)); [discriminate|].
    destruct (has_column df "eventType"); [|discriminate].
    cbv zeta in H.
    destruct (trade_rows _ _ _) as [rs|] eqn:Hrs; [|discriminate].
    injection H as <-. cbn [rows].
    apply trade_rows_frame in Hrs.
    apply (proj1 (Forall2_map_l (agree_row trade_names) reset_row _ _))
      in Hrs.
    assert (Hag : Forall2 (agree_row trade_names)
                          (sort_rows "gameTime" (rows df)) rs).
    { revert Hrs. apply Forall2_impl_In. intros r r' _ Hr.
      eapply agree_row_trans; [apply reset_row_agree|exact Hr]. }
    split; [exact Hag|]. split.
    + intros c. rewrite has_column_frame. apply has_column_reset_trades.
    + intros _. unfold time_ordered. cbn [rows].
      apply (Sorted_agree trade_names "gameTime"
               (sort_rows "gameTime" (rows df)) rs).
      * unfold trade_names. simpl. intuition discriminate.
      * exact Hag.
      * apply StronglySorted_Sorted, sort_rows_sorted.
  - unfold _apply_temporal in H. rewrite E in H. injection H as <-.
    split; [apply agree_rows_refl|]. split.
    + intros c. simpl. now rewrite orb_false_r.
    + intros Hn. rewrite Hn in E. discriminate.
Qed.


End TemporalClosed.

Section TemporalExtras.

Context {rt : PyRuntime} {ps : PySort rt}.

Lemma temporal_labels (df : DataFrame) (metric : Metric) (df' : DataFrame) :
  NoDup (index df) ->
  _apply_temporal df metric = Some df' ->
  index df' = map idx (temporal_order metric (rows df))
  /\ Permutation (temporal_order metric (rows df)) (rows df)
  /\ NoDup (index df').
Proof.
  intros Hnd H.
  destruct (temporal_frame df metric df' Hnd H) as (Hag & _ & _).
  assert (Hp : Permutation (temporal_order metric (rows df)) (rows df)).
  { unfold temporal_order. destruct (String.eqb _ _); [|reflexivity].
    apply sort_rows_perm. }
  assert (Hi : index df' = map idx (temporal_order metric (rows df)))
    by (symmetry; exact (agree_rows_index _ _ _ Hag)).
  split; [exact Hi|]. split; [exact Hp|].
  rewrite Hi. eapply Permutation_NoDup; [|exact Hnd].
  apply Permutation_map. symmetry. exact Hp.
Qed.

Lemma calculate_distance_result (x1 y1 x2 y2 v : value) :
  _calculate_distance x1 y1 x2 y2 = Some v ->
  v = VNone \/ exists q, v = VNum q.
Proof.
  destruct x1 as [?|?|[]|], y1 as [?|?|[]|], x2 as [?|?|[]|],
    y2 as [?|?|[]|]; simpl; intros H; try discriminate;
    injection H as <-; eauto.
Qed.

Lemma trade_rows_no_victim (df : DataFrame) (all rs : list Row) :
  has_column df "victimTeam" = false ->
  trade_rows df all rs = if existsb kill_row rs then None else Some rs.
Proof.
  intros Hv. induction rs as [|r rs IH]; simpl; [reflexivity|].
  destruct (kill_row r) eqn:E; simpl.
  - unfold trade_values. now rewrite Hv.
  - rewrite IH. now destruct (existsb kill_row rs).
Qed.

(** X10: the temporal pass returns the events in ascending [gameTime]
    order (events without a time last): the labels are those of the input,
    each event keeps its cells outside the three columns written, and no
    column is dropped. *)
Theorem temporal_sorts_by_game_time (df : DataFrame) (metric : Metric)
  (df' : DataFrame) :
  metric_name metric = "Trade_Efficiency" ->
  NoDup (index df) ->
  _apply_temporal df metric = Some df' ->
  Permutation (index df') (index df)
  /\ time_ordered df'
  /\ (forall c, has_column df c = true -> has_column df' c = true)
  /\ forall i c, ~ In c trade_list -> cell df' i c = cell df i c.
Proof.
  intros Hname Hnd H.
  destruct (temporal_frame df metric df' Hnd H) as (Hag & Hcols & Hsorted).
  destruct (temporal_labels df metric df' Hnd H) as (Hi & Hp & _).
  split; [rewrite Hi; apply Permutation_map; exact Hp|].
  split; [now apply Hsorted|]. split.
  - intros c Hc. now rewrite Hcols, Hc.
  - intros i c Hc. destruct df as [cols rs], df' as [cols' rs'].
    cbn [rows] in *.
    rewrite <- (agree_rows_cell _ cols cols' _ _ i c Hag).
    + unfold cell.
      now rewrite (loc_perm cols cols rs (temporal_order metric rs) i Hnd
                     (Permutation_sym Hp)).
    + unfold temporal_writes. now rewrite Hname.
Qed.

(** X11: an event that is not a kill leaves the temporal pass with
    [is_trade_kill] false and the two other fields undefined, whatever
    the three columns held before. *)
Theorem temporal_resets_other_events (df : DataFrame) (metric : Metric)
  (df' : DataFrame) (r : Row) :
  metric_name metric = "Trade_Efficiency" ->
  NoDup (index df) ->
  _apply_temporal df metric = Some df' ->
  In r (rows df) ->
  kill_row r = false ->
  cell df' (idx r) "is_trade_kill" = Some (VBool false)
  /\ cell df' (idx r) "time_since_teammate_death" = Some VNone
  /\ cell df' (idx r) "distance_to_teammate_death" = Some VNone.
Proof.
  intros Hname Hnd H Hr Hk.
  destruct (temporal_labels df metric df' Hnd H) as (_ & _ & Hnd').
  rewrite temporal_closed in H by assumption.
  destruct (has_column df "gameTime"); [|discriminate].
  destruct (existsb _ (rows df)); [discriminate|].
  destruct (has_column df "eventType"); [|discriminate].
  cbv zeta in H.
  destruct (trade_rows _ _ _) as [rs|] eqn:Hrs; [|discriminate].
  injection H as <-.
  apply trade_rows_Forall2 in Hrs.
  apply (proj1 (Forall2_map_l _ reset_row _ _)) in Hrs.
  assert (Hs : In r (sort_rows "gameTime" (rows df)))
    by (eapply Permutation_in;
        [apply Permutation_sym, sort_rows_perm|exact Hr]).
  destruct (Forall2_In_l _ _ _ _ Hrs Hs) as (r' & Hr' & Hrel).
  change (kill_row (reset_row r)) with (kill_row r) in Hrel.
  rewrite Hk in Hrel. subst r'.
  change (idx r) with (idx (reset_row r)).
  rewrite !(cell_of_row _ (reset_row r) _ Hnd' Hr'). repeat split.
Qed.

(** X12: whenever the temporal pass flags an event as a trade kill, the
    event is a kill, the time since the teammate's death is positive and
    at most 3, and the distance to it is at most 15. *)
Theorem trade_flag_implies_window (df : DataFrame) (metric : Metric)
  (df' : DataFrame) (i : nat) :
  metric_name metric = "Trade_Efficiency" ->
  NoDup (index df) ->
  _apply_temporal df metric = Some df' ->
  cell df' i "is_trade_kill" = Some (VBool true) ->
  cell df' i "eventType" = Some (VStr "kill")
  /\ exists d x,
       cell df' i "time_since_teammate_death" = Some (VNum d)
       /\ (0 < d)%Q /\ (d <= 3)%Q
       /\ cell df' i "distance_to_teammate_death" = Some (VNum x)
       /\ (x <= 15)%Q.
Proof.
  intros Hname Hnd H Hflag.
  rewrite temporal_closed in H by assumption.
  destruct (has_column df "gameTime") eqn:Hgt; [|discriminate].
  destruct (existsb _ (rows df)); [discriminate|].
  destruct (has_column df "eventType"); [|discriminate].
  cbv zeta in H.
  set (sorted := map reset_row (sort_rows "gameTime" (rows df))) in *.
  set (df2 := mkDF (columns (reset_trades df)) sorted) in *.
  destruct (trade_rows df2 sorted sorted) as [rs|] eqn:Hrs; [|discriminate].
  injection H as <-.
  assert (Hgt2 : has_column df2 "gameTime" = true).
  { unfold df2. rewrite has_column_frame.
    change (has_column (reset_trades df) "gameTime" = true).
    now rewrite has_column_reset_trades, Hgt. }
  unfold cell in *.
  destruct (loc _ i) as [r'|] eqn:El; [|discriminate].
  cbn [bind] in *. injection Hflag as Hflag.
  apply find_some in El. destruct El as [Hr' _]. cbn [rows] in Hr'.
  apply trade_rows_Forall2 in Hrs.
  destruct (Forall2_In_l _ _ _ _ (Forall2_flip Hrs) Hr')
    as (r0 & Hr0 & Hrel).
  cbv beta in Hrel.
  apply in_map_iff in Hr0. destruct Hr0 as (r & <- & _).
  destruct (kill_row (reset_row r)) eqn:Hk;
    [|subst r'; discriminate].
  destruct Hrel as ([[td dist]|] & Htv & ->); [|discriminate].
  cbn [trade_write] in *.
  destruct (num_leb dist (VNum 15)) eqn:Hle; [|discriminate].
  split.
  { f_equal. apply value_eqb_str. exact Hk. }
  unfold trade_values in Htv.
  destruct (has_column df2 "victimTeam"); [|discriminate].
  destruct (List.rev (filter _ sorted)) as [|last rest] eqn:Erev;
    [discriminate|].
  destruct (_calculate_distance _ _ _ _) as [dv|] eqn:Ecd; [|discriminate].
  cbn [bind] in Htv. injection Htv as Etd Edist. subst dv.
  assert (Hlast : In last (List.rev (filter
                    (recent_death (row_get df2 (reset_row r) "killerTeam" VNone)
                       (row_get df2 (reset_row r) "gameTime" (VNum 0)))
                    sorted)))
    by (rewrite Erev; now left).
  apply in_rev, filter_In in Hlast. destruct Hlast as [_ Hrec].
  apply recent_death_spec in Hrec.
  destruct Hrec as (_ & _ & tv & tk & Etv & Etk & Hlo & Hhi).
  unfold row_get in Etd. rewrite Hgt2 in Etd.
  unfold row_get in Etk. rewrite Hgt2 in Etk.
  unfold num_sub in Etd. rewrite Etk, Etv in Etd.
  destruct (calculate_distance_result _ _ _ _ _ Ecd) as [->|[x ->]];
    [discriminate|].
  unfold num_leb in Hle. simpl in Hle. apply Qle_bool_iff in Hle.
  exists (tk - tv)%Q, x. subst td.
  repeat split; trivial; lra.
Qed.

(** X13: the temporal pass needs the columns [gameTime] (to sort by) and
    [eventType] (to select the kills): without either the
    [Trade_Efficiency] definition raises ([KeyError]). *)
Theorem temporal_needs_time_and_type (df : DataFrame) (metric : Metric) :
  metric_name metric = "Trade_Efficiency" ->
  has_column df "gameTime" = false \/ has_column df "eventType" = false ->
  _apply_temporal df metric = None.
Proof.
  intros Hname Hmiss. unfold _apply_temporal. rewrite Hname.
  simpl String.eqb. cbv iota.
  change (assign (assign (assign df "is_trade_kill" (VBool false))
                         "time_since_teammate_death" VNone)
                 "distance_to_teammate_death" VNone) with (reset_trades df).
  destruct (sort_values (reset_trades df) "gameTime") as [df2|] eqn:Es;
    [|reflexivity].
  cbn [bind]. unfold sort_values in Es.
  rewrite reset_trades_has in Es
    by (unfold trade_names; simpl; intuition discriminate).
  destruct Hmiss as [Hgt|Het].
  - rewrite Hgt in Es. discriminate.
  - destruct (has_column df "gameTime"); [|discriminate].
    destruct (existsb _ _); [discriminate|].
    assert (Hd : df2 = mkDF (columns (reset_trades df))
                            (sort_rows "gameTime" (rows (reset_trades df))))
      by congruence.
    rewrite Hd. unfold column. rewrite has_column_frame.
    change (existsb (String.eqb "eventType") (columns (reset_trades df)))
      with (has_column (reset_trades df) "eventType").
    now rewrite has_column_reset_trades, Het.
Qed.

(** X14: the column [victimTeam] is read inside the loop over the kills
    only: on a table without it (with times and event types) the
    temporal pass raises exactly when the table holds a kill event. *)
Theorem temporal_victim_team_read_per_kill (df : DataFrame)
  (metric : Metric) :
  metric_name metric = "Trade_Efficiency" ->
  NoDup (index df) ->
  has_column df "gameTime" = true ->
  has_column df "eventType" = true ->
  (forall r, In r (rows df) -> is_str (cells r "gameTime") = false) ->
  has_column df "victimTeam" = false ->
  _apply_temporal df metric = None
  <-> exists r, In r (rows df) /\ kill_row r = true.
Proof.
  intros Hname Hnd Hgt Het Hstr Hvt.
  rewrite temporal_closed, Hgt, Het by assumption.
  assert (Es : existsb (fun r => is_str (cells r "gameTime")) (rows df)
               = false).
  { destruct (existsb _ (rows df)) eqn:E; [|reflexivity].
    apply existsb_exists in E. destruct E as (r & Hr & E).
    now rewrite (Hstr r Hr) in E. }
  rewrite Es. cbv zeta.
  rewrite trade_rows_no_victim.
  - rewrite existsb_map_rows.
    change (fun x : Row => kill_row (reset_row x)) with kill_row.
    rewrite (existsb_perm kill_row _ _ (sort_rows_perm "gameTime" (rows df))).
    destruct (existsb kill_row (rows df)) eqn:E; cbn [bind].
    + split; [intros _|reflexivity]. now apply existsb_exists.
    + split; [discriminate|]. intros Hex.
      apply existsb_exists in Hex. congruence.
  - rewrite has_column_frame.
    change (has_column (reset_trades df) "victimTeam" = false).
    now rewrite has_column_reset_trades, Hvt.
Qed.

End TemporalExtras.

Lemma temporal_sorts_by_game_time_witness :
  let df' := the (@_apply_temporal example_runtime exchange trade_metric) in
  Permutation (index df') (index exchange)
  /\ time_ordered df'
  /\ (forall c, has_column exchange c = true -> has_column df' c = true)
  /\ forall i c, ~ In c trade_list -> cell df' i c = cell exchange i c.
Proof.
  apply (@temporal_sorts_by_game_time example_runtime example_sort exchange trade_metric).
  - reflexivity.
  - apply NoDup_DataFrame_of.
  - vm_compute. reflexivity.
Defined.

Lemma temporal_resets_other_events_witness :
  let df' :=
    the (@_apply_temporal example_runtime late_arrival trade_metric) in
  cell df' 0 "is_trade_kill" = Some (VBool false)
  /\ cell df' 0 "time_since_teammate_death" = Some VNone
  /\ cell df' 0 "distance_to_teammate_death" = Some VNone.
Proof.
  apply (@temporal_resets_other_events example_runtime example_sort late_arrival
           trade_metric
           (the (@_apply_temporal example_runtime late_arrival trade_metric))
           (mkRow 0 (lookup (damage_event 1 10)))).
  - reflexivity.
  - apply NoDup_DataFrame_of.
  - vm_compute. reflexivity.
  - left. reflexivity.
  - reflexivity.
Defined.

Lemma trade_flag_implies_window_witness :
  let df' := the (@_apply_temporal example_runtime exchange trade_metric) in
  cell df' 0 "eventType" = Some (VStr "kill")
  /\ exists d x,
       cell df' 0 "time_since_teammate_death" = Some (VNum d)
       /\ (0 < d)%Q /\ (d <= 3)%Q
       /\ cell df' 0 "distance_to_teammate_death" = Some (VNum x)
       /\ (x <= 15)%Q.
Proof.
  apply (@trade_flag_implies_window example_runtime example_sort exchange trade_metric).
  - reflexivity.
  - apply NoDup_DataFrame_of.
  - vm_compute. reflexivity.
  - vm_compute. reflexivity.
Defined.

Lemma temporal_needs_time_and_type_witness :
  @_apply_temporal example_runtime market_positions trade_metric = None.
Proof.
  apply (@temporal_needs_time_and_type example_runtime market_positions
           trade_metric).
  - reflexivity.
  - left. reflexivity.
Defined.

Lemma temporal_victim_team_read_per_kill_witness :
  @_apply_temporal example_runtime damage_only trade_metric = None
  <-> exists r, In r (rows damage_only) /\ kill_row r = true.
Proof.
  apply (@temporal_victim_team_read_per_kill example_runtime example_sort damage_only
           trade_metric).
  - reflexivity.
  - apply NoDup_DataFrame_of.
  - reflexivity.
  - reflexivity.
  - intros r [<-|[<-|[]]]; reflexivity.
  - reflexivity.
Defined.

(** ** The composite pass: what it reads, writes and leaves alone *)




Section CompositeMore.

Context {rt : PyRuntime}.













End CompositeMore.





(** ** The pipeline: frames, errors and a second run *)













Section Pipeline.

Context {rt : PyRuntime} {ps : PySort rt}.












End Pipeline.







(** Equal times are enough for a second run to differ when the sort does
    not keep the order of equal keys: under a sort that reverses it, a
    kill and a damage event at the same time change places, and the
    damage event is stamped 4 by the first run and 5 by the second. *)
Lemma reversing_sort_laws : PySort reversing_runtime.
Proof.
  split; simpl; unfold reversing_sort.
  - intros c rs. rewrite stable_sort_perm. symmetry. apply Permutation_rev.
  - intros c rs. apply stable_sort_sorted.
  - intros c f rs H. rewrite <- map_rev. now apply stable_sort_map.
Qed.

Lemma enrich_twice_with_equal_times :
  (df' <- @enrich reversing_runtime [clutch_metric; trade_metric]
                  simultaneous ;;
   cell df' 1 "players_alive_team") = Some (VNum (inject_Z 4))
  /\ (df' <- @enrich reversing_runtime [clutch_metric; trade_metric]
                     simultaneous ;;
      df'' <- @enrich reversing_runtime [clutch_metric; trade_metric] df' ;;
      cell df'' 1 "players_alive_team") = Some (VNum (inject_Z 5)).
Proof. split; vm_compute; reflexivity. Qed.

(** ** The counters of the situational enrichment *)

Lemma alive_step_spec (df : DataFrame) (st : Z * Z) (e : Row) :
  counters_step df st e (alive_step df st e).
Proof.
  pose proof (alive_step_bounds df st e) as [(H1 & H2 & _) Hno].
  split; [now split|].
  rewrite alive_step_cases. destruct st as [ta ea].
  unfold is_kill, victim_side, row_get, kill_of, not_a_kill.
  split; [|split].
  - intros (E1 & E2 & E3 & E4). now rewrite E1, E2, E3, E4.
  - intros (E1 & E2 & E3 & E4). now rewrite E1, E2, E3, E4.
  - intros [E|E].
    + now rewrite E.
    + destruct (has_column df "eventType"); [|reflexivity].
      destruct (value_eqb (cells e "eventType") (VStr "kill")) eqn:Ek;
        [|reflexivity].
      apply value_eqb_str in Ek. contradiction.
Qed.

Lemma machine_follow (df : DataFrame) (events : list Row) (st : Z * Z) :
  counters_follow df st events
                  (map snd (machine (alive_step df) st events)).
Proof.
  revert st. induction events as [|e events IH]; intros st; simpl;
    [exact I|].
  split; [apply alive_step_spec|apply IH].
Qed.

Lemma machine_at_most_five (df : DataFrame) (events : list Row)
  (st : Z * Z) :
  (fst st <= 5 /\ snd st <= 5)%Z ->
  Forall (fun after => (fst after <= 5 /\ snd after <= 5)%Z)
         (map snd (machine (alive_step df) st events)).
Proof.
  revert st. induction events as [|e events IH]; intros st Hst; simpl;
    constructor.
  - pose proof (alive_step_bounds df st e). simpl. lia.
  - apply IH. pose proof (alive_step_bounds df st e). lia.
Qed.

Lemma machine_Forall2 (P : Row -> Z * Z -> Prop)
  (step : Z * Z -> Row -> Z * Z) (events : list Row) (st : Z * Z) :
  (forall e before after,
      In (e, before, after) (machine step st events) -> P e after) ->
  Forall2 P events (map snd (machine step st events)).
Proof.
  revert st. induction events as [|e events IH]; intros st H; simpl;
    constructor.
  - apply (H e st). now left.
  - apply IH. intros e' b a Hin. apply (H e' b). now right.
Qed.

(** C1: the code does not follow the reference machine of the claim.  On
    the kill between Cloud9 and Sentinels of the demo data it stamps 5, 5,
    advantage 0 and 'Even': the victim team is compared with the literals
    'Team A' and 'Team B', so no counter moves, while under every
    two-valued role of the teams the reference machine has taken one
    player off.  On a damage event logged before an earlier kill it stamps
    5 and 5, the events being visited in row order, while the reference
    machine, in [gameTime] order, has counted the kill. *)
Lemma situational_not_reference_machine :
  (df' <- _apply_situational demo_kill clutch_metric ;;
   Some (map (fun r => (cells r "players_alive_team",
                        cells r "players_alive_enemy",
                        cells r "player_advantage",
                        cells r "situation_type")) (rows df')))
  = Some [(VNum (inject_Z 5), VNum (inject_Z 5), VNum (inject_Z 0),
           VStr "Even")]
  /\ ~ follows_reference demo_kill clutch_metric
  /\ (df' <- _apply_situational late_arrival clutch_metric ;;
      cell df' 0 "players_alive_team") = Some (VNum (inject_Z 5))
  /\ ~ follows_reference late_arrival clutch_metric.
Proof.
  split; [vm_compute; reflexivity|]. split; [|split].
  - intros (role & H).
    specialize (H _ eq_refl (VNum 1)).
    destruct (H (nth 0 (rows demo_kill) (mkRow 0 (fun _ => VNone)))
                (5, 5)%Z
                (decrement (Some (role "Sentinels")) (5, 5)%Z))
      as [H1 H2]; [now left|].
    destruct (role "Sentinels"); [vm_compute in H1 | vm_compute in H2];
      discriminate.
  - vm_compute. reflexivity.
  - intros (role & H).
    specialize (H _ eq_refl (VNum 1)).
    destruct (H (nth 0 (rows late_arrival) (mkRow 0 (fun _ => VNone)))
                (decrement (Some (role "Team A")) (5, 5)%Z)
                (decrement (Some (role "Team A")) (5, 5)%Z))
      as [H1 H2]; [right; now left|].
    destruct (role "Team A"); [vm_compute in H1 | vm_compute in H2];
      discriminate.
Qed.

(** C3 (as amended): for every round, the events of the round in table
    row order carry counters [players_alive_team] and
    [players_alive_enemy], with [player_advantage] their difference, such
    that: both are at most 5; from 5 and 5 at the start of the round,
    neither counter ever grows; a kill whose victim team is 'Team A' takes
    exactly one from [players_alive_team] and leaves the other counter, a
    kill whose victim team is 'Team B' takes exactly one from
    [players_alive_enemy] and leaves the other; an event that is no kill
    changes neither.  There is no lower bound. *)
Theorem situational_counter_invariants (df : DataFrame) (metric : Metric) :
  metric_name metric = "Clutch_Situations" ->
  has_column df "roundNumber" = true ->
  NoDup (index df) ->
  exists df',
    _apply_situational df metric = Some df'
    /\ forall round_num,
       exists stamps : list (Z * Z),
         Forall2 (stamped_with df') (round_events df round_num) stamps
         /\ counters_follow df (5, 5)%Z (round_events df round_num) stamps
         /\ Forall (fun after => (fst after <= 5 /\ snd after <= 5)%Z)
                   stamps.
Proof.
  intros Hname Hcol Hnd.
  destruct (situational_stamps df metric Hname Hcol Hnd)
    as (df' & Hrun & Hidx & Hnd' & _ & Hstamped).
  exists df'. split; [exact Hrun|].
  intros rv.
  exists (map snd (machine (alive_step df) (5, 5)%Z (round_events df rv))).
  split; [|split].
  - apply machine_Forall2. intros e before after Hin.
    destruct (stamped_row_cell df' e after Hnd' (Hstamped rv e before after Hin))
      as (H1 & H2 & H3 & _).
    now repeat split.
  - apply machine_follow.
  - apply machine_at_most_five. simpl. lia.
Qed.

Lemma situational_counter_invariants_witness :
  exists df',
    _apply_situational six_deaths clutch_metric = Some df'
    /\ forall round_num,
       exists stamps : list (Z * Z),
         Forall2 (stamped_with df') (round_events six_deaths round_num)
                 stamps
         /\ counters_follow six_deaths (5, 5)%Z
                            (round_events six_deaths round_num) stamps
         /\ Forall (fun after => (fst after <= 5 /\ snd after <= 5)%Z)
                   stamps.
Proof.
  apply (situational_counter_invariants six_deaths clutch_metric).
  - reflexivity.
  - reflexivity.
  - apply NoDup_DataFrame_of.
Defined.

(** C3 (as stated) fails: the sixth death of a side in one round is stamped
    with the counter -1, outside [0,5]; and the kill between Cloud9 and
    Sentinels of the demo data decrements neither counter. *)
Lemma situational_counters_counterexample :
  (df' <- _apply_situational six_deaths clutch_metric ;;
   cell df' 5 "players_alive_team") = Some (VNum (inject_Z (-1)))
  /\ map (is_kill demo_kill) (rows demo_kill) = [true]
  /\ (df' <- _apply_situational demo_kill clutch_metric ;;
      cell df' 0 "players_alive_team") = Some (VNum (inject_Z 5))
  /\ (df' <- _apply_situational demo_kill clutch_metric ;;
      cell df' 0 "players_alive_enemy") = Some (VNum (inject_Z 5)).
Proof. repeat split; vm_compute; reflexivity. Qed.

(** C7 (as stated) fails on a condition over the definition's own flag:
    the table does not hold [is_exit_frag], but the pass creates it as
    [True] before it reads the conditions, so a membership, a comparison
    and an equality on it all hold and the flag stays [True] on every
    event. *)
Lemma composite_own_flag_counterexample :
  has_column rule_table "is_exit_frag" = false
  /\ (df' <- @_apply_composite example_runtime rule_table
               (own_flag_metric (CList [VBool true])) ;;
      Some (map (fun r => cells r "is_exit_frag") (rows df')))
     = Some [VBool true; VBool true; VBool true]
  /\ (df' <- @_apply_composite example_runtime rule_table
               (own_flag_metric (CScalar (VStr ">0"))) ;;
      Some (map (fun r => cells r "is_exit_frag") (rows df')))
     = Some [VBool true; VBool true; VBool true]
  /\ (df' <- @_apply_composite example_runtime rule_table
               (own_flag_metric (CScalar (VBool true))) ;;
      Some (map (fun r => cells r "is_exit_frag") (rows df')))
     = Some [VBool true; VBool true; VBool true].
Proof. repeat split; vm_compute; reflexivity. Qed.
